(** * Escripts: command dispatcher of [src/escripts/__main__.py]

    A shallow embedding of the [Escripts] class and of [main], together with
    the parts of the Python runtime the class relies on: dynamically typed
    values as produced by [yaml.safe_load], exceptions with the
    [BaseException]/[Exception] split, [argparse.ArgumentParser] restricted to
    the way [process_command] configures it, and [str.format].

    Python strings are represented by their UTF-8 bytes.  Whatever the
    embedding cannot compute (the file system, the YAML parser, floating
    point, Unicode tables, child processes) is a field of the record [World],
    over which every definition and theorem is parametric. *)

From Stdlib Require Import String Ascii List ZArith Bool Arith Lia DecimalString.
Import ListNotations.
Local Open Scope string_scope.

(* ================================================================= *)
(** ** Strings *)

Definition is_ascii_char (c : ascii) : bool := Nat.ltb (nat_of_ascii c) 128.

Fixpoint ascii_only (s : string) : bool :=
  match s with
  | EmptyString => true
  | String c s' => is_ascii_char c && ascii_only s'
  end.

Fixpoint all_chars (p : ascii -> bool) (s : string) : bool :=
  match s with
  | EmptyString => true
  | String c s' => p c && all_chars p s'
  end.

Fixpoint has_char (c : ascii) (s : string) : bool :=
  match s with
  | EmptyString => false
  | String d s' => Ascii.eqb c d || has_char c s'
  end.

(** [str.startswith]: [startswith s p] is [s.startswith(p)]. *)
Definition startswith (s p : string) : bool := String.prefix p s.

(** [needle in hay] for two strings. *)
Fixpoint str_contains (needle hay : string) : bool :=
  String.prefix needle hay
  || match hay with
     | EmptyString => false
     | String _ hay' => str_contains needle hay'
     end.

(** [s.split(c, 1)] when [c] occurs in [s]: the text before and after the
    first occurrence. *)
Fixpoint split_first (c : ascii) (s : string) : option (string * string) :=
  match s with
  | EmptyString => None
  | String d s' =>
      if Ascii.eqb c d then Some (EmptyString, s')
      else match split_first c s' with
           | Some (a, b) => Some (String d a, b)
           | None => None
           end
  end.

(** [s.lstrip(c)]. *)
Fixpoint lstrip_char (c : ascii) (s : string) : string :=
  match s with
  | String d s' => if Ascii.eqb c d then lstrip_char c s' else s
  | EmptyString => EmptyString
  end.

(** [s.replace(a, b)] for single characters. *)
Fixpoint replace_char (a b : ascii) (s : string) : string :=
  match s with
  | EmptyString => EmptyString
  | String d s' => String (if Ascii.eqb a d then b else d) (replace_char a b s')
  end.

Fixpoint join (sep : string) (l : list string) : string :=
  match l with
  | [] => ""
  | [x] => x
  | x :: l' => x ++ sep ++ join sep l'
  end.

Definition is_digit (c : ascii) : bool :=
  let n := nat_of_ascii c in Nat.leb 48 n && Nat.leb n 57.

Definition digit_value (c : ascii) : Z := Z.of_nat (nat_of_ascii c - 48).

(** [str(n)] for an integer. *)
Definition str_of_Z (n : Z) : string := NilZero.string_of_int (Z.to_int n).

(** A byte that continues a UTF-8 sequence: [10xxxxxx]. *)
Definition is_continuation (c : ascii) : bool :=
  let n := nat_of_ascii c in Nat.leb 128 n && Nat.ltb n 192.

(** The characters of a string, each with the bytes of its UTF-8 sequence:
    what iterating over a [str] yields. *)
Fixpoint code_points (s : string) : list string :=
  match s with
  | EmptyString => []
  | String c s' =>
      let starts_inside := match s' with
                           | String d _ => is_continuation d
                           | EmptyString => false
                           end in
      match code_points s' with
      | x :: l => if starts_inside then String c x :: l else String c "" :: x :: l
      | [] => [String c ""]
      end
  end.

Definition hex_digit (n : nat) : ascii :=
  ascii_of_nat (if Nat.ltb n 10 then 48 + n else 87 + n).

(* ================================================================= *)
(** ** Python values

    The values [yaml.safe_load] builds from a JSON-like document.  A float is
    kept as its [repr], which determines it; a dictionary keeps its insertion
    order, which [items()] and [vars()] expose. *)

#[local] Set Warnings "-register-all".

Inductive pyval : Type :=
| VNone
| VBool (b : bool)
| VInt (n : Z)
| VFloat (r : string)
| VStr (s : string)
| VList (l : list pyval)
| VDict (d : list (pyval * pyval)).

(** Truth value of an object, as tested by [if x] and [not x]. *)
Definition py_truthy (v : pyval) : bool :=
  match v with
  | VNone => false
  | VBool b => b
  | VInt n => negb (Z.eqb n 0)
  | VFloat r => negb (String.eqb r "0.0" || String.eqb r "-0.0")
  | VStr s => negb (String.eqb s "")
  | VList l => match l with [] => false | _ => true end
  | VDict d => match d with [] => false | _ => true end
  end.

(** [k == key] for a [str] [k]: only a [str] key can be equal to it. *)
Definition key_is (k : string) (key : pyval) : bool :=
  match key with
  | VStr s => String.eqb k s
  | _ => false
  end.

Fixpoint dict_lookup (d : list (pyval * pyval)) (k : string) : option pyval :=
  match d with
  | [] => None
  | (key, v) :: d' => if key_is k key then Some v else dict_lookup d' k
  end.

(* ================================================================= *)
(** ** Exceptions, effects and the world *)

(** What [subprocess.run] is asked to start. *)
Inductive spawn : Type :=
| SpawnArgv (cmd : list string) (env : list (string * string))
| SpawnShell (command : string) (cwd : string).

Inductive exn : Type :=
| FileNotFoundError (msg : string)
| NotADirectoryError (msg : string)
| ValueError (msg : string)
| KeyError (key : string)
| IndexError (msg : string)
| TypeError (msg : string)
| AttributeError (msg : string)
| AssertionError (msg : string)
| ArgumentError (msg : string)
| YAMLError (msg : string)
| OSError (msg : string)
| CalledProcessError (returncode : Z) (cmd : spawn)
| SystemExit (code : Z).

(** [isinstance(e, Exception)]: [SystemExit] derives from [BaseException]
    only, so an [except Exception] clause lets it through. *)
Definition is_Exception (e : exn) : bool :=
  match e with
  | SystemExit _ => false
  | _ => true
  end.

(** How parsing ends without a result: the first four are the reasons for
    which [ArgumentParser.error] is called; the last one is an exception
    that [argparse] does not handle, and that leaves [parse_known_args] as
    it is. *)
Inductive parse_failure : Type :=
| AmbiguousOption (token : string) (matches : list string)
| ExpectedOneArgument (option : string)
| InvalidValue (option : string) (value : string)
| RequiredMissing (options : list string)
| Uncaught (e : exn).

Inductive logarg : Type :=
| LStr (s : string)
| LExn (e : exn).

Inductive event : Type :=
| EPrint (line : string)
| ELogError (fmt : string) (args : list logarg)
| EUsageError (why : parse_failure)
| ESpawn (s : spawn).

Inductive yaml_outcome : Type :=
| YamlLoaded (config : pyval)
| YamlInvalid (msg : string)
| YamlUnreadable (e : exn).

Inductive spawn_outcome : Type :=
| Exited (returncode : Z)
| NotStarted (e : exn).

Inductive result (A : Type) : Type :=
| Ok (a : A)
| Raise (e : exn).
Arguments Ok {A} a.
Arguments Raise {A} e.

Record World : Type := {
  (** [Path.home() / ".escripts"] *)
  default_namespace : string;
  (** [Path.exists], [Path.is_dir], [Path.is_file], [Path.absolute] and the
      [/] operator of [pathlib] *)
  path_exists : string -> bool;
  path_is_dir : string -> bool;
  path_is_file : string -> bool;
  path_absolute : string -> string;
  path_join : string -> string -> string;
  (** opening a file as UTF-8 and running [yaml.safe_load] on it *)
  yaml_safe_load : string -> yaml_outcome;
  (** [os.environ] and [sys.executable] *)
  environ : list (string * string);
  sys_executable : string;
  (** the child started by [subprocess.run] *)
  subprocess_run : spawn -> spawn_outcome;
  (** [float(s)]: the [repr] of the result, [None] for [ValueError] *)
  float_of_str : string -> option string;
  (** [int(s)] where [s] has non-ASCII characters or more than 640 of them
      (Unicode digits and spaces, the limit on the number of digits) *)
  int_of_str_other : string -> option Z;
  (** [repr(s)] for a string with non-ASCII characters *)
  repr_of_str_other : string -> string;
  (** whether a token with non-ASCII characters matches
      [argparse]'s negative-number pattern *)
  negative_number_other : string -> bool;
  (** whether [argparse] fails to format the usage line of a parser, given
      by its option strings and whether each is required, when one of them
      has a blank, a bracket or a character that is not printable ASCII:
      the line is wrapped when it is longer than the terminal is wide, and
      an [assert] requires its parts to join back to it *)
  usage_wrap_fails : list (string * bool) -> bool;
  (** [value is default]: whether a string the namespace holds (the default
      of the parameter at the given position, or a value taken from the
      command line for [None]) is the same object as the equal string that
      is the default of the parameter at the last position; so for the
      one-character strings CPython shares, and for defaults that a YAML
      alias makes one object *)
  same_str_object : string -> option nat -> nat -> bool;
  (** whether a replacement-field name with non-ASCII characters is a
      decimal number for [str.format] *)
  decimal_name_other : string -> bool;
  (** what [str.format] raises for a positional field, there being no
      positional arguments, when the index is not a number of at most nine
      ASCII digits *)
  format_positional_failure : string -> exn;
  (** [str.format]'s rendering of a value found for a field that goes on
      with attribute or index lookups, has a conversion other than [!s] and
      [!r], or a non-empty format specification *)
  format_render_other :
    list (string * pyval) -> pyval -> string -> option string -> string -> result string;
}.

(** A computation: the events it performed, in order, and how it ended. *)
Definition M (A : Type) : Type := (list event * result A)%type.

Definition ret {A} (a : A) : M A := ([], Ok a).
Definition raise {A} (e : exn) : M A := ([], Raise e).
Definition emit (ev : event) : M unit := ([ev], Ok tt).
Definition lift {A} (r : result A) : M A := ([], r).

Definition bind {A B} (m : M A) (k : A -> M B) : M B :=
  match m with
  | (t, Ok a) => let '(t', r) := k a in ((t ++ t')%list, r)
  | (t, Raise e) => (t, Raise e)
  end.

(** [try: m except <class> as e: handler(e)], where [handler] answers [None]
    for an exception the clause does not match. *)
Definition try_except {A} (m : M A) (handler : exn -> option (M A)) : M A :=
  match m with
  | (t, Ok a) => (t, Ok a)
  | (t, Raise e) =>
      match handler e with
      | Some h => let '(t', r) := h in ((t ++ t')%list, r)
      | None => (t, Raise e)
      end
  end.

Declare Scope py_scope.
Delimit Scope py_scope with py.
Notation "x <- m ;; k" := (bind m (fun x => k))
  (at level 61, m at next level, right associativity) : py_scope.
Notation "m ;;; k" := (bind m (fun _ => k))
  (at level 61, right associativity) : py_scope.
Local Open Scope py_scope.

Definition rbind {A B} (r : result A) (k : A -> result B) : result B :=
  match r with
  | Ok a => k a
  | Raise e => Raise e
  end.

Definition trace {A} (m : M A) : list event := fst m.
Definition outcome {A} (m : M A) : result A := snd m.

Definition is_spawn (ev : event) : bool :=
  match ev with ESpawn _ => true | _ => false end.
Definition is_log (ev : event) : bool :=
  match ev with ELogError _ _ => true | _ => false end.

(** No child process was started. *)
Definition no_spawn (t : list event) : Prop := forallb (fun ev => negb (is_spawn ev)) t = true.

(* ================================================================= *)
(** ** Built-in operations on values *)

Definition tab : string := String (ascii_of_nat 9) "".
Definition newline : ascii := ascii_of_nat 10.

Definition type_name (v : pyval) : string :=
  match v with
  | VNone => "NoneType"
  | VBool _ => "bool"
  | VInt _ => "int"
  | VFloat _ => "float"
  | VStr _ => "str"
  | VList _ => "list"
  | VDict _ => "dict"
  end.

Definition no_attribute (v : pyval) (attr : string) : exn :=
  AttributeError ("'" ++ type_name v ++ "' object has no attribute '" ++ attr ++ "'").

(** [v.get(k, default)]: defined on dictionaries only. *)
Definition py_get (v : pyval) (k : string) (default : pyval) : result pyval :=
  match v with
  | VDict d =>
      match dict_lookup d k with
      | Some x => Ok x
      | None => Ok default
      end
  | _ => Raise (no_attribute v "get")
  end.

(** What iterating over [v] yields: the characters of a string, the
    elements of a list, the keys of a dictionary. *)
Definition py_iter (v : pyval) : result (list pyval) :=
  match v with
  | VStr s => Ok (map VStr (code_points s))
  | VList l => Ok l
  | VDict d => Ok (map fst d)
  | _ => Raise (TypeError ("'" ++ type_name v ++ "' object is not iterable"))
  end.

(** [v.items()]. *)
Definition py_items (v : pyval) : result (list (pyval * pyval)) :=
  match v with
  | VDict d => Ok d
  | _ => Raise (no_attribute v "items")
  end.

(** [k in v] for a [str] [k]: key membership in a dictionary, element
    membership in a list, substring test in a string. *)
Definition py_in (k : string) (v : pyval) : result bool :=
  match v with
  | VDict d => Ok (match dict_lookup d k with Some _ => true | None => false end)
  | VList l => Ok (existsb (key_is k) l)
  | VStr s => Ok (str_contains k s)
  | _ => Raise (TypeError ("argument of type '" ++ type_name v ++ "' is not iterable"))
  end.

(** [v[k]] for a [str] [k]. *)
Definition py_getitem (v : pyval) (k : string) : result pyval :=
  match v with
  | VDict d =>
      match dict_lookup d k with
      | Some x => Ok x
      | None => Raise (KeyError k)
      end
  | VList _ => Raise (TypeError "list indices must be integers or slices, not str")
  | VStr _ => Raise (TypeError "string indices must be integers, not 'str'")
  | _ => Raise (TypeError ("'" ++ type_name v ++ "' object is not subscriptable"))
  end.

(** [repr] of an ASCII string: single quotes unless the text has a single
    quote and no double quote; backslash, the quote and control characters
    escaped. *)
Definition dquote : ascii := ascii_of_nat 34.

Definition repr_quote (s : string) : ascii :=
  if has_char "'"%char s && negb (has_char dquote s) then dquote else "'"%char.

Definition repr_char (q c : ascii) : string :=
  let n := nat_of_ascii c in
  if Ascii.eqb c "\"%char || Ascii.eqb c q then String "\"%char (String c "")
  else if Nat.eqb n 9 then "\t"
  else if Nat.eqb n 10 then "\n"
  else if Nat.eqb n 13 then "\r"
  else if Nat.ltb n 32 || Nat.eqb n 127 then
    String "\"%char (String "x"%char
      (String (hex_digit (n / 16)) (String (hex_digit (n mod 16)) "")))
  else String c "".

Fixpoint repr_body (q : ascii) (s : string) : string :=
  match s with
  | EmptyString => ""
  | String c s' => repr_char q c ++ repr_body q s'
  end.

Definition repr_of_str (w : World) (s : string) : string :=
  if ascii_only s then
    let q := repr_quote s in String q (repr_body q s ++ String q "")
  else repr_of_str_other w s.

Fixpoint py_repr (w : World) (v : pyval) : string :=
  match v with
  | VNone => "None"
  | VBool true => "True"
  | VBool false => "False"
  | VInt n => str_of_Z n
  | VFloat r => r
  | VStr s => repr_of_str w s
  | VList l => "[" ++ join ", " (map (py_repr w) l) ++ "]"
  | VDict d =>
      "{" ++ join ", " (map (fun '(k, x) => py_repr w k ++ ": " ++ py_repr w x) d) ++ "}"
  end.

(** [str(v)], which is also [format(v, "")] and what an f-string inserts. *)
Definition py_str (w : World) (v : pyval) : string :=
  match v with
  | VStr s => s
  | _ => py_repr w v
  end.

(** [int(s)] on an ASCII string of at most 640 characters: optional blanks,
    an optional sign, decimal digits with single underscores between them,
    optional blanks. *)
Definition is_space (c : ascii) : bool :=
  let n := nat_of_ascii c in (Nat.leb 9 n && Nat.leb n 13) || Nat.eqb n 32.

Fixpoint skip_spaces (s : string) : string :=
  match s with
  | String c s' => if is_space c then skip_spaces s' else s
  | EmptyString => EmptyString
  end.

(** Scans the digits: [acc] is the value so far, [seen] whether a digit was
    read, [us] whether the previous character was an underscore. *)
Fixpoint int_digits (s : string) (acc : Z) (seen us : bool) : option Z :=
  match s with
  | EmptyString => if seen && negb us then Some acc else None
  | String c s' =>
      if is_digit c then int_digits s' (acc * 10 + digit_value c)%Z true false
      else if Ascii.eqb c "_"%char then
        if seen && negb us then int_digits s' acc seen true else None
      else if seen && negb us && all_chars is_space s then Some acc
      else None
  end.

Definition int_of_ascii_str (s : string) : option Z :=
  match skip_spaces s with
  | String "+"%char s' => int_digits s' 0%Z false false
  | String "-"%char s' => option_map Z.opp (int_digits s' 0%Z false false)
  | s' => int_digits s' 0%Z false false
  end.

Definition int_of_str (w : World) (s : string) : option Z :=
  if ascii_only s && Nat.leb (String.length s) 640 then int_of_ascii_str s
  else int_of_str_other w s.

Fixpoint iter_M {A} (f : A -> M unit) (l : list A) : M unit :=
  match l with
  | [] => ret tt
  | x :: l' => f x ;;; iter_M f l'
  end.

Definition print (line : string) : M unit := emit (EPrint line).
Definition logging_error (fmt : string) (args : list logarg) : M unit :=
  emit (ELogError fmt args).

(* ================================================================= *)
(** ** [argparse.ArgumentParser(add_help=False)]

    Only what [process_command] uses: optional arguments added with one long
    option string, [nargs=None], the [store] action, a [type] among [str],
    [int] and [float], and [parse_known_args].  The prefix character is
    ['-'] and abbreviations are allowed, as by default.  The behaviour is
    that of the module shipped with CPython 3.11. *)

Inductive arg_type : Type := TypeStr | TypeInt | TypeFloat.

Record action : Type := {
  option_string : string;
  dest : string;
  type_ : arg_type;
  default : pyval;
  required : bool;
  help : pyval;
}.

(** [parser._actions], in the order of the [add_argument] calls.  An action
    is identified by its position. *)
Definition parser : Type := list action.

Definition has_option (p : parser) (s : string) : bool :=
  existsb (fun a => String.eqb (option_string a) s) p.

(** [parser.add_argument(opt, type=ty, help=h, default=d, required=r)] for an
    [opt] that starts with ['-']. The destination is the option string
    without its leading dashes, the other dashes turned into underscores. *)
Definition add_argument (p : parser) (opt : string) (ty : arg_type) (h : pyval)
    (d : option pyval) (r : bool) : result parser :=
  let name := lstrip_char "-"%char opt in
  if String.eqb name "" then
    Raise (ValueError ("dest= is required for options like '" ++ opt ++ "'"))
  else if has_option p opt then
    Raise (ArgumentError ("argument " ++ opt ++ ": conflicting option string: " ++ opt))
  else
    Ok (p ++ [ {| option_string := opt;
                  dest := replace_char "-"%char "_"%char name;
                  type_ := ty;
                  default := match d with Some x => x | None => VNone end;
                  required := r;
                  help := h |} ])%list.

(** The result of [_parse_optional]: [None] for a positional argument, else
    the action (if the parser has one, with its position), the option string
    and the explicit argument after ['=']. *)
Inductive token_class : Type :=
| Positional
| Optional (act : option (nat * action)) (opt : string) (explicit_arg : option string).

(** The action registered under an option string, the first position being
    [i]. *)
Fixpoint find_option (p : parser) (s : string) (i : nat) : option (nat * action) :=
  match p with
  | [] => None
  | a :: p' =>
      if String.eqb (option_string a) s then Some (i, a) else find_option p' s (S i)
  end.

Definition option_tuple : Type := ((nat * action) * string * option string)%type.

(** [_get_option_tuples]: the abbreviations of a token with two leading
    dashes, and the readings of one with a single dash. *)
Fixpoint prefix_matches (p : parser) (pre : string) (e : option string) (i : nat)
    : list option_tuple :=
  match p with
  | [] => []
  | a :: p' =>
      if startswith (option_string a) pre
      then ((i, a), option_string a, e) :: prefix_matches p' pre e (S i)
      else prefix_matches p' pre e (S i)
  end.

Fixpoint short_matches (p : parser) (arg short rest : string) (i : nat)
    : list option_tuple :=
  match p with
  | [] => []
  | a :: p' =>
      if String.eqb (option_string a) short
      then ((i, a), option_string a, Some rest) :: short_matches p' arg short rest (S i)
      else if startswith (option_string a) arg
      then ((i, a), option_string a, None) :: short_matches p' arg short rest (S i)
      else short_matches p' arg short rest (S i)
  end.

Definition get_option_tuples (p : parser) (arg : string) : list option_tuple :=
  match arg with
  | String c0 (String c1 rest) =>
      if Ascii.eqb c1 "-"%char then
        match split_first "="%char arg with
        | Some (pre, e) => prefix_matches p pre (Some e) 0
        | None => prefix_matches p arg None 0
        end
      else short_matches p arg (String c0 (String c1 "")) rest 0
  | _ => []
  end.

(** The pattern [^-\d+$|^-\d*\.\d+$], where [$] also matches before a final
    newline. *)
Fixpoint drop_final_newline (s : string) : string :=
  match s with
  | EmptyString => EmptyString
  | String c EmptyString => if Ascii.eqb c newline then EmptyString else s
  | String c s' => String c (drop_final_newline s')
  end.

Definition nonempty_digits (s : string) : bool :=
  negb (String.eqb s "") && all_chars is_digit s.

Definition negative_number_like (w : World) (s : string) : bool :=
  if ascii_only s then
    match s with
    | String "-"%char body =>
        let body := drop_final_newline body in
        nonempty_digits body
        || match split_first "."%char body with
           | Some (a, b) => all_chars is_digit a && nonempty_digits b
           | None => false
           end
    | _ => false
    end
  else negative_number_other w s.

Inductive parsed (A : Type) : Type :=
| Parsed (a : A)
| Failed (why : parse_failure).
Arguments Parsed {A} a.
Arguments Failed {A} why.

(** [_parse_optional]. *)
Definition parse_optional (w : World) (p : parser) (arg : string) : parsed token_class :=
  match arg with
  | EmptyString => Parsed Positional
  | String c0 tail =>
      if negb (Ascii.eqb c0 "-"%char) then Parsed Positional
      else match find_option p arg 0 with
      | Some ia => Parsed (Optional (Some ia) arg None)
      | None =>
      if String.eqb tail "" then Parsed Positional
      else
        let exact :=
          match split_first "="%char arg with
          | Some (o, e) =>
              match find_option p o 0 with
              | Some ia => Some (Optional (Some ia) o (Some e))
              | None => None
              end
          | None => None
          end in
        match exact with
        | Some c => Parsed c
        | None =>
            match get_option_tuples p arg with
            | (_ :: _ :: _) as l => Failed (AmbiguousOption arg (map (fun t => snd (fst t)) l))
            | [t] => Parsed (Optional (Some (fst (fst t))) (snd (fst t)) (snd t))
            | [] =>
                if negative_number_like w arg then Parsed Positional
                else if has_char " "%char arg then Parsed Positional
                else Parsed (Optional None arg None)
            end
        end
      end
  end.

(** The first loop of [_parse_known_args]: each argument string with its
    pattern letter; ["--"] and everything after it are not options. *)
Inductive pattern : Type :=
| PatA
| PatDash
| PatO (act : option (nat * action)) (opt : string) (explicit_arg : option string).

Definition pattern_of (c : token_class) : pattern :=
  match c with
  | Positional => PatA
  | Optional act o e => PatO act o e
  end.

Fixpoint classify (w : World) (p : parser) (args : list string)
    : parsed (list (string * pattern)) :=
  match args with
  | [] => Parsed []
  | arg :: args' =>
      if String.eqb arg "--" then
        Parsed ((arg, PatDash) :: map (fun a => (a, PatA)) args')
      else
        match parse_optional w p arg with
        | Failed why => Failed why
        | Parsed c =>
            match classify w p args' with
            | Failed why => Failed why
            | Parsed l => Parsed ((arg, pattern_of c) :: l)
            end
        end
  end.

(** [argparse.Namespace]: the attributes of the object, in the order they
    were first set.  Each value remembers whether it is the [default] object
    of an action (and of which), which is what the [is] test on defaults
    looks at. *)
Definition Namespace : Type := list (string * (pyval * option nat)).

(** The attributes every [Namespace] object has from its classes
    ([Namespace], [_AttributeHolder] and [object]). *)
Definition namespace_class_attributes : list string :=
  ["__class__"; "__contains__"; "__delattr__"; "__dict__"; "__dir__"; "__doc__";
   "__eq__"; "__format__"; "__ge__"; "__getattribute__"; "__getstate__"; "__gt__";
   "__hash__"; "__init__"; "__init_subclass__"; "__le__"; "__lt__"; "__module__";
   "__ne__"; "__new__"; "__reduce__"; "__reduce_ex__"; "__repr__"; "__setattr__";
   "__sizeof__"; "__str__"; "__subclasshook__"; "__weakref__"; "_get_args";
   "_get_kwargs"].

Fixpoint ns_get (n : Namespace) (k : string) : option (pyval * option nat) :=
  match n with
  | [] => None
  | (k', x) :: n' => if String.eqb k' k then Some x else ns_get n' k
  end.

Fixpoint ns_set (n : Namespace) (k : string) (x : pyval * option nat) : Namespace :=
  match n with
  | [] => [(k, x)]
  | (k', y) :: n' =>
      if String.eqb k' k then (k', x) :: n' else (k', y) :: ns_set n' k x
  end.

(** [delattr(namespace, k)] for an attribute of the object. *)
Fixpoint ns_del (n : Namespace) (k : string) : Namespace :=
  match n with
  | [] => []
  | (k', y) :: n' => if String.eqb k' k then n' else (k', y) :: ns_del n' k
  end.

(** [hasattr(namespace, k)]: an attribute of the object or of its class. *)
Definition ns_hasattr (n : Namespace) (k : string) : bool :=
  match ns_get n k with
  | Some _ => true
  | None => existsb (String.eqb k) namespace_class_attributes
  end.

(** [setattr(namespace, k, x)] for a value [argparse] stores (a string, a
    number or a list): three attributes of the class cannot be set to
    one. *)
Definition ns_setattr (n : Namespace) (k : string) (x : pyval * option nat)
    : result Namespace :=
  if String.eqb k "__class__" then
    Raise (TypeError ("__class__ must be set to a class, not '" ++ type_name (fst x)
                      ++ "' object"))
  else if String.eqb k "__dict__" then
    Raise (TypeError ("__dict__ must be set to a dictionary, not a '" ++ type_name (fst x)
                      ++ "'"))
  else if String.eqb k "__weakref__" then
    Raise (AttributeError "attribute '__weakref__' of '_AttributeHolder' objects is not writable")
  else Ok (ns_set n k x).

(** [vars(namespace)]. *)
Definition vars (n : Namespace) : list (string * pyval) :=
  map (fun '(k, (v, _)) => (k, v)) n.

(** The defaults put in the namespace before parsing: the default of an
    action is set unless the namespace has an attribute of that name
    already. *)
Fixpoint initial_namespace (p : parser) (i : nat) (n : Namespace) : Namespace :=
  match p with
  | [] => n
  | a :: p' =>
      initial_namespace p' (S i)
        (if ns_hasattr n (dest a) then n
         else ns_set n (dest a) (default a, Some i))
  end.

(** [_get_value]: the [type] function applied to an argument string. *)
Definition get_value (w : World) (a : action) (s : string) : parsed pyval :=
  match type_ a with
  | TypeStr => Parsed (VStr s)
  | TypeInt =>
      match int_of_str w s with
      | Some n => Parsed (VInt n)
      | None => Failed (InvalidValue (option_string a) s)
      end
  | TypeFloat =>
      match float_of_str w s with
      | Some r => Parsed (VFloat r)
      | None => Failed (InvalidValue (option_string a) s)
      end
  end.

Record parse_state : Type := {
  st_namespace : Namespace;
  st_seen : list nat;
  st_extras : list string;
}.

Definition add_extra (st : parse_state) (s : string) : parse_state :=
  {| st_namespace := st_namespace st;
     st_seen := st_seen st;
     st_extras := (st_extras st ++ [s])%list |}.

(** [_get_values] for one argument string: a first ["--"] is removed from
    the argument strings, and the list of the converted values (the empty
    list) is the result when nothing is left. *)
Definition get_values (w : World) (a : action) (s : string) : parsed pyval :=
  if String.eqb s "--" then Parsed (VList []) else get_value w a s.

(** [take_action] for a [store] action with one argument string: the value
    is converted, then stored with [setattr]. *)
Definition take_action (w : World) (st : parse_state) (ia : nat * action) (s : string)
    : parsed parse_state :=
  let '(i, a) := ia in
  match get_values w a s with
  | Failed why => Failed why
  | Parsed v =>
      match ns_setattr (st_namespace st) (dest a) (v, None) with
      | Raise e => Failed (Uncaught e)
      | Ok n =>
          Parsed {| st_namespace := n;
                    st_seen := i :: st_seen st;
                    st_extras := st_extras st |}
      end
  end.

(** The main loop of [_parse_known_args] for a parser without positional
    arguments: strings that are not options, and options the parser does not
    know, go to the extras; a known option takes its explicit argument or the
    next string, which must have pattern [A]. *)
Fixpoint consume (w : World) (l : list (string * pattern)) (st : parse_state)
    : parsed parse_state :=
  match l with
  | [] => Parsed st
  | (s, PatO (Some ia) o (Some e)) :: l' =>
      match take_action w st ia e with
      | Failed why => Failed why
      | Parsed st' => consume w l' st'
      end
  | (s, PatO (Some ia) o None) :: l' =>
      match l' with
      | (v, PatA) :: l'' =>
          match take_action w st ia v with
          | Failed why => Failed why
          | Parsed st' => consume w l'' st'
          end
      | _ => Failed (ExpectedOneArgument (option_string (snd ia)))
      end
  | (s, _) :: l' => consume w l' (add_extra st s)
  end.

(** [hasattr(namespace, action.dest) and action.default is
    getattr(namespace, action.dest)] for the action at position [i], whose
    default is the string [s].  The attribute is that object when it was set
    from this default; when it was set from another default or from the
    command line, it is only if the strings are equal and are one object.
    An attribute of the class is never an object of the configuration. *)
Definition default_is_bound (w : World) (n : Namespace) (i : nat) (a : action)
    (s : string) : bool :=
  match ns_get n (dest a) with
  | Some (v, origin) =>
      match origin with
      | Some j => Nat.eqb i j
      | None => false
      end
      || (match v with
          | VStr s' => String.eqb s s'
          | _ => false
          end
          && same_str_object w s origin i)
  | None => false
  end.

(** The loop over the actions after parsing: a required action that was not
    seen is reported; a string default that is still in the namespace is
    converted with the action's [type] ([str] gives the string itself). *)
Fixpoint finalize (w : World) (p : parser) (i : nat) (seen : list nat)
    (n : Namespace) (missing : list string) : parsed (Namespace * list string) :=
  match p with
  | [] => Parsed (n, missing)
  | a :: p' =>
      if existsb (Nat.eqb i) seen then finalize w p' (S i) seen n missing
      else if required a then
        finalize w p' (S i) seen n (missing ++ [option_string a])%list
      else
        match default a with
        | VStr s =>
            if default_is_bound w n i a s then
              match get_value w a s with
              | Failed why => Failed why
              | Parsed v =>
                  let origin := match type_ a with
                                | TypeStr => Some i
                                | _ => None
                                end in
                  match ns_setattr n (dest a) (v, origin) with
                  | Raise e => Failed (Uncaught e)
                  | Ok n' => finalize w p' (S i) seen n' missing
                  end
              end
            else finalize w p' (S i) seen n missing
        | _ => finalize w p' (S i) seen n missing
        end
  end.

(** [_parse_known_args], with the defaults that are set before it. *)
Definition parse_args (w : World) (p : parser) (args : list string)
    : parsed (Namespace * list string) :=
  match classify w p args with
  | Failed why => Failed why
  | Parsed l =>
      match consume w l {| st_namespace := initial_namespace p 0 [];
                           st_seen := [];
                           st_extras := [] |} with
      | Failed why => Failed why
      | Parsed st =>
          match finalize w p 0 (st_seen st) (st_namespace st) [] with
          | Failed why => Failed why
          | Parsed (n, []) => Parsed (n, st_extras st)
          | Parsed (_, missing) => Failed (RequiredMissing missing)
          end
      end
  end.

(** A character that the usage line takes as it is: printable ASCII other
    than a blank or a bracket. *)
Definition is_usage_plain (c : ascii) : bool :=
  let n := nat_of_ascii c in
  Nat.leb 33 n && Nat.leb n 126
  && negb (Ascii.eqb c "["%char || Ascii.eqb c "]"%char
           || Ascii.eqb c "("%char || Ascii.eqb c ")"%char).

(** Whether [format_usage] fails on its [assert]: never when the option
    strings are plain. *)
Definition usage_fails (w : World) (p : parser) : bool :=
  if forallb (fun a => all_chars is_usage_plain (option_string a)) p then false
  else usage_wrap_fails w (map (fun a => (option_string a, required a)) p).

(** [ArgumentParser.error]: the usage line is formatted, then usage and
    message are written on the standard error stream, then [sys.exit(2)]. *)
Definition parser_error {A} (w : World) (p : parser) (why : parse_failure) : M A :=
  if usage_fails w p then raise (AssertionError "")
  else emit (EUsageError why) ;;; raise (SystemExit 2).

(** What [parse_known_args] does with the result of [_parse_known_args]: an
    attribute [_unrecognized_args] of the namespace is taken for more
    extras, which are added by iterating over it, and is deleted. *)
Definition parse_known (w : World) (p : parser) (args : list string)
    : parsed (Namespace * list pyval) :=
  match parse_args w p args with
  | Failed why => Failed why
  | Parsed (n, extras) =>
      match ns_get n "_unrecognized_args" with
      | None => Parsed (n, map VStr extras)
      | Some (v, _) =>
          match py_iter v with
          | Raise e => Failed (Uncaught e)
          | Ok more => Parsed (ns_del n "_unrecognized_args", (map VStr extras ++ more)%list)
          end
      end
  end.

(** [parser.parse_known_args(args)]: an [ArgumentError] and a missing
    required option go to [error]; any other exception is not handled. *)
Definition parse_known_args (w : World) (p : parser) (args : list string)
    : M (Namespace * list pyval) :=
  match parse_known w p args with
  | Parsed r => ret r
  | Failed (Uncaught e) => raise e
  | Failed why => parser_error w p why
  end.

(* ================================================================= *)
(** ** [str.format] with keyword arguments only

    The format string is read from left to right; a replacement field is
    rendered as soon as its closing brace is read, so the first failure
    (malformed markup or a failing field) is the one that is raised. *)

Inductive fmt_state : Type :=
| FLiteral
| FOpen
| FClose
| FName (name : string) (in_bracket : bool)
| FConv (name : string)
| FConvDone (name : string) (conv : string)
| FSpec (name : string) (conv : option string) (spec : string) (nested : nat).

Notation "'let?' x := r 'in' k" := (rbind r (fun x => k))
  (at level 10, x name, r at level 100, k at level 200).

(** The first part of a field name, up to the first ['.'] or ['[']. *)
Fixpoint field_first (name : string) : string * string :=
  match name with
  | EmptyString => ("", "")
  | String c name' =>
      if Ascii.eqb c "."%char || Ascii.eqb c "["%char then ("", name)
      else let '(a, b) := field_first name' in (String c a, b)
  end.

Fixpoint decimal_value (s : string) (acc : Z) : Z :=
  match s with
  | EmptyString => acc
  | String c s' => decimal_value s' (acc * 10 + digit_value c)%Z
  end.

(** Whether the first part of a field name selects a positional argument:
    it is empty (automatic numbering) or a decimal number. *)
Definition is_positional_field (w : World) (first : string) : bool :=
  if ascii_only first then all_chars is_digit first
  else decimal_name_other w first.

Definition lookup_kwarg (kwargs : list (string * pyval)) (k : string) : option pyval :=
  option_map snd (find (fun kv => String.eqb (fst kv) k) kwargs).

Definition render_field (w : World) (kwargs : list (string * pyval))
    (name : string) (conv : option string) (spec : string) : result string :=
  let '(first, rest) := field_first name in
  if is_positional_field w first then
    if ascii_only first && Nat.leb (String.length first) 9 then
      Raise (IndexError ("Replacement index " ++ str_of_Z (decimal_value first 0)
                         ++ " out of range for positional args tuple"))
    else Raise (format_positional_failure w first)
  else
    match lookup_kwarg kwargs first with
    | None => Raise (KeyError first)
    | Some obj =>
        if String.eqb rest "" && String.eqb spec "" then
          match conv with
          | None => Ok (py_str w obj)
          | Some c =>
              if String.eqb c "s" then Ok (py_str w obj)
              else if String.eqb c "r" then Ok (py_repr w obj)
              else format_render_other w kwargs obj rest conv spec
          end
        else format_render_other w kwargs obj rest conv spec
    end.

Definition snoc (s : string) (c : ascii) : string := s ++ String c "".

Fixpoint format_from (w : World) (kwargs : list (string * pyval))
    (st : fmt_state) (s : string) : result string :=
  match s with
  | EmptyString =>
      match st with
      | FLiteral => Ok ""
      | FOpen => Raise (ValueError "Single '{' encountered in format string")
      | FClose => Raise (ValueError "Single '}' encountered in format string")
      | FName _ _ => Raise (ValueError "expected '}' before end of string")
      | FConv _ =>
          Raise (ValueError "end of string while looking for conversion specifier")
      | FConvDone _ _ | FSpec _ _ _ _ =>
          Raise (ValueError "unmatched '{' in format spec")
      end
  | String c s' =>
      let literal := fun (c : ascii) =>
        let? out := format_from w kwargs FLiteral s' in Ok (String c out) in
      let field := fun name conv spec =>
        let? text := render_field w kwargs name conv spec in
        let? out := format_from w kwargs FLiteral s' in Ok (text ++ out) in
      let in_name := fun name =>
        if Ascii.eqb c "{"%char then Raise (ValueError "unexpected '{' in field name")
        else if Ascii.eqb c "["%char then format_from w kwargs (FName (snoc name c) true) s'
        else if Ascii.eqb c "}"%char then field name None ""
        else if Ascii.eqb c "!"%char then format_from w kwargs (FConv name) s'
        else if Ascii.eqb c ":"%char then format_from w kwargs (FSpec name None "" 0) s'
        else format_from w kwargs (FName (snoc name c) false) s' in
      match st with
      | FLiteral =>
          if Ascii.eqb c "{"%char then format_from w kwargs FOpen s'
          else if Ascii.eqb c "}"%char then format_from w kwargs FClose s'
          else literal c
      | FOpen => if Ascii.eqb c "{"%char then literal c else in_name ""
      | FClose =>
          if Ascii.eqb c "}"%char then literal c
          else Raise (ValueError "Single '}' encountered in format string")
      | FName name true =>
          format_from w kwargs (FName (snoc name c) (negb (Ascii.eqb c "]"%char))) s'
      | FName name false => in_name name
      | FConv name => format_from w kwargs (FConvDone name (String c "")) s'
      | FConvDone name conv =>
          if is_continuation c then format_from w kwargs (FConvDone name (snoc conv c)) s'
          else if Ascii.eqb c "}"%char then field name (Some conv) ""
          else if Ascii.eqb c ":"%char then format_from w kwargs (FSpec name (Some conv) "" 0) s'
          else Raise (ValueError "expected ':' after conversion specifier")
      | FSpec name conv spec nested =>
          if Ascii.eqb c "{"%char then format_from w kwargs (FSpec name conv (snoc spec c) (S nested)) s'
          else if Ascii.eqb c "}"%char then
            match nested with
            | O => field name conv spec
            | S n => format_from w kwargs (FSpec name conv (snoc spec c) n) s'
            end
          else format_from w kwargs (FSpec name conv (snoc spec c) nested) s'
      end
  end.

(** [template.format] applied to the unpacked [kwargs]: only a [str] has
    the method. *)
Definition py_format (w : World) (template : pyval)
    (kwargs : list (string * pyval)) : result string :=
  match template with
  | VStr s => format_from w kwargs FLiteral s
  | _ => Raise (no_attribute template "format")
  end.

(* ================================================================= *)
(** ** The class [Escripts] *)

Record Escripts : Type := {
  namespace : string;
  data : pyval;
}.

(** [subprocess.run(..., check=True)]. *)
Definition subprocess_run_checked (w : World) (s : spawn) : M unit :=
  emit (ESpawn s) ;;;
  match subprocess_run w s with
  | Exited 0 => ret tt
  | Exited code => raise (CalledProcessError code s)
  | NotStarted e => raise e
  end.

(** [Escripts._load_config]. *)
Definition _load_config (w : World) (namespace : string) : M pyval :=
  if negb (path_exists w namespace) then
    raise (FileNotFoundError ("Папка '" ++ path_absolute w namespace ++ "' не существует"))
  else if negb (path_is_dir w namespace) then
    raise (NotADirectoryError ("'" ++ path_absolute w namespace ++ "' не является папкой"))
  else
    let config_path := path_join w namespace "config.yml" in
    if negb (path_exists w config_path) then
      raise (FileNotFoundError
               ("Файл конфигурации '" ++ path_absolute w config_path ++ "' не найден"))
    else if negb (path_is_file w config_path) then
      raise (ValueError ("'" ++ path_absolute w config_path ++ "' не является файлом"))
    else
      config <- match yaml_safe_load w config_path with
                | YamlLoaded config => ret config
                | YamlInvalid e => raise (ValueError ("Ошибка разбора конфигурации: " ++ e))
                | YamlUnreadable e => raise e
                end ;;
      match config with
      | VNone => raise (ValueError "Конфигурация пуста")
      | _ => ret config
      end.

(** [Escripts.__init__]. *)
Definition __init__ (w : World) (namespace : option string) : M Escripts :=
  let namespace := match namespace with
                   | Some n => n
                   | None => default_namespace w
                   end in
  data <- _load_config w namespace ;;
  ret {| namespace := namespace; data := data |}.

(** [Escripts.print_usage]. *)
Definition print_usage : M unit :=
  print ("Использование:" ++ String newline tab
         ++ "escripts [--list] <command> [--args=args] [--help]" ++ String newline ""
         ++ "Для просмотра списка команд используйте --list.").

(** One line of the argument list of [print_help]. *)
Definition print_help_argument (w : World) (arg details : pyval) : M unit :=
  arg_desc <- lift (py_get details "description" (VStr "")) ;;
  arg_default <- lift (py_get details "default" VNone) ;;
  match arg_default with
  | VNone => print (tab ++ "--" ++ py_str w arg ++ " - " ++ py_str w arg_desc)
  | _ => print (tab ++ "--" ++ py_str w arg ++ " [default: " ++ py_str w arg_default
                ++ "] - " ++ py_str w arg_desc)
  end.

(** [Escripts.print_help]. *)
Definition print_help (w : World) (name : string) (description : pyval) (args : pyval)
    : M unit :=
  print ("Команда: " ++ name) ;;;
  print ("Описание: " ++ py_str w description) ;;;
  if py_truthy args then
    print "Аргументы:" ;;;
    items <- lift (py_items args) ;;
    iter_M (fun '(arg, details) => print_help_argument w arg details) items
  else ret tt.

(** One section of [command_list]. *)
Definition command_list_section (w : World) (section : pyval) : M unit :=
  if py_truthy section then
    items <- lift (py_items section) ;;
    iter_M (fun '(name, details) =>
              description <- lift (py_get details "description" (VStr "")) ;;
              print (tab ++ "- " ++ py_str w name ++ ": " ++ py_str w description))
           items
  else print (tab ++ "Пусто").

(** [Escripts.command_list]. *)
Definition command_list (w : World) (self : Escripts) : M unit :=
  print "Скрипты:" ;;;
  scripts <- lift (py_get (data self) "scripts" (VDict [])) ;;
  command_list_section w scripts ;;;
  print "Алиасы:" ;;;
  aliases <- lift (py_get (data self) "aliases" (VDict [])) ;;
  command_list_section w aliases.

(** [env[k] = v] on a copy of [os.environ]. *)
Fixpoint env_set (env : list (string * string)) (k v : string) : list (string * string) :=
  match env with
  | [] => [(k, v)]
  | (k', v') :: env' =>
      if String.eqb k' k then (k', v) :: env' else (k', v') :: env_set env' k v
  end.

Definition env_get (env : list (string * string)) (k default : string) : string :=
  match find (fun kv => String.eqb (fst kv) k) env with
  | Some kv => snd kv
  | None => default
  end.

(** [Escripts.run_script]. *)
Definition run_script (w : World) (self : Escripts) (data : pyval)
    (args : list (string * pyval)) : M unit :=
  script_rel_path <- lift (py_get data "path" VNone) ;;
  if negb (py_truthy script_rel_path) then
    raise (ValueError "Путь к скрипту не указан в конфигурации")
  else
    script_path <- match script_rel_path with
                   | VStr rel => ret (path_join w (namespace self) rel)
                   | _ => raise (TypeError ("unsupported operand type(s) for /: 'PosixPath' and '"
                                           ++ type_name script_rel_path ++ "'"))
                   end ;;
    if negb (path_exists w script_path) then
      raise (FileNotFoundError ("Файл '" ++ path_absolute w script_path ++ "' не существует"))
    else if negb (path_is_file w script_path) then
      raise (ValueError ("'" ++ path_absolute w script_path ++ "' не является файлом"))
    else
      let python_executable := env_get (environ w) "ESCRIPTS_PYTHON" (sys_executable w) in
      let cmd := python_executable :: path_absolute w script_path
                 :: flat_map (fun '(key, value) => ["--" ++ key; py_str w value]) args in
      let env := env_set (environ w) "PYTHONPATH" (path_absolute w (namespace self)) in
      try_except (subprocess_run_checked w (SpawnArgv cmd env))
        (fun e => match e with
                  | CalledProcessError _ _ =>
                      Some (logging_error "Ошибка при выполнении скрипта: %s" [LExn e] ;;;
                            raise e)
                  | _ => None
                  end).

(** [Escripts.run_alias]. *)
Definition run_alias (w : World) (self : Escripts) (data : pyval)
    (args : list (string * pyval)) : M unit :=
  command_template <- lift (py_get data "command" VNone) ;;
  if negb (py_truthy command_template) then
    raise (ValueError "Команда не указана для алиаса")
  else
    command_to_run <-
      try_except (lift (py_format w command_template args))
        (fun e => match e with
                  | KeyError k =>
                      Some (raise (ValueError
                                     ("Отсутствует аргумент для формирования команды: "
                                      ++ repr_of_str w k)))
                  | _ => None
                  end) ;;
    try_except (subprocess_run_checked w (SpawnShell command_to_run (namespace self)))
      (fun e => match e with
                | CalledProcessError _ _ =>
                    Some (logging_error "Ошибка при выполнении алиаса: %s" [LExn e] ;;;
                          raise e)
                | _ => None
                end).

(** The body of the loop of [process_command] that declares one argument. *)
Definition declare_argument (w : World) (p : parser) (arg arg_details : pyval)
    : result parser :=
  let? has_type := py_in "type" arg_details in
  let? arg_type :=
    if has_type then
      let? t := py_getitem arg_details "type" in
      Ok (if key_is "int" t then TypeInt
          else if key_is "float" t then TypeFloat
          else TypeStr)
    else Ok TypeStr in
  let? description := py_get arg_details "description" (VStr "") in
  let? has_default := py_in "default" arg_details in
  if has_default then
    let? d := py_getitem arg_details "default" in
    add_argument p ("--" ++ py_str w arg) arg_type description (Some d) false
  else
    add_argument p ("--" ++ py_str w arg) arg_type description None true.

Fixpoint declare_arguments (w : World) (p : parser) (items : list (pyval * pyval))
    : result parser :=
  match items with
  | [] => Ok p
  | (arg, arg_details) :: items' =>
      let? p' := declare_argument w p arg arg_details in
      declare_arguments w p' items'
  end.

(** [Escripts.process_command]. *)
Definition process_command (w : World) (self : Escripts) (type_command name : string)
    (data : pyval) (argv : list string) : M unit :=
  details <- lift (py_get data name VNone) ;;
  args_config <- lift (py_get details "args" (VDict [])) ;;
  if existsb (String.eqb "--help") argv then
    description <- lift (py_get details "description" (VStr "")) ;;
    print_help w name description args_config
  else
    items <- lift (py_items args_config) ;;
    parser <- lift (declare_arguments w [] items) ;;
    parsed_args <-
      try_except (r <- parse_known_args w parser argv ;; ret (Some (fst r)))
        (fun e => if is_Exception e
                  then Some (logging_error "Ошибка при разборе аргументов: %s" [LExn e] ;;;
                             ret None)
                  else None) ;;
    match parsed_args with
    | None => ret tt
    | Some parsed_args =>
        let command_args := vars parsed_args in
        try_except
          (if String.eqb type_command "scripts" then run_script w self details command_args
           else if String.eqb type_command "aliases" then run_alias w self details command_args
           else raise (ValueError ("Неизвестный тип команды: " ++ type_command)))
          (fun e => if is_Exception e
                    then Some (logging_error "Ошибка при выполнении команды '%s': %s"
                                 [LStr name; LExn e])
                    else None)
    end.

(** [Escripts.run], [sys.argv] being given. *)
Definition run (w : World) (self : Escripts) (sys_argv : list string) : M unit :=
  match sys_argv with
  | [] | [_] => print_usage
  | _ :: command :: argv =>
      if String.eqb command "--list" then command_list w self
      else
        scripts <- lift (py_get (data self) "scripts" (VDict [])) ;;
        in_scripts <- lift (py_in command scripts) ;;
        if in_scripts then
          scripts <- lift (py_get (data self) "scripts" (VDict [])) ;;
          process_command w self "scripts" command scripts argv
        else
          aliases <- lift (py_get (data self) "aliases" (VDict [])) ;;
          in_aliases <- lift (py_in command aliases) ;;
          if in_aliases then
            aliases <- lift (py_get (data self) "aliases" (VDict [])) ;;
            process_command w self "aliases" command aliases argv
          else
            print "Неизвестная команда. Воспользуйтесь `--list` для просмотра доступных команд."
  end.

(** [main]: [sys.exit(1)] in the handler raises [SystemExit]. *)
Definition main (w : World) (sys_argv : list string) : M unit :=
  try_except (es <- __init__ w None ;; run w es sys_argv)
    (fun e => if is_Exception e
              then Some (logging_error "Ошибка: %s" [LExn e] ;;; raise (SystemExit 1))
              else None).

(** The exit status of the process that runs [main] as its program. *)
Definition exit_status (m : M unit) : Z :=
  match outcome m with
  | Ok _ => 0
  | Raise (SystemExit code) => code
  | Raise _ => 1
  end.

(* ================================================================= *)
(** ** Vocabulary of the statements *)

(** The lines [print_help] writes for the declared parameters: the name, the
    default when there is one, the description. *)
Definition help_line (w : World) (arg : pyval) (details : list (pyval * pyval)) : string :=
  let description :=
    match dict_lookup details "description" with
    | Some d => py_str w d
    | None => ""
    end in
  match dict_lookup details "default" with
  | None | Some VNone => tab ++ "--" ++ py_str w arg ++ " - " ++ description
  | Some d =>
      tab ++ "--" ++ py_str w arg ++ " [default: " ++ py_str w d ++ "] - " ++ description
  end.

(** A parameter schema whose entries are mappings, with the lines of its
    entries. *)
Fixpoint help_lines (w : World) (schema : list (pyval * pyval)) : option (list string) :=
  match schema with
  | [] => Some []
  | (arg, VDict details) :: schema' =>
      option_map (cons (help_line w arg details)) (help_lines w schema')
  | _ => None
  end.

(** An alias template made of plain text and [{name}] placeholders. *)
Inductive piece : Type :=
| Text (s : string)
| Placeholder (name : string).

Definition piece_text (p : piece) : string :=
  match p with
  | Text s => s
  | Placeholder name => "{" ++ name ++ "}"
  end.

Fixpoint template_text (t : list piece) : string :=
  match t with
  | [] => ""
  | p :: t' => piece_text p ++ template_text t'
  end.

Definition is_brace (c : ascii) : bool := Ascii.eqb c "{"%char || Ascii.eqb c "}"%char.

(** Characters that end the name of a replacement field or start a lookup
    inside the value. *)
Definition is_field_markup (c : ascii) : bool :=
  is_brace c || Ascii.eqb c "["%char || Ascii.eqb c "."%char
  || Ascii.eqb c "!"%char || Ascii.eqb c ":"%char.

Definition plain_name (w : World) (name : string) : bool :=
  all_chars (fun c => negb (is_field_markup c)) name && negb (is_positional_field w name).

Definition plain_piece (w : World) (p : piece) : bool :=
  match p with
  | Text s => all_chars (fun c => negb (is_brace c)) s
  | Placeholder name => plain_name w name
  end.

(** The first placeholder without a bound value, if any. *)
Fixpoint first_unbound (t : list piece) (args : list (string * pyval)) : option string :=
  match t with
  | [] => None
  | Text _ :: t' => first_unbound t' args
  | Placeholder name :: t' =>
      match lookup_kwarg args name with
      | Some _ => first_unbound t' args
      | None => Some name
      end
  end.

(** The template with each placeholder replaced by its bound value. *)
Fixpoint substitute (w : World) (t : list piece) (args : list (string * pyval)) : string :=
  match t with
  | [] => ""
  | Text s :: t' => s ++ substitute w t' args
  | Placeholder name :: t' =>
      match lookup_kwarg args name with
      | Some v => py_str w v ++ substitute w t' args
      | None => substitute w t' args
      end
  end.

(** The claim of the specification about alias templates, read literally:
    whatever the names of the placeholders are, a template whose text has
    no brace and whose placeholders all have a bound value is formatted by
    substituting the values. *)
Definition is_plain_text (p : piece) : bool :=
  match p with
  | Text s => all_chars (fun c => negb (is_brace c)) s
  | Placeholder _ => true
  end.

Definition substitutes_bound_placeholders (w : World) : Prop :=
  forall template args,
    forallb is_plain_text template = true ->
    first_unbound template args = None ->
    py_format w (VStr (template_text template)) args = Ok (substitute w template args).

(** The state in which the scan of the tokens starts. *)
Definition initial_state (p : parser) : parse_state :=
  {| st_namespace := initial_namespace p 0 []; st_seen := []; st_extras := [] |}.

(** The command resolver on its own: what [run] decides to do with the
    process arguments, before doing it. *)
Inductive resolution : Type :=
| Usage
| Listing
| Command (type_command name : string) (section : pyval) (argv : list string)
| Unknown.

Definition resolve (self : Escripts) (sys_argv : list string) : result resolution :=
  match sys_argv with
  | [] | [_] => Ok Usage
  | _ :: command :: argv =>
      if String.eqb command "--list" then Ok Listing
      else
        let? scripts := py_get (data self) "scripts" (VDict []) in
        let? in_scripts := py_in command scripts in
        if in_scripts then Ok (Command "scripts" command scripts argv)
        else
          let? aliases := py_get (data self) "aliases" (VDict []) in
          let? in_aliases := py_in command aliases in
          if in_aliases then Ok (Command "aliases" command aliases argv)
          else Ok Unknown
  end.

(** The message for a name that is neither a script nor an alias. *)
Definition unknown_command_message : string :=
  "Неизвестная команда. Воспользуйтесь `--list` для просмотра доступных команд.".

Definition dispatch (w : World) (self : Escripts) (r : resolution) : M unit :=
  match r with
  | Usage => print_usage
  | Listing => command_list w self
  | Command type_command name section argv =>
      process_command w self type_command name section argv
  | Unknown => print unknown_command_message
  end.

(** The definition has no entry under [key]: the key is absent or its value
    is null. *)
Definition lacks (definition : list (pyval * pyval)) (key : string) : Prop :=
  dict_lookup definition key = None \/ dict_lookup definition key = Some VNone.

(** A destination [argparse] cannot use as any other: the namespace has an
    attribute of that name from its class, so that no default is stored
    under it, or [parse_known_args] takes the attribute for its own
    ([_unrecognized_args]). *)
Definition reserved_attribute (d : string) : bool :=
  existsb (String.eqb d) ("_unrecognized_args" :: namespace_class_attributes).













(* ================================================================= *)
(** ** Sample worlds and configurations *)

(** A world whose file system has the directories [dirs] and the regular
    files [files], where reading any configuration file gives [config] and
    children exit with status 0. *)
Definition world_with (dirs files : list string) (config : yaml_outcome) : World := {|
  default_namespace := "/ws";
  path_exists := fun p => existsb (String.eqb p) dirs || existsb (String.eqb p) files;
  path_is_dir := fun p => existsb (String.eqb p) dirs;
  path_is_file := fun p => existsb (String.eqb p) files;
  path_absolute := fun p => p;
  path_join := fun a b => a ++ "/" ++ b;
  yaml_safe_load := fun _ => config;
  environ := [];
  sys_executable := "/usr/bin/python3";
  subprocess_run := fun _ => Exited 0;
  float_of_str := fun _ => None;
  int_of_str_other := fun _ => None;
  repr_of_str_other := fun s => s;
  negative_number_other := fun _ => false;
  usage_wrap_fails := fun _ => false;
  same_str_object := fun s _ _ => Nat.leb (String.length s) 1;
  decimal_name_other := fun _ => false;
  format_positional_failure := fun _ => ValueError "Too many decimal digits in format string";
  format_render_other := fun _ _ _ _ _ => Raise (ValueError "Invalid format specifier");
|}.

(** The workspace [/ws] with its [config.yml], a sub-directory [/ws/dir] and
    a script [/ws/build.py]. *)
Definition sample_world (config : yaml_outcome) : World :=
  world_with ["/ws"; "/ws/dir"] ["/ws/config.yml"; "/ws/build.py"] config.

(** The schema [{count: {type: int, default: 1}}]. *)
Definition count_entry : list (pyval * pyval) :=
  [(VStr "count", VDict [(VStr "type", VStr "int"); (VStr "default", VInt 1)])].

Definition count_schema : pyval := VDict count_entry.

(** [aliases: {say: {command: "echo {count}", args: {count: {type: int,
    default: 1}}}}] *)
Definition sample_config : pyval :=
  VDict [(VStr "aliases",
          VDict [(VStr "say",
                  VDict [(VStr "command", VStr "echo {count}");
                         (VStr "args", count_schema)])])].

(** [scripts: {--list: {description: shadowed, path: build.py}}] and
    [aliases: {say: {command: "echo hi"}}]. *)
Definition list_named_config : list (pyval * pyval) :=
  [(VStr "scripts",
    VDict [(VStr "--list",
            VDict [(VStr "description", VStr "shadowed"); (VStr "path", VStr "build.py")])]);
   (VStr "aliases", VDict [(VStr "say", VDict [(VStr "command", VStr "echo hi")])])].

(** [scripts: {go: {path: build.py}}] and
    [aliases: {go: {command: "echo alias"}}]. *)
Definition shadowing_config : list (pyval * pyval) :=
  [(VStr "scripts", VDict [(VStr "go", VDict [(VStr "path", VStr "build.py")])]);
   (VStr "aliases", VDict [(VStr "go", VDict [(VStr "command", VStr "echo alias")])])].


(** The parser declared for [{count: {type: int, default: 1}}] and the one
    for [{name: {}}], whose parameter is required. *)
Definition count_action : action :=
  {| option_string := "--count"; dest := "count"; type_ := TypeInt;
     default := VInt 1; required := false; help := VStr "" |}.

Definition count_parser : parser := [count_action].

Definition name_action : action :=
  {| option_string := "--name"; dest := "name"; type_ := TypeStr;
     default := VNone; required := true; help := VStr "" |}.

Definition name_parser : parser := [name_action].

(** [aliases: {greet: {command: "echo {msg}", args: {msg: {description:
    "text"}}}}]: the parameter [msg] has no default. *)
Definition required_config : pyval :=
  VDict [(VStr "aliases",
          VDict [(VStr "greet",
                  VDict [(VStr "command", VStr "echo {msg}");
                         (VStr "args",
                          VDict [(VStr "msg",
                                  VDict [(VStr "description", VStr "text")])])])])].

(* ================================================================= *)
(** ** Vocabulary of the further properties *)

Definition is_print (ev : event) : bool :=
  match ev with EPrint _ => true | _ => false end.

(** The computation writes lines on the standard output and does nothing
    else: it logs nothing and starts no child. *)
Definition prints_only {A} (m : M A) : Prop := forallb is_print (trace m) = true.

(** Every exception the computation can end with satisfies [P]. *)
Definition raises_in {A} (P : exn -> Prop) (m : M A) : Prop :=
  forall e, outcome m = Raise e -> P e.

(** The number of children the events started. *)
Definition spawns (t : list event) : nat := length (filter is_spawn t).

(** What the world raises on its own account (a child that cannot be
    started, a file that cannot be read, the parts of [str.format] left to
    it) derives from [Exception]. *)
Definition raises_exceptions (w : World) : Prop :=
  (forall s e, subprocess_run w s = NotStarted e -> is_Exception e = true)
  /\ (forall path e, yaml_safe_load w path = YamlUnreadable e -> is_Exception e = true)
  /\ (forall name, is_Exception (format_positional_failure w name) = true)
  /\ (forall kwargs v rest conv spec e,
         format_render_other w kwargs v rest conv spec = Raise e -> is_Exception e = true).

(** The name under which [argparse] stores the value of the option declared
    for the schema key [arg]: the option string [--arg] without its leading
    dashes, the other dashes turned into underscores. *)
Definition destination (w : World) (arg : pyval) : string :=
  replace_char "-"%char "_"%char (lstrip_char "-"%char ("--" ++ py_str w arg)).

(** The exception is one [main] lets the process end with: an [Exception]
    in the middle of the run, or the [SystemExit(2)] of [argparse]. *)
Definition exception_or_usage (e : exn) : Prop :=
  is_Exception e = true \/ e = SystemExit 2.

(** A pure operation that, when it fails, raises an [Exception]. *)
Definition raises_exception {A} (r : result A) : Prop :=
  match r with
  | Ok _ => True
  | Raise e => is_Exception e = true
  end.

(** The lines [command_list] writes for a section whose definitions are
    mappings; an empty section is marked as such. *)
Definition listing_line (w : World) (name : pyval) (details : list (pyval * pyval)) : string :=
  tab ++ "- " ++ py_str w name ++ ": "
  ++ match dict_lookup details "description" with
     | Some d => py_str w d
     | None => ""
     end.

Fixpoint listing_lines (w : World) (section : list (pyval * pyval)) : option (list string) :=
  match section with
  | [] => Some []
  | (name, VDict details) :: section' =>
      option_map (cons (listing_line w name details)) (listing_lines w section')
  | _ => None
  end.

Definition section_lines (w : World) (section : list (pyval * pyval)) : option (list string) :=
  match section with
  | [] => Some [tab ++ "Пусто"]
  | _ => listing_lines w section
  end.

(** The request [run_script] hands to [subprocess.run] for the script at
    [rel]: interpreter, script and one [--key value] pair per bound argument;
    the environment of the process with [PYTHONPATH] set to the workspace. *)
Definition script_request (w : World) (self : Escripts) (rel : string)
    (args : list (string * pyval)) : spawn :=
  SpawnArgv
    (env_get (environ w) "ESCRIPTS_PYTHON" (sys_executable w)
     :: path_absolute w (path_join w (namespace self) rel)
     :: flat_map (fun '(key, value) => ["--" ++ key; py_str w value]) args)
    (env_set (environ w) "PYTHONPATH" (path_absolute w (namespace self))).

(** The handler of the last [try] of [process_command]: an [Exception] is
    logged with the name of the command, and the method returns. *)
Definition log_command_failure (name : string) (e : exn) : option (M unit) :=
  if is_Exception e
  then Some (logging_error "Ошибка при выполнении команды '%s': %s" [LStr name; LExn e])
  else None.

(** The executor [process_command] calls for a type of command. *)
Definition executor (w : World) (self : Escripts) (type_command : string)
    (details : pyval) (command_args : list (string * pyval)) : M unit :=
  if String.eqb type_command "scripts" then run_script w self details command_args
  else if String.eqb type_command "aliases" then run_alias w self details command_args
  else raise (ValueError ("Неизвестный тип команды: " ++ type_command)).

(** The sample world with the environment [env] and children that exit with
    [code]. *)
Definition child_world (env : list (string * string)) (code : Z) : World := {|
  default_namespace := "/ws";
  path_exists := path_exists (sample_world (YamlLoaded sample_config));
  path_is_dir := path_is_dir (sample_world (YamlLoaded sample_config));
  path_is_file := path_is_file (sample_world (YamlLoaded sample_config));
  path_absolute := fun p => p;
  path_join := fun a b => a ++ "/" ++ b;
  yaml_safe_load := fun _ => YamlLoaded sample_config;
  environ := env;
  sys_executable := "/usr/bin/python3";
  subprocess_run := fun _ => Exited code;
  float_of_str := fun _ => None;
  int_of_str_other := fun _ => None;
  repr_of_str_other := fun s => s;
  negative_number_other := fun _ => false;
  usage_wrap_fails := fun _ => false;
  same_str_object := fun s _ _ => Nat.leb (String.length s) 1;
  decimal_name_other := fun _ => false;
  format_positional_failure := fun _ => ValueError "Too many decimal digits in format string";
  format_render_other := fun _ _ _ _ _ => Raise (ValueError "Invalid format specifier");
|}.

(** [scripts: {build: {description: Builds, path: build.py}}], without
    aliases. *)
Definition build_config : list (pyval * pyval) :=
  [(VStr "scripts",
    VDict [(VStr "build",
            VDict [(VStr "description", VStr "Builds"); (VStr "path", VStr "build.py")])])].

(* ================================================================= *)
(** ** Config loader *)

(** C7. [_load_config] fails with [FileNotFoundError] (NotFoundError) when
    the workspace or the configuration file in it does not exist, with
    [NotADirectoryError] or the "is not a file" [ValueError]
    (InvalidPathError) when the workspace exists but is not a directory or the
    configuration path exists but is not a regular file, with the "parse
    error" [ValueError] (ParseError) when the YAML parser rejects the
    document, with the "configuration is empty" [ValueError]
    (EmptyConfigError) when the parser yields [None]; otherwise it returns
    the parsed value unchanged.  No event is performed in any case. *)
Theorem load_config_outcomes (w : World) (ns : string) :
  let config_path := path_join w ns "config.yml" in
  (path_exists w ns = false ->
   _load_config w ns
   = raise (FileNotFoundError ("Папка '" ++ path_absolute w ns ++ "' не существует")))
  /\ (path_exists w ns = true -> path_is_dir w ns = false ->
      _load_config w ns
      = raise (NotADirectoryError ("'" ++ path_absolute w ns ++ "' не является папкой")))
  /\ (path_exists w ns = true -> path_is_dir w ns = true ->
      path_exists w config_path = false ->
      _load_config w ns
      = raise (FileNotFoundError
                 ("Файл конфигурации '" ++ path_absolute w config_path ++ "' не найден")))
  /\ (path_exists w ns = true -> path_is_dir w ns = true ->
      path_exists w config_path = true -> path_is_file w config_path = false ->
      _load_config w ns
      = raise (ValueError ("'" ++ path_absolute w config_path ++ "' не является файлом")))
  /\ (forall msg,
      path_exists w ns = true -> path_is_dir w ns = true ->
      path_exists w config_path = true -> path_is_file w config_path = true ->
      yaml_safe_load w config_path = YamlInvalid msg ->
      _load_config w ns = raise (ValueError ("Ошибка разбора конфигурации: " ++ msg)))
  /\ (path_exists w ns = true -> path_is_dir w ns = true ->
      path_exists w config_path = true -> path_is_file w config_path = true ->
      yaml_safe_load w config_path = YamlLoaded VNone ->
      _load_config w ns = raise (ValueError "Конфигурация пуста"))
  /\ (forall config,
      path_exists w ns = true -> path_is_dir w ns = true ->
      path_exists w config_path = true -> path_is_file w config_path = true ->
      yaml_safe_load w config_path = YamlLoaded config -> config <> VNone ->
      _load_config w ns = ret config).
Proof.
  intro config_path; subst config_path; unfold _load_config.
  repeat split; intros;
    repeat match goal with
           | H : _ = _ :> bool |- _ => rewrite H; clear H
           | H : yaml_safe_load _ _ = _ |- _ => rewrite H; clear H
           end; cbn; try reflexivity.
  destruct config; try reflexivity; congruence.
Qed.

Lemma load_config_outcomes_witness :
  _load_config (world_with [] [] (YamlLoaded VNone)) "/ws"
  = raise (FileNotFoundError "Папка '/ws' не существует")
  /\ _load_config (world_with [] ["/ws"] (YamlLoaded VNone)) "/ws"
     = raise (NotADirectoryError "'/ws' не является папкой")
  /\ _load_config (world_with ["/ws"] [] (YamlLoaded VNone)) "/ws"
     = raise (FileNotFoundError "Файл конфигурации '/ws/config.yml' не найден")
  /\ _load_config (world_with ["/ws"; "/ws/config.yml"] [] (YamlLoaded VNone)) "/ws"
     = raise (ValueError "'/ws/config.yml' не является файлом")
  /\ _load_config (sample_world (YamlInvalid "line 1")) "/ws"
     = raise (ValueError "Ошибка разбора конфигурации: line 1")
  /\ _load_config (sample_world (YamlLoaded VNone)) "/ws"
     = raise (ValueError "Конфигурация пуста")
  /\ _load_config (sample_world (YamlLoaded sample_config)) "/ws" = ret sample_config.
Proof.
  split; [apply (load_config_outcomes (world_with [] [] (YamlLoaded VNone)) "/ws");
           reflexivity|].
  split; [apply (load_config_outcomes (world_with [] ["/ws"] (YamlLoaded VNone)) "/ws");
           reflexivity|].
  split; [apply (load_config_outcomes (world_with ["/ws"] [] (YamlLoaded VNone)) "/ws");
           reflexivity|].
  split; [apply (load_config_outcomes
                   (world_with ["/ws"; "/ws/config.yml"] [] (YamlLoaded VNone)) "/ws");
           reflexivity|].
  split; [apply (load_config_outcomes (sample_world (YamlInvalid "line 1")) "/ws");
           reflexivity|].
  split; [apply (load_config_outcomes (sample_world (YamlLoaded VNone)) "/ws");
           reflexivity|].
  apply (load_config_outcomes (sample_world (YamlLoaded sample_config)) "/ws");
    solve [reflexivity | discriminate].
Defined.

(* ================================================================= *)
(** ** Script executor *)

(** C6. [run_script] fails with the "path is not given" [ValueError]
    (MissingPathError) when the definition has no [path] (absent or null);
    with
    [FileNotFoundError] (NotFoundError) when the path joined to the workspace
    does not exist; with the "is not a file" [ValueError] (InvalidPathError)
    when it exists but is not a regular file.  In each case the computation
    performs no event at all, so nothing was spawned. *)
Theorem run_script_failures (w : World) (self : Escripts) (definition : list (pyval * pyval))
    (args : list (string * pyval)) :
  (lacks definition "path" ->
   run_script w self (VDict definition) args
   = raise (ValueError "Путь к скрипту не указан в конфигурации"))
  /\ (forall rel,
      dict_lookup definition "path" = Some (VStr rel) -> rel <> "" ->
      path_exists w (path_join w (namespace self) rel) = false ->
      run_script w self (VDict definition) args
      = raise (FileNotFoundError
                 ("Файл '" ++ path_absolute w (path_join w (namespace self) rel)
                  ++ "' не существует")))
  /\ (forall rel,
      dict_lookup definition "path" = Some (VStr rel) -> rel <> "" ->
      path_exists w (path_join w (namespace self) rel) = true ->
      path_is_file w (path_join w (namespace self) rel) = false ->
      run_script w self (VDict definition) args
      = raise (ValueError
                 ("'" ++ path_absolute w (path_join w (namespace self) rel)
                  ++ "' не является файлом")))
  /\ (lacks definition "path"
      \/ (exists rel, dict_lookup definition "path" = Some (VStr rel) /\ rel <> ""
                      /\ (path_exists w (path_join w (namespace self) rel) = false
                          \/ path_is_file w (path_join w (namespace self) rel) = false)) ->
      no_spawn (trace (run_script w self (VDict definition) args))).
Proof.
  assert (truthy : forall rel, rel <> "" -> py_truthy (VStr rel) = true).
  { intros rel H; cbn. destruct (String.eqb_spec rel ""); [contradiction | reflexivity]. }
  assert (A : lacks definition "path" ->
              run_script w self (VDict definition) args
              = raise (ValueError "Путь к скрипту не указан в конфигурации")).
  { intros [H | H]; unfold run_script; cbn; rewrite H; reflexivity. }
  assert (B : forall rel,
      dict_lookup definition "path" = Some (VStr rel) -> rel <> "" ->
      path_exists w (path_join w (namespace self) rel) = false ->
      run_script w self (VDict definition) args
      = raise (FileNotFoundError
                 ("Файл '" ++ path_absolute w (path_join w (namespace self) rel)
                  ++ "' не существует"))).
  { intros rel H Hrel He. unfold run_script; cbn -[py_truthy]. rewrite H; cbn -[py_truthy].
    rewrite (truthy rel Hrel); cbn. rewrite He; reflexivity. }
  assert (C : forall rel,
      dict_lookup definition "path" = Some (VStr rel) -> rel <> "" ->
      path_exists w (path_join w (namespace self) rel) = true ->
      path_is_file w (path_join w (namespace self) rel) = false ->
      run_script w self (VDict definition) args
      = raise (ValueError
                 ("'" ++ path_absolute w (path_join w (namespace self) rel)
                  ++ "' не является файлом"))).
  { intros rel H Hrel He Hf. unfold run_script; cbn -[py_truthy]. rewrite H; cbn -[py_truthy].
    rewrite (truthy rel Hrel); cbn. rewrite He, Hf; reflexivity. }
  split; [exact A|]. split; [exact B|]. split; [exact C|].
  intros [H | (rel & H & Hrel & [He | Hf])].
  - rewrite (A H); reflexivity.
  - rewrite (B rel H Hrel He); reflexivity.
  - destruct (path_exists w (path_join w (namespace self) rel)) eqn:He.
    + rewrite (C rel H Hrel He Hf); reflexivity.
    + rewrite (B rel H Hrel He); reflexivity.
Qed.

Lemma run_script_failures_witness :
  let self := {| namespace := "/ws"; data := VDict [] |} in
  let w := sample_world (YamlLoaded VNone) in
  run_script w self (VDict [(VStr "description", VStr "Builds")]) []
  = raise (ValueError "Путь к скрипту не указан в конфигурации")
  /\ run_script w self (VDict [(VStr "path", VStr "missing.py")]) []
     = raise (FileNotFoundError "Файл '/ws/missing.py' не существует")
  /\ run_script w self (VDict [(VStr "path", VStr "dir")]) []
     = raise (ValueError "'/ws/dir' не является файлом")
  /\ no_spawn (trace (run_script w self (VDict [(VStr "path", VStr "dir")]) [])).
Proof.
  intros self w.
  split; [apply (run_script_failures w self [(VStr "description", VStr "Builds")] []);
           left; reflexivity|].
  split; [apply (run_script_failures w self [(VStr "path", VStr "missing.py")] []
                   ) with (rel := "missing.py"); solve [reflexivity | discriminate]|].
  split; [apply (run_script_failures w self [(VStr "path", VStr "dir")] []
                   ) with (rel := "dir"); solve [reflexivity | discriminate]|].
  apply (run_script_failures w self [(VStr "path", VStr "dir")] []).
  right; exists "dir"; repeat split; [discriminate | right; reflexivity].
Defined.

(* ================================================================= *)
(** ** Command resolver *)

Lemma bind_lift_ok {A B} (r : result A) (a : A) (k : A -> M B) :
  r = Ok a -> bind (lift r) k = k a.
Proof.
  intros ->. unfold bind, lift. destruct (k a) as [t r']. reflexivity.
Qed.

Lemma bind_print {B} (line : string) (k : unit -> M B) :
  bind (print line) k = (EPrint line :: trace (k tt), outcome (k tt)).
Proof.
  unfold bind, print, emit. destruct (k tt) as [t r]. reflexivity.
Qed.

(** [run] does what the resolver decided. *)
Lemma run_dispatches (w : World) (self : Escripts) (sys_argv : list string) :
  run w self sys_argv = bind (lift (resolve self sys_argv)) (dispatch w self).
Proof.
  destruct sys_argv as [| prog [| command argv]]; try reflexivity.
  unfold run, resolve.
  destruct (String.eqb command "--list").
  { symmetry. exact (bind_lift_ok (Ok Listing) Listing (dispatch w self) eq_refl). }
  destruct (py_get (data self) "scripts" (VDict [])) as [scripts | e]; [|reflexivity].
  cbn [rbind]. rewrite (bind_lift_ok (Ok scripts) scripts _ eq_refl).
  destruct (py_in command scripts) as [[|] | e]; [| |reflexivity]; cbn [rbind].
  { rewrite (bind_lift_ok (Ok true) true _ eq_refl).
    rewrite (bind_lift_ok (Ok scripts) scripts _ eq_refl).
    symmetry. exact (bind_lift_ok _ _ (dispatch w self) eq_refl). }
  rewrite (bind_lift_ok (Ok false) false _ eq_refl).
  destruct (py_get (data self) "aliases" (VDict [])) as [aliases | e]; [|reflexivity].
  cbn [rbind]. rewrite (bind_lift_ok (Ok aliases) aliases _ eq_refl).
  destruct (py_in command aliases) as [[|] | e]; [| |reflexivity]; cbn [rbind].
  { rewrite (bind_lift_ok (Ok true) true _ eq_refl).
    rewrite (bind_lift_ok (Ok aliases) aliases _ eq_refl).
    symmetry. exact (bind_lift_ok _ _ (dispatch w self) eq_refl). }
  rewrite (bind_lift_ok (Ok false) false _ eq_refl).
  symmetry. exact (bind_lift_ok _ _ (dispatch w self) eq_refl).
Qed.

(** C10. When the first argument is [--list], [run] is [command_list],
    whatever the configuration holds; [run] does what [resolve] decides, and
    whenever [resolve] selects a definition of the configuration, its name
    is not [--list]: a script or an alias with that name cannot be
    reached. *)
Theorem list_flag_runs_listing (w : World) (self : Escripts) :
  (forall prog argv, run w self (prog :: "--list" :: argv) = command_list w self)
  /\ (forall sys_argv,
         run w self sys_argv = bind (lift (resolve self sys_argv)) (dispatch w self))
  /\ (forall sys_argv type_command name section argv,
         resolve self sys_argv = Ok (Command type_command name section argv) ->
         name <> "--list").
Proof.
  split; [reflexivity|]. split; [apply run_dispatches|].
  intros sys_argv type_command name section argv.
  destruct sys_argv as [| prog [| command rest]]; cbn -[String.eqb]; try discriminate.
  destruct (String.eqb_spec command "--list") as [E | Hne]; [discriminate|].
  destruct (py_get (data self) "scripts" (VDict [])) as [scripts | e]; cbn; [|discriminate].
  destruct (py_in command scripts) as [[|] | e]; cbn; try discriminate.
  - intros H. injection H as _ <- _ _. exact Hne.
  - destruct (py_get (data self) "aliases" (VDict [])) as [aliases | e]; cbn;
      [|discriminate].
    destruct (py_in command aliases) as [[|] | e]; cbn; try discriminate.
    intros H. injection H as _ <- _ _. exact Hne.
Qed.

Lemma list_flag_runs_listing_witness :
  let self := {| namespace := "/ws"; data := VDict list_named_config |} in
  let w := sample_world (YamlLoaded (VDict list_named_config)) in
  run w self ["escripts"; "--list"]
  = ([EPrint "Скрипты:"; EPrint (tab ++ "- --list: shadowed");
      EPrint "Алиасы:"; EPrint (tab ++ "- say: ")],
     Ok tt)
  /\ "say" <> "--list".
Proof.
  intros self w. split.
  - rewrite (proj1 (list_flag_runs_listing w self) "escripts" []). reflexivity.
  - apply (proj2 (proj2 (list_flag_runs_listing w self)) ["escripts"; "say"; "x"]
             "aliases" "say"
             (VDict [(VStr "say", VDict [(VStr "command", VStr "echo hi")])]) ["x"]).
    reflexivity.
Defined.

(** A name found in [scripts] is processed as a script. *)
Lemma run_script_section (w : World) (self : Escripts) (prog command : string)
    (argv : list string) (config scripts : list (pyval * pyval)) (definition : pyval) :
  data self = VDict config ->
  command <> "--list" ->
  dict_lookup config "scripts" = Some (VDict scripts) ->
  dict_lookup scripts command = Some definition ->
  run w self (prog :: command :: argv)
  = process_command w self "scripts" command (VDict scripts) argv.
Proof.
  intros Hdata Hlist Hs Hd. unfold run.
  destruct (String.eqb_spec command "--list") as [E | _]; [contradiction|].
  rewrite Hdata.
  rewrite (bind_lift_ok _ (VDict scripts)) by (cbn; rewrite Hs; reflexivity).
  rewrite (bind_lift_ok _ true) by (cbn; rewrite Hd; reflexivity).
  rewrite (bind_lift_ok _ (VDict scripts)) by (cbn; rewrite Hs; reflexivity).
  reflexivity.
Qed.

(** C2. A command name present both in [scripts] and in [aliases] is
    resolved in [scripts]: [run] processes it as a script, with the
    definition the [scripts] section gives it. *)
Theorem scripts_shadow_aliases (w : World) (self : Escripts) (prog command : string)
    (argv : list string) (config scripts aliases : list (pyval * pyval))
    (script_definition alias_definition : pyval) :
  data self = VDict config ->
  command <> "--list" ->
  dict_lookup config "scripts" = Some (VDict scripts) ->
  dict_lookup config "aliases" = Some (VDict aliases) ->
  dict_lookup scripts command = Some script_definition ->
  dict_lookup aliases command = Some alias_definition ->
  run w self (prog :: command :: argv)
  = process_command w self "scripts" command (VDict scripts) argv
  /\ py_get (VDict scripts) command VNone = Ok script_definition.
Proof.
  intros Hdata Hlist Hs Ha Hd _. split.
  - eapply run_script_section; eassumption.
  - cbn. rewrite Hd. reflexivity.
Qed.

Lemma scripts_shadow_aliases_witness :
  let w := sample_world (YamlLoaded (VDict shadowing_config)) in
  let self := {| namespace := "/ws"; data := VDict shadowing_config |} in
  run w self ["escripts"; "go"]
  = process_command w self "scripts" "go"
      (VDict [(VStr "go", VDict [(VStr "path", VStr "build.py")])]) []
  /\ py_get (VDict [(VStr "go", VDict [(VStr "path", VStr "build.py")])]) "go" VNone
     = Ok (VDict [(VStr "path", VStr "build.py")]).
Proof.
  intros w self.
  apply (scripts_shadow_aliases w self "escripts" "go" [] shadowing_config
           [(VStr "go", VDict [(VStr "path", VStr "build.py")])]
           [(VStr "go", VDict [(VStr "command", VStr "echo alias")])]
           (VDict [(VStr "path", VStr "build.py")])
           (VDict [(VStr "command", VStr "echo alias")]));
    solve [reflexivity | discriminate].
Defined.

(** C9. When the configuration loads and the first argument is a command
    name (not [--list]) that neither the [scripts] nor the [aliases] section
    contains, [main] prints the message that points to [--list], performs
    nothing else, and ends normally: the exit status is 0. *)
Theorem unknown_command_exits_0 (w : World) (prog command : string) (argv : list string)
    (config scripts aliases : pyval) :
  _load_config w (default_namespace w) = ret config ->
  command <> "--list" ->
  py_get config "scripts" (VDict []) = Ok scripts ->
  py_in command scripts = Ok false ->
  py_get config "aliases" (VDict []) = Ok aliases ->
  py_in command aliases = Ok false ->
  main w (prog :: command :: argv) = ([EPrint unknown_command_message], Ok tt)
  /\ exit_status (main w (prog :: command :: argv)) = 0%Z.
Proof.
  intros Hload Hlist Hs Hins Ha Hina.
  assert (E : main w (prog :: command :: argv) = ([EPrint unknown_command_message], Ok tt)).
  { unfold main, __init__. rewrite Hload. cbn -[String.eqb].
    destruct (String.eqb_spec command "--list") as [E | _]; [contradiction|].
    rewrite Hs; cbn. rewrite Hins; cbn. rewrite Ha; cbn. rewrite Hina; cbn.
    reflexivity. }
  split; [exact E | rewrite E; reflexivity].
Qed.

Lemma unknown_command_exits_0_witness :
  let w := sample_world (YamlLoaded sample_config) in
  main w ["escripts"; "nope"; "--x"] = ([EPrint unknown_command_message], Ok tt)
  /\ exit_status (main w ["escripts"; "nope"; "--x"]) = 0%Z.
Proof.
  intros w.
  apply (unknown_command_exits_0 w "escripts" "nope" ["--x"] sample_config (VDict [])
           (VDict [(VStr "say",
                    VDict [(VStr "command", VStr "echo {count}");
                           (VStr "args", count_schema)])]));
    solve [reflexivity | discriminate].
Defined.

(* ================================================================= *)
(** ** Per-command help *)

Lemma print_help_arguments_lines (w : World) (schema : list (pyval * pyval))
    (lines : list string) :
  help_lines w schema = Some lines ->
  iter_M (fun '(arg, details) => print_help_argument w arg details) schema
  = (map EPrint lines, Ok tt).
Proof.
  revert lines. induction schema as [| [arg details] schema IH]; intros lines H.
  - injection H as <-. reflexivity.
  - cbn in H. destruct details; try discriminate.
    destruct (help_lines w schema) as [rest|]; [|discriminate].
    injection H as <-. cbn [iter_M]. rewrite (IH rest eq_refl).
    unfold print_help_argument, help_line. cbn.
    destruct (dict_lookup d "description"); cbn;
      destruct (dict_lookup d "default") as [[]|]; reflexivity.
Qed.

Lemma existsb_help (argv : list string) :
  In "--help" argv -> existsb (String.eqb "--help") argv = true.
Proof.
  intros H. apply existsb_exists. exists "--help". split; [exact H | reflexivity].
Qed.

(** C3. For a command whose definition is a mapping with a parameter schema
    of mappings (or without [args]), a token [--help] anywhere among the
    remaining tokens makes [process_command] print the name, the description
    and one line per declared parameter (with the default when there is
    one), and return; these prints are all it does, so nothing is parsed and
    no child process is started, whatever the other tokens are. *)
Theorem help_prints_and_returns (w : World) (self : Escripts) (type_command name : string)
    (section definition schema : list (pyval * pyval)) (argv lines : list string) :
  dict_lookup section name = Some (VDict definition) ->
  py_get (VDict definition) "args" (VDict []) = Ok (VDict schema) ->
  help_lines w schema = Some lines ->
  In "--help" argv ->
  let description :=
    match dict_lookup definition "description" with
    | Some d => py_str w d
    | None => ""
    end in
  process_command w self type_command name (VDict section) argv
  = (map EPrint
       (("Команда: " ++ name) :: ("Описание: " ++ description)
        :: match schema with [] => [] | _ => "Аргументы:" :: lines end),
     Ok tt)
  /\ no_spawn (trace (process_command w self type_command name (VDict section) argv)).
Proof.
  intros Hdef Hargs Hlines Hhelp description.
  assert (E : process_command w self type_command name (VDict section) argv
              = (map EPrint
                   (("Команда: " ++ name) :: ("Описание: " ++ description)
                    :: match schema with [] => [] | _ => "Аргументы:" :: lines end),
                 Ok tt)).
  { unfold process_command.
    rewrite (bind_lift_ok _ (VDict definition)) by (cbn; rewrite Hdef; reflexivity).
    rewrite (bind_lift_ok _ (VDict schema)) by exact Hargs.
    rewrite (existsb_help argv Hhelp).
    rewrite (bind_lift_ok _ (match dict_lookup definition "description" with
                             | Some d => d
                             | None => VStr ""
                             end))
      by (cbn; destruct (dict_lookup definition "description"); reflexivity).
    cbv beta. unfold print_help.
    assert (D : py_str w match dict_lookup definition "description" with
                         | Some d => d
                         | None => VStr ""
                         end = description).
    { subst description. destruct (dict_lookup definition "description"); reflexivity. }
    rewrite D. destruct schema as [| entry schema'] eqn:Es.
    - reflexivity.
    - cbv beta iota delta [py_truthy].
      rewrite (bind_lift_ok _ (entry :: schema')) by reflexivity.
      rewrite (print_help_arguments_lines w _ lines Hlines). reflexivity. }
  split; [exact E|]. rewrite E. unfold no_spawn, trace; cbn [fst].
  apply forallb_forall. intros ev Hin. apply in_map_iff in Hin.
  destruct Hin as (line & <- & _). reflexivity.
Qed.

Lemma help_prints_and_returns_witness :
  let w := sample_world (YamlLoaded sample_config) in
  let self := {| namespace := "/ws"; data := sample_config |} in
  let section :=
    [(VStr "say",
      VDict [(VStr "command", VStr "echo {count}"); (VStr "args", count_schema)])] in
  process_command w self "aliases" "say" (VDict section) ["--count"; "abc"; "--help"]
  = ([EPrint "Команда: say"; EPrint "Описание: "; EPrint "Аргументы:";
      EPrint (tab ++ "--count [default: 1] - ")],
     Ok tt)
  /\ no_spawn (trace (process_command w self "aliases" "say" (VDict section)
                        ["--count"; "abc"; "--help"])).
Proof.
  intros w self section.
  apply (help_prints_and_returns w self "aliases" "say" section
           [(VStr "command", VStr "echo {count}"); (VStr "args", count_schema)]
           [(VStr "count", VDict [(VStr "type", VStr "int"); (VStr "default", VInt 1)])]
           ["--count"; "abc"; "--help"]
           [tab ++ "--count [default: 1] - "]).
  - reflexivity.
  - reflexivity.
  - reflexivity.
  - cbn; tauto.
Defined.

(* ================================================================= *)
(** ** Alias executor *)

Section Format.
Variable w : World.
Variable kwargs : list (string * pyval).

Lemma format_text (s rest : string) :
  all_chars (fun c => negb (is_brace c)) s = true ->
  format_from w kwargs FLiteral (s ++ rest)
  = let? out := format_from w kwargs FLiteral rest in Ok (s ++ out).
Proof.
  induction s as [| c s IH]; intros H.
  - cbn. destruct (format_from w kwargs FLiteral rest); reflexivity.
  - cbn in H. apply andb_prop in H as [Hc Hs]. unfold is_brace in Hc.
    apply negb_true_iff, orb_false_elim in Hc as [Ho Hcl].
    cbn [append format_from]. rewrite Ho, Hcl, (IH Hs).
    destruct (format_from w kwargs FLiteral rest); reflexivity.
Qed.

Lemma field_markup_cases (c : ascii) :
  negb (is_field_markup c) = true ->
  Ascii.eqb c "{" = false /\ Ascii.eqb c "}" = false /\ Ascii.eqb c "[" = false
  /\ Ascii.eqb c "." = false /\ Ascii.eqb c "!" = false /\ Ascii.eqb c ":" = false.
Proof.
  unfold is_field_markup, is_brace. intros H. apply negb_true_iff in H.
  repeat (apply orb_false_elim in H as [H ?]). auto 10.
Qed.

Lemma snoc_append (pre : string) (c : ascii) (s : string) :
  snoc pre c ++ s = pre ++ String c s.
Proof.
  unfold snoc. induction pre as [| d pre IH]; cbn; [reflexivity | now rewrite IH].
Qed.

Lemma append_empty (s : string) : s ++ "" = s.
Proof.
  induction s as [| c s IH]; cbn; [reflexivity | now rewrite IH].
Qed.

Lemma append_assoc (a b c : string) : (a ++ b) ++ c = a ++ b ++ c.
Proof.
  induction a as [| d a IH]; cbn; [reflexivity | now rewrite IH].
Qed.

Lemma format_name (name pre rest : string) :
  all_chars (fun c => negb (is_field_markup c)) name = true ->
  format_from w kwargs (FName pre false) (name ++ String "}" rest)
  = let? text := render_field w kwargs (pre ++ name) None "" in
    let? out := format_from w kwargs FLiteral rest in Ok (text ++ out).
Proof.
  revert pre. induction name as [| c name IH]; intros pre H.
  - cbn. rewrite append_empty. reflexivity.
  - cbn in H. apply andb_prop in H as [Hc Hs].
    destruct (field_markup_cases c Hc) as (H1 & H2 & H3 & H4 & H5 & H6).
    cbn [append format_from]. rewrite H1, H2, H3, H5, H6.
    rewrite (IH (snoc pre c) Hs), snoc_append. reflexivity.
Qed.

Lemma field_first_plain (name : string) :
  all_chars (fun c => negb (is_field_markup c)) name = true ->
  field_first name = (name, "").
Proof.
  induction name as [| c name IH]; intros H; [reflexivity|].
  cbn in H. apply andb_prop in H as [Hc Hs].
  destruct (field_markup_cases c Hc) as (_ & _ & H3 & H4 & _).
  cbn. rewrite H3, H4, (IH Hs). reflexivity.
Qed.

Lemma render_plain_name (name : string) :
  plain_name w name = true ->
  render_field w kwargs name None ""
  = match lookup_kwarg kwargs name with
    | Some v => Ok (py_str w v)
    | None => Raise (KeyError name)
    end.
Proof.
  unfold plain_name. intros H. apply andb_prop in H as [Hc Hp].
  apply negb_true_iff in Hp. unfold render_field.
  rewrite (field_first_plain name Hc), Hp. reflexivity.
Qed.

Lemma plain_name_first (name : string) :
  plain_name w name = true ->
  exists c name', name = String c name' /\ Ascii.eqb c "{" = false.
Proof.
  destruct name as [| c name'].
  - unfold plain_name, is_positional_field. cbn. discriminate.
  - intros H. exists c, name'. split; [reflexivity|].
    unfold plain_name in H. cbn in H. apply andb_prop in H as [H _].
    apply andb_prop in H as [H _]. now destruct (field_markup_cases c H).
Qed.

(** A template of plain text and plain placeholders is formatted by
    substitution, unless a placeholder has no value: the first such
    placeholder is the key of the [KeyError]. *)
Lemma format_template (t : list piece) :
  forallb (plain_piece w) t = true ->
  format_from w kwargs FLiteral (template_text t)
  = match first_unbound t kwargs with
    | Some name => Raise (KeyError name)
    | None => Ok (substitute w t kwargs)
    end.
Proof.
  induction t as [| [s | name] t IH]; intros H; [reflexivity | |];
    cbn in H; apply andb_prop in H as [Hp Ht]; specialize (IH Ht).
  - cbn [template_text piece_text first_unbound substitute].
    rewrite (format_text s _ Hp), IH.
    destruct (first_unbound t kwargs); reflexivity.
  - destruct (plain_name_first name Hp) as (c & name' & -> & Hc).
    assert (T : template_text (Placeholder (String c name') :: t)
                = String "{" (String c name' ++ String "}" (template_text t))).
    { cbn [template_text piece_text]. rewrite !append_assoc. reflexivity. }
    assert (E : forall s', format_from w kwargs FOpen (String c s')
                           = format_from w kwargs (FName "" false) (String c s')).
    { intros s'. cbn [format_from]. rewrite Hc. reflexivity. }
    rewrite T. cbn [format_from]. change (Ascii.eqb "{" "{") with true; cbv iota.
    change (String c name' ++ String "}" (template_text t))
      with (String c (name' ++ String "}" (template_text t))).
    rewrite E.
    change (String c (name' ++ String "}" (template_text t)))
      with (String c name' ++ String "}" (template_text t)).
    unfold plain_name in Hp. apply andb_prop in Hp as [Hn Hpos].
    rewrite (format_name _ "" _ Hn). cbn [append first_unbound substitute].
    rewrite render_plain_name by (unfold plain_name; now rewrite Hn, Hpos).
    destruct (lookup_kwarg kwargs (String c name')); [|reflexivity].
    cbn [rbind]. rewrite IH. destruct (first_unbound t kwargs); reflexivity.
Qed.
End Format.

(** C5, as amended.  [run_alias] on a definition without [command] (absent
    or null) fails with the "command is not given" [ValueError]
    (MissingCommandError).  On a definition whose [command] is a non-empty
    template of text without braces and of [{name}] placeholders with plain
    names (a plain name is not empty, is not a number, and has none of the
    characters [. [ ! :] nor a brace, which [str.format] reads as markup):
    when every placeholder has a bound value the template is
    formatted by substituting the values, and the formatted string is what
    is handed to the shell; when some placeholder has none, [run_alias]
    fails with the "argument is missing" [ValueError] (MissingArgumentError)
    whose message names the first such placeholder, and performs no event,
    so nothing is spawned. *)
Theorem alias_template_formatting (w : World) (self : Escripts)
    (definition : list (pyval * pyval)) (template : list piece)
    (args : list (string * pyval)) :
  forallb (plain_piece w) template = true ->
  (lacks definition "command" ->
   run_alias w self (VDict definition) args
   = raise (ValueError "Команда не указана для алиаса"))
  /\ (dict_lookup definition "command" = Some (VStr (template_text template)) ->
      template_text template <> "" ->
      match first_unbound template args with
      | Some name =>
          run_alias w self (VDict definition) args
          = raise (ValueError ("Отсутствует аргумент для формирования команды: "
                               ++ repr_of_str w name))
      | None =>
          py_format w (VStr (template_text template)) args
          = Ok (substitute w template args)
          /\ exists t r,
               run_alias w self (VDict definition) args
               = (ESpawn (SpawnShell (substitute w template args) (namespace self)) :: t, r)
      end).
Proof.
  intros Hplain. split.
  - intros [H | H]; unfold run_alias; cbn; rewrite H; reflexivity.
  - intros H Hne.
    assert (T : py_truthy (VStr (template_text template)) = true).
    { cbn. destruct (String.eqb_spec (template_text template) ""); [contradiction|reflexivity]. }
    pose proof (format_template w args template Hplain) as F.
    unfold run_alias.
    rewrite (bind_lift_ok _ (VStr (template_text template)))
      by (cbn; rewrite H; reflexivity).
    rewrite T. cbv beta iota delta [negb py_format].
    destruct (first_unbound template args) as [name|]; rewrite F.
    + reflexivity.
    + split; [reflexivity|]. cbn.
      destruct (subprocess_run w _) as [[| code | code] | e]; cbn;
        try (eexists; eexists; reflexivity).
      destruct e; cbn; eexists; eexists; reflexivity.
Qed.

Lemma alias_template_formatting_witness :
  let w := sample_world (YamlLoaded VNone) in
  let self := {| namespace := "/ws"; data := VDict [] |} in
  run_alias w self (VDict [(VStr "description", VStr "no command")]) []
  = raise (ValueError "Команда не указана для алиаса")
  /\ run_alias w self (VDict [(VStr "command", VStr "echo {msg}")]) []
     = raise (ValueError "Отсутствует аргумент для формирования команды: 'msg'")
  /\ py_format w (VStr "echo {msg}") [("msg", VStr "hi")] = Ok "echo hi"
  /\ exists t r,
       run_alias w self (VDict [(VStr "command", VStr "echo {msg}")]) [("msg", VStr "hi")]
       = (ESpawn (SpawnShell "echo hi" "/ws") :: t, r).
Proof.
  intros w self.
  split; [apply (alias_template_formatting w self
                   [(VStr "description", VStr "no command")] [] []);
           solve [reflexivity | left; reflexivity]|].
  split; [apply (alias_template_formatting w self
                   [(VStr "command", VStr "echo {msg}")]
                   [Text "echo "; Placeholder "msg"] []);
           solve [reflexivity | discriminate]|].
  apply (alias_template_formatting w self
           [(VStr "command", VStr "echo {msg}")]
           [Text "echo "; Placeholder "msg"] [("msg", VStr "hi")]);
    solve [reflexivity | discriminate].
Defined.

(** Counterexample to C5 as stated: a placeholder whose name is not plain
    is not replaced by the value bound to that name.  With the parameter
    [1] bound, [{1}] is read as a positional field and [run_alias] fails
    with [IndexError]; with the parameter [a.b] bound, [{a.b}] is read as an
    attribute of [a], and the failure names [a], which is not the
    placeholder.  In both runs every placeholder has a bound value. *)
Lemma placeholder_names_matter :
  let w := sample_world (YamlLoaded VNone) in
  let self := {| namespace := "/ws"; data := VDict [] |} in
  ~ substitutes_bound_placeholders w
  /\ first_unbound [Text "echo "; Placeholder "1"] [("1", VStr "hi")] = None
  /\ run_alias w self (VDict [(VStr "command", VStr "echo {1}")]) [("1", VStr "hi")]
     = raise (IndexError "Replacement index 1 out of range for positional args tuple")
  /\ first_unbound [Text "echo "; Placeholder "a.b"] [("a.b", VStr "hi")] = None
  /\ run_alias w self (VDict [(VStr "command", VStr "echo {a.b}")]) [("a.b", VStr "hi")]
     = raise (ValueError "Отсутствует аргумент для формирования команды: 'a'").
Proof.
  intros w self. split; [|repeat split].
  intros H.
  specialize (H [Text "echo "; Placeholder "1"] [("1", VStr "hi")] eq_refl eq_refl).
  discriminate H.
Qed.

(* ================================================================= *)
(** ** Argument binding *)

Section Namespace.



Lemma ns_get_del_other (n : Namespace) (k d : string) :
  k <> d -> ns_get (ns_del n k) d = ns_get n d.
Proof.
  intros Hne. induction n as [| [k' y] n IH]; cbn; [reflexivity|].
  destruct (String.eqb_spec k' k) as [-> | Hk]; cbn.
  - destruct (String.eqb_spec k d); [contradiction | reflexivity].
  - destruct (String.eqb_spec k' d); [reflexivity | exact IH].
Qed.

Lemma ns_setattr_ok (n n' : Namespace) (k : string) (x : pyval * option nat) :
  ns_setattr n k x = Ok n' -> n' = ns_set n k x.
Proof.
  unfold ns_setattr.
  destruct (String.eqb k "__class__"); [discriminate|].
  destruct (String.eqb k "__dict__"); [discriminate|].
  destruct (String.eqb k "__weakref__"); [discriminate|].
  intros H. now injection H as <-.
Qed.


(** For a name that is not reserved, [hasattr] looks at the attributes of
    the object only. *)
Lemma ns_hasattr_free (n : Namespace) (k : string) :
  reserved_attribute k = false ->
  ns_hasattr n k = match ns_get n k with Some _ => true | None => false end.
Proof.
  unfold reserved_attribute, ns_hasattr. cbn [existsb]. intros H.
  apply orb_false_elim in H as [_ H]. rewrite H. reflexivity.
Qed.



End Namespace.

Section Classification.
Variable w : World.

Lemma find_option_nth (p : parser) (s : string) (k j : nat) (b : action) :
  find_option p s k = Some (j, b) -> k <= j /\ nth_error p (j - k) = Some b.
Proof.
  revert k. induction p as [| a p IH]; intros k H; cbn in H; [discriminate|].
  destruct (String.eqb (option_string a) s).
  - injection H as <- <-. rewrite Nat.sub_diag. split; [lia | reflexivity].
  - apply IH in H as [Hle Hnth]. split; [lia|].
    replace (j - k) with (S (j - S k)) by lia. exact Hnth.
Qed.

Lemma prefix_matches_nth (p : parser) (pre : string) (e0 : option string) (k : nat)
    (t : option_tuple) :
  In t (prefix_matches p pre e0 k) ->
  k <= fst (fst (fst t)) /\ nth_error p (fst (fst (fst t)) - k) = Some (snd (fst (fst t))).
Proof.
  revert k. induction p as [| a p IH]; intros k H; cbn in H; [contradiction|].
  assert (R : In t (prefix_matches p pre e0 (S k)) ->
              k <= fst (fst (fst t))
              /\ nth_error (a :: p) (fst (fst (fst t)) - k) = Some (snd (fst (fst t)))).
  { intros H'. apply IH in H' as [Hle Hnth]. split; [lia|].
    replace (fst (fst (fst t)) - k) with (S (fst (fst (fst t)) - S k)) by lia.
    exact Hnth. }
  destruct (startswith (option_string a) pre); [|auto].
  destruct H as [<- | H]; [|auto].
  cbn. rewrite Nat.sub_diag. split; [lia | reflexivity].
Qed.

Lemma short_matches_nth (p : parser) (arg short rest : string) (k : nat)
    (t : option_tuple) :
  In t (short_matches p arg short rest k) ->
  k <= fst (fst (fst t)) /\ nth_error p (fst (fst (fst t)) - k) = Some (snd (fst (fst t))).
Proof.
  revert k. induction p as [| a p IH]; intros k H; cbn in H; [contradiction|].
  assert (R : In t (short_matches p arg short rest (S k)) ->
              k <= fst (fst (fst t))
              /\ nth_error (a :: p) (fst (fst (fst t)) - k) = Some (snd (fst (fst t)))).
  { intros H'. apply IH in H' as [Hle Hnth]. split; [lia|].
    replace (fst (fst (fst t)) - k) with (S (fst (fst (fst t)) - S k)) by lia.
    exact Hnth. }
  destruct (String.eqb (option_string a) short).
  - destruct H as [<- | H]; [|auto].
    cbn. rewrite Nat.sub_diag. split; [lia | reflexivity].
  - destruct (startswith (option_string a) arg); [|auto].
    destruct H as [<- | H]; [|auto].
    cbn. rewrite Nat.sub_diag. split; [lia | reflexivity].
Qed.

Lemma get_option_tuples_nth (p : parser) (arg : string) (t : option_tuple) :
  In t (get_option_tuples p arg) ->
  nth_error p (fst (fst (fst t))) = Some (snd (fst (fst t))).
Proof.
  unfold get_option_tuples. destruct arg as [| c0 [| c1 rest]]; try contradiction.
  destruct (Ascii.eqb c1 "-").
  - destruct (split_first "=" _) as [[pre e]|]; intros H;
      apply prefix_matches_nth in H as [_ H]; now rewrite Nat.sub_0_r in H.
  - intros H. apply short_matches_nth in H as [_ H]. now rewrite Nat.sub_0_r in H.
Qed.

(** An option found by [_parse_optional] is one of the parser's actions,
    at the position it is reported with. *)
Lemma parse_optional_nth (p : parser) (token o : string) (j : nat) (b : action)
    (e : option string) :
  parse_optional w p token = Parsed (Optional (Some (j, b)) o e) ->
  nth_error p j = Some b.
Proof.
  unfold parse_optional. destruct token as [| c0 tail]; [discriminate|].
  destruct (negb (Ascii.eqb c0 "-")); [discriminate|].
  destruct (find_option p (String c0 tail) 0) as [[j' b']|] eqn:F.
  - intros H. injection H as <- <- _ _.
    apply find_option_nth in F as [_ F]. now rewrite Nat.sub_0_r in F.
  - destruct (String.eqb tail ""); [discriminate|].
    destruct (split_first "=" (String c0 tail)) as [[o' e']|].
    + destruct (find_option p o' 0) as [[j' b']|] eqn:F'.
      * intros H. injection H as <- <- _ _.
        apply find_option_nth in F' as [_ F']. now rewrite Nat.sub_0_r in F'.
      * destruct (get_option_tuples p (String c0 tail)) as [| t [| t' l]] eqn:G.
        -- destruct (negative_number_like w _); [discriminate|].
           destruct (has_char " " _); discriminate.
        -- destruct t as [[[j' b'] o''] e'']. cbn. intros H. injection H as <- <- _ _.
           apply (get_option_tuples_nth p (String c0 tail) ((j', b'), o'', e'')).
           rewrite G. now left.
        -- discriminate.
    + destruct (get_option_tuples p (String c0 tail)) as [| t [| t' l]] eqn:G.
      * destruct (negative_number_like w _); [discriminate|].
        destruct (has_char " " _); discriminate.
      * destruct t as [[[j' b'] o''] e'']. cbn. intros H. injection H as <- <- _ _.
        apply (get_option_tuples_nth p (String c0 tail) ((j', b'), o'', e'')).
        rewrite G. now left.
      * discriminate.
Qed.

Lemma classify_In (p : parser) (args : list string) (L : list (string * pattern))
    (s o : string) (jb : nat * action) (e : option string) :
  classify w p args = Parsed L ->
  In (s, PatO (Some jb) o e) L ->
  In s args /\ parse_optional w p s = Parsed (Optional (Some jb) o e).
Proof.
  revert L. induction args as [| arg args IH]; intros L H Hin; cbn in H.
  - injection H as <-. contradiction.
  - destruct (String.eqb arg "--").
    + injection H as <-. destruct Hin as [Hin | Hin]; [discriminate|].
      apply in_map_iff in Hin as (x & Hx & _). discriminate.
    + destruct (parse_optional w p arg) as [c|] eqn:P; [|discriminate].
      destruct (classify w p args) as [l|]; [|discriminate].
      injection H as <-. destruct Hin as [Hin | Hin].
      * injection Hin as -> Hc. split; [now left|].
        destruct c; cbn in Hc; [discriminate|]. now injection Hc as -> -> ->.
      * destruct (IH l eq_refl Hin) as [H1 H2]. split; [now right | exact H2].
Qed.
End Classification.

Lemma list_ind2 {A} (P : list A -> Prop) :
  P [] -> (forall x, P [x]) -> (forall x y l, P l -> P (y :: l) -> P (x :: y :: l)) ->
  forall l, P l.
Proof.
  intros H0 H1 H2 l.
  enough (H : P l /\ forall x, P (x :: l)) by apply H.
  induction l as [| y l [IHl IHc]]; split; auto.
Qed.

Section Consume.
Variable w : World.

Lemma take_action_inv (st st' : parse_state) (j : nat) (b : action) (s : string) :
  take_action w st (j, b) s = Parsed st' ->
  exists v, get_values w b s = Parsed v
            /\ st_namespace st' = ns_set (st_namespace st) (dest b) (v, None)
            /\ st_seen st' = j :: st_seen st
            /\ st_extras st' = st_extras st.
Proof.
  unfold take_action. destruct (get_values w b s) as [v|]; [|discriminate].
  destruct (ns_setattr (st_namespace st) (dest b) (v, None)) as [n|] eqn:S;
    [|discriminate].
  apply ns_setattr_ok in S. intros H. injection H as <-. exists v. auto.
Qed.



End Consume.

Section Finalize.
Variable w : World.






End Finalize.




Section Binding.
Variable w : World.
Variable p : parser.

Lemma parse_args_inv (argv : list string) (n : Namespace) (extras : list string) :
  parse_args w p argv = Parsed (n, extras) ->
  exists L st,
    classify w p argv = Parsed L
    /\ consume w L (initial_state p) = Parsed st
    /\ finalize w p 0 (st_seen st) (st_namespace st) [] = Parsed (n, [])
    /\ extras = st_extras st.
Proof.
  unfold parse_args. fold (initial_state p).
  destruct (classify w p argv) as [L|]; [|discriminate].
  destruct (consume w L (initial_state p)) as [st|] eqn:C; [|discriminate].
  destruct (finalize w p 0 (st_seen st) (st_namespace st) []) as [[n' [| m miss]]|] eqn:F;
    cbv beta iota; try discriminate.
  intros H. injection H as <- <-. exists L, st. auto.
Qed.








End Binding.

Section Known.
Variable w : World.
Variable p : parser.

(** What [parse_known_args] returns is what [_parse_known_args] found, but
    for the attribute [_unrecognized_args]. *)
Lemma parse_known_inv (argv : list string) (n' : Namespace) (extras' : list pyval) :
  parse_known w p argv = Parsed (n', extras') ->
  exists n extras,
    parse_args w p argv = Parsed (n, extras)
    /\ (forall d, d <> "_unrecognized_args" -> ns_get n' d = ns_get n d)
    /\ (ns_get n "_unrecognized_args" = None -> n' = n /\ extras' = map VStr extras).
Proof.
  unfold parse_known. destruct (parse_args w p argv) as [[n extras]|]; [|discriminate].
  destruct (ns_get n "_unrecognized_args") as [[v origin]|] eqn:G.
  - destruct (py_iter v) as [more|]; [|discriminate].
    intros H. injection H as <- <-. exists n, extras. split; [reflexivity|]. split.
    + intros d Hd. apply ns_get_del_other. congruence.
    + intros E. congruence.
  - intros H. injection H as <- <-. exists n, extras. auto.
Qed.



End Known.


(** The sample parsers are those [process_command] declares for their
    schemas. *)
Lemma sample_parsers_declared (w : World) :
  declare_arguments w [] count_entry = Ok count_parser
  /\ declare_arguments w [] [(VStr "name", VDict [])] = Ok name_parser.
Proof.
  split; reflexivity.
Qed.





(** The conditions on the binding of a parameter are needed.  Two
    parameters with one destination share one binding: with [{a-b: {default: 1}, a_b: {default:
    2}}] and no token, [a_b] is bound to 1.  A parameter whose destination
    the namespace has from its class gets no binding from its default.  The
    value [--] after [=] binds the empty list, and an option after [--] is
    not read as an option. *)
Lemma binding_conditions_matter :
  let w := sample_world (YamlLoaded VNone) in
  (exists p,
      declare_arguments w [] [(VStr "a-b", VDict [(VStr "default", VInt 1)]);
                              (VStr "a_b", VDict [(VStr "default", VInt 2)])] = Ok p
      /\ option_map (fun r => vars (fst r))
           match parse_known w p [] with Parsed r => Some r | Failed _ => None end
         = Some [("a_b", VInt 1)])
  /\ (exists p,
         declare_arguments w [] [(VStr "_get_kwargs", VDict [(VStr "default", VInt 1)])]
         = Ok p
         /\ option_map (fun r => vars (fst r))
              match parse_known w p [] with Parsed r => Some r | Failed _ => None end
            = Some [])
  /\ option_map (fun r => vars (fst r))
       match parse_known w count_parser ["--count=--"] with
       | Parsed r => Some r
       | Failed _ => None
       end
     = Some [("count", VList [])]
  /\ option_map (fun r => vars (fst r))
       match parse_known w count_parser ["--"; "--count"; "5"] with
       | Parsed r => Some r
       | Failed _ => None
       end
     = Some [("count", VInt 1)].
Proof.
  intros w. split; [eexists; split; reflexivity|].
  split; [eexists; split; reflexivity|]. split; reflexivity.
Qed.

(* ================================================================= *)
(** ** Extra tokens *)

Section Extras.
Variable w : World.




End Extras.

Section ExtraTokens.
Variable w : World.
Variable p : parser.



End ExtraTokens.



(* ================================================================= *)
(** ** Binding failures *)

Lemma not_help (argv : list string) :
  ~ In "--help" argv -> existsb (String.eqb "--help") argv = false.
Proof.
  intros H. destruct (existsb (String.eqb "--help") argv) eqn:E; [|reflexivity].
  apply existsb_exists in E as (t & Hin & Ht). apply String.eqb_eq in Ht. now subst.
Qed.

(** When the tokens cannot be bound and the usage line can be formatted,
    [process_command] starts no child and logs nothing: the usage error of
    [argparse] goes to the standard error stream and [SystemExit(2)] leaves
    [process_command], whose handler is for [Exception] only. *)
Lemma binding_failure_leaves_process_command (w : World) (self : Escripts)
    (type_command name : string) (section definition schema : list (pyval * pyval))
    (p : parser) (argv : list string) (why : parse_failure) :
  dict_lookup section name = Some (VDict definition) ->
  py_get (VDict definition) "args" (VDict []) = Ok (VDict schema) ->
  ~ In "--help" argv ->
  declare_arguments w [] schema = Ok p ->
  parse_known w p argv = Failed why ->
  (forall e, why <> Uncaught e) ->
  usage_fails w p = false ->
  process_command w self type_command name (VDict section) argv
  = ([EUsageError why], Raise (SystemExit 2)).
Proof.
  intros Hdef Hargs Hhelp Hp Hfail Hwhy Husage. unfold process_command.
  rewrite (bind_lift_ok _ (VDict definition)) by (cbn; rewrite Hdef; reflexivity).
  rewrite (bind_lift_ok _ (VDict schema)) by exact Hargs.
  rewrite (not_help argv Hhelp).
  rewrite (bind_lift_ok _ schema) by reflexivity.
  rewrite (bind_lift_ok _ p) by exact Hp.
  unfold parse_known_args, parser_error. rewrite Hfail, Husage.
  destruct why; try reflexivity. exfalso. exact (Hwhy _ eq_refl).
Qed.

(** C1, on the code.  With [{count: {type: int, default: 1}}], the tokens
    [--count abc] make [main] end with exit status 2 after the usage error
    of [argparse]; so does omitting the required [--msg].  In both runs no
    child is started, but nothing is logged and the [SystemExit] reaches the
    top level of the process. *)
Theorem binding_failure_exits_with_status_2 :
  let w := sample_world (YamlLoaded sample_config) in
  let w' := sample_world (YamlLoaded required_config) in
  main w ["escripts"; "say"; "--count"; "abc"]
  = ([EUsageError (InvalidValue "--count" "abc")], Raise (SystemExit 2))
  /\ exit_status (main w ["escripts"; "say"; "--count"; "abc"]) = 2%Z
  /\ main w' ["escripts"; "greet"]
     = ([EUsageError (RequiredMissing ["--msg"])], Raise (SystemExit 2))
  /\ exit_status (main w' ["escripts"; "greet"]) = 2%Z
  /\ existsb is_log (trace (main w ["escripts"; "say"; "--count"; "abc"])) = false
  /\ existsb is_log (trace (main w' ["escripts"; "greet"])) = false
  /\ no_spawn (trace (main w ["escripts"; "say"; "--count"; "abc"]))
  /\ no_spawn (trace (main w' ["escripts"; "greet"])).
Proof.
  cbv zeta. repeat (split; [reflexivity|]). reflexivity.
Qed.

(* ================================================================= *)
(** ** Further properties: entry point and listing *)

Lemma bind_ok {A B} (m : M A) (k : A -> M B) (t : list event) (a : A) :
  m = (t, Ok a) -> bind m k = ((t ++ trace (k a))%list, outcome (k a)).
Proof.
  intros ->. unfold bind, trace, outcome. destruct (k a). reflexivity.
Qed.

Lemma bind_raise {A B} (m : M A) (k : A -> M B) (t : list event) (e : exn) :
  m = (t, Raise e) -> bind m k = (t, Raise e).
Proof.
  intros ->. reflexivity.
Qed.

(** X1. When loading the configuration fails with an exception, [main]
    logs it as "Ошибка: ..." and exits with status 1, whatever the process
    arguments are: not even the usage text or the listing is printed. *)
Theorem config_failure_exits_1 (w : World) (sys_argv : list string) (t : list event)
    (e : exn) :
  _load_config w (default_namespace w) = (t, Raise e) ->
  is_Exception e = true ->
  main w sys_argv = ((t ++ [ELogError "Ошибка: %s" [LExn e]])%list, Raise (SystemExit 1))
  /\ exit_status (main w sys_argv) = 1%Z.
Proof.
  intros Hload He.
  assert (E : main w sys_argv
              = ((t ++ [ELogError "Ошибка: %s" [LExn e]])%list, Raise (SystemExit 1))).
  { unfold main, __init__. rewrite (bind_raise _ _ t e Hload).
    rewrite (bind_raise _ _ t e eq_refl). unfold try_except. rewrite He. reflexivity. }
  split; [exact E | rewrite E; reflexivity].
Qed.

Lemma config_failure_exits_1_witness :
  let w := world_with [] [] (YamlLoaded sample_config) in
  main w ["escripts"; "--list"]
  = ([ELogError "Ошибка: %s" [LExn (FileNotFoundError "Папка '/ws' не существует")]],
     Raise (SystemExit 1))
  /\ exit_status (main w ["escripts"; "--list"]) = 1%Z.
Proof.
  intros w.
  apply (config_failure_exits_1 w ["escripts"; "--list"] []
           (FileNotFoundError "Папка '/ws' не существует")); reflexivity.
Defined.

(** X2. When the configuration loads, a run without a command prints the
    usage text and exits with status 0, whatever the configuration holds
    (it is not looked at). *)
Theorem no_command_prints_usage (w : World) (config : pyval) (sys_argv : list string) :
  _load_config w (default_namespace w) = ret config ->
  length sys_argv < 2 ->
  main w sys_argv = print_usage /\ exit_status (main w sys_argv) = 0%Z.
Proof.
  intros Hload Hlen.
  assert (E : main w sys_argv = print_usage).
  { unfold main, __init__. rewrite Hload.
    destruct sys_argv as [| prog [| command rest]]; [reflexivity | reflexivity |].
    cbn in Hlen. lia. }
  split; [exact E | rewrite E; reflexivity].
Qed.

Lemma no_command_prints_usage_witness :
  let w := sample_world (YamlLoaded (VList [VInt 1])) in
  main w ["escripts"] = print_usage /\ exit_status (main w ["escripts"]) = 0%Z.
Proof.
  intros w.
  apply (no_command_prints_usage w (VList [VInt 1]) ["escripts"]); [reflexivity | cbn; lia].
Defined.

Section PrintsOnly.
Lemma prints_only_bind {A B} (m : M A) (k : A -> M B) :
  prints_only m -> (forall a, prints_only (k a)) -> prints_only (bind m k).
Proof.
  unfold prints_only, trace. destruct m as [t [a | e]]; cbn; intros Hm Hk.
  - specialize (Hk a). destruct (k a) as [t' r]. cbn in *.
    rewrite forallb_app, Hm, Hk. reflexivity.
  - exact Hm.
Qed.

Lemma prints_only_lift {A} (r : result A) : prints_only (lift r).
Proof.
  reflexivity.
Qed.

Lemma prints_only_print (line : string) : prints_only (print line).
Proof.
  reflexivity.
Qed.

Lemma prints_only_iter {A} (f : A -> M unit) (l : list A) :
  (forall x, prints_only (f x)) -> prints_only (iter_M f l).
Proof.
  intros Hf. induction l as [| x l IH]; [reflexivity|].
  cbn [iter_M]. apply prints_only_bind; auto.
Qed.

Lemma prints_only_help_argument (w : World) (arg details : pyval) :
  prints_only (print_help_argument w arg details).
Proof.
  unfold print_help_argument.
  apply prints_only_bind; [apply prints_only_lift|]. intros arg_desc.
  apply prints_only_bind; [apply prints_only_lift|]. intros arg_default.
  destruct arg_default; apply prints_only_print.
Qed.

Lemma prints_only_print_help (w : World) (name : string) (description args : pyval) :
  prints_only (print_help w name description args).
Proof.
  unfold print_help.
  apply prints_only_bind; [apply prints_only_print|]. intros _.
  apply prints_only_bind; [apply prints_only_print|]. intros _.
  destruct (py_truthy args); [|reflexivity].
  apply prints_only_bind; [apply prints_only_print|]. intros _.
  apply prints_only_bind; [apply prints_only_lift|]. intros items.
  apply prints_only_iter. intros [arg details]. apply prints_only_help_argument.
Qed.

Lemma prints_only_section (w : World) (section : pyval) :
  prints_only (command_list_section w section).
Proof.
  unfold command_list_section. destruct (py_truthy section); [|apply prints_only_print].
  apply prints_only_bind; [apply prints_only_lift|]. intros items.
  apply prints_only_iter. intros [name details].
  apply prints_only_bind; [apply prints_only_lift|]. intros d. apply prints_only_print.
Qed.
End PrintsOnly.

(** X3. [command_list] writes lines on the standard output and does nothing
    else, whatever the configuration is, also when it fails on a malformed
    one: it logs nothing and starts no child.  Its first line is the heading
    of the scripts. *)
Theorem command_list_prints_only (w : World) (self : Escripts) :
  prints_only (command_list w self)
  /\ hd_error (trace (command_list w self)) = Some (EPrint "Скрипты:").
Proof.
  split.
  - unfold command_list.
    apply prints_only_bind; [apply prints_only_print|]. intros _.
    apply prints_only_bind; [apply prints_only_lift|]. intros scripts.
    apply prints_only_bind; [apply prints_only_section|]. intros _.
    apply prints_only_bind; [apply prints_only_print|]. intros _.
    apply prints_only_bind; [apply prints_only_lift|]. intros aliases.
    apply prints_only_section.
  - unfold command_list. rewrite bind_print. reflexivity.
Qed.

(** X4. With [--help] among the tokens [process_command] writes lines on the
    standard output and does nothing else, for every section and definition,
    well formed or not: no parser is built, nothing is logged, no child is
    started. *)
Theorem help_never_executes (w : World) (self : Escripts) (type_command name : string)
    (section : pyval) (argv : list string) :
  In "--help" argv ->
  prints_only (process_command w self type_command name section argv).
Proof.
  intros Hhelp. unfold process_command.
  apply prints_only_bind; [apply prints_only_lift|]. intros details.
  apply prints_only_bind; [apply prints_only_lift|]. intros args_config.
  rewrite (existsb_help argv Hhelp).
  apply prints_only_bind; [apply prints_only_lift|]. intros description.
  apply prints_only_print_help.
Qed.

Lemma help_never_executes_witness :
  prints_only
    (process_command (sample_world (YamlLoaded VNone))
       {| namespace := "/ws"; data := VNone |} "scripts" "build"
       (VDict [(VStr "build", VDict [(VStr "args", VList [VStr "count"])])])
       ["--help"]).
Proof.
  apply help_never_executes. cbn; tauto.
Defined.

Lemma listing_lines_printed (w : World) (section : list (pyval * pyval))
    (lines : list string) :
  listing_lines w section = Some lines ->
  iter_M (fun '(name, details) =>
            bind (lift (py_get details "description" (VStr "")))
                 (fun description =>
                    print (tab ++ "- " ++ py_str w name ++ ": " ++ py_str w description)))
         section
  = (map EPrint lines, Ok tt).
Proof.
  revert lines. induction section as [| [name details] section IH]; intros lines H.
  - injection H as <-. reflexivity.
  - cbn in H. destruct details; try discriminate.
    destruct (listing_lines w section) as [rest|]; [|discriminate].
    injection H as <-. cbn [iter_M]. rewrite (IH rest eq_refl).
    unfold listing_line. cbn. destruct (dict_lookup d "description"); reflexivity.
Qed.

Lemma section_lines_printed (w : World) (section : list (pyval * pyval))
    (lines : list string) :
  section_lines w section = Some lines ->
  command_list_section w (VDict section) = (map EPrint lines, Ok tt).
Proof.
  unfold command_list_section, section_lines. destruct section as [| entry section].
  - intros H. injection H as <-. reflexivity.
  - intros H. cbv beta iota delta [py_truthy].
    rewrite (bind_lift_ok _ (entry :: section)) by reflexivity.
    exact (listing_lines_printed w _ lines H).
Qed.

(** X5. For a configuration whose sections are mappings of mappings (a
    missing section counts as empty), [command_list] prints the heading of
    the scripts, one line per script in the order of the file, then the
    heading of the aliases and one line per alias; a section without entries
    gives the "empty" line. *)
Theorem command_list_lines (w : World) (self : Escripts)
    (config scripts aliases : list (pyval * pyval)) (script_lines alias_lines : list string) :
  data self = VDict config ->
  py_get (VDict config) "scripts" (VDict []) = Ok (VDict scripts) ->
  py_get (VDict config) "aliases" (VDict []) = Ok (VDict aliases) ->
  section_lines w scripts = Some script_lines ->
  section_lines w aliases = Some alias_lines ->
  command_list w self
  = (map EPrint ("Скрипты:" :: script_lines ++ "Алиасы:" :: alias_lines)%list, Ok tt).
Proof.
  intros Hdata Hs Ha Hsl Hal. unfold command_list. rewrite Hdata.
  rewrite bind_print.
  rewrite (bind_lift_ok _ (VDict scripts)) by exact Hs.
  rewrite (bind_ok _ _ _ tt (section_lines_printed w scripts script_lines Hsl)).
  rewrite bind_print.
  rewrite (bind_lift_ok _ (VDict aliases)) by exact Ha.
  rewrite (section_lines_printed w aliases alias_lines Hal).
  unfold trace, outcome. cbn [fst snd map]. rewrite map_app. reflexivity.
Qed.

Lemma command_list_lines_witness :
  command_list (sample_world (YamlLoaded (VDict build_config)))
    {| namespace := "/ws"; data := VDict build_config |}
  = ([EPrint "Скрипты:"; EPrint (tab ++ "- build: Builds");
      EPrint "Алиасы:"; EPrint (tab ++ "Пусто")],
     Ok tt).
Proof.
  apply (command_list_lines (sample_world (YamlLoaded (VDict build_config)))
           {| namespace := "/ws"; data := VDict build_config |} build_config
           [(VStr "build",
             VDict [(VStr "description", VStr "Builds"); (VStr "path", VStr "build.py")])]
           [] [tab ++ "- build: Builds"] [tab ++ "Пусто"]); reflexivity.
Defined.

(* ================================================================= *)
(** ** Further properties: commands without parameters *)

Section NoParameters.
Variable w : World.

Lemma parse_optional_no_options (token : string) :
  parse_optional w [] token = Parsed Positional
  \/ parse_optional w [] token = Parsed (Optional None token None).
Proof.
  unfold parse_optional. destruct token as [| c0 tail]; [now left|].
  destruct (negb (Ascii.eqb c0 "-")); [now left|]. cbn [find_option].
  destruct (String.eqb tail ""); [now left|].
  assert (G : get_option_tuples [] (String c0 tail) = []).
  { unfold get_option_tuples. destruct tail as [| c1 rest]; [reflexivity|].
    destruct (Ascii.eqb c1 "-"); [|reflexivity].
    destruct (split_first "=" _) as [[pre e]|]; reflexivity. }
  destruct (split_first "=" (String c0 tail)) as [[o e]|]; cbn [find_option]; rewrite G;
    destruct (negative_number_like w _); auto; destruct (has_char " " _); auto.
Qed.

Lemma classify_no_options (argv : list string) :
  exists L, classify w [] argv = Parsed L
            /\ map fst L = argv
            /\ Forall (fun x => forall ia o e, snd x <> PatO (Some ia) o e) L.
Proof.
  induction argv as [| t argv (L & HL & Hfst & Hall)].
  - exists []. auto.
  - cbn [classify]. destruct (String.eqb t "--").
    + exists ((t, PatDash) :: map (fun a => (a, PatA)) argv). split; [reflexivity|]. split.
      * cbn. rewrite map_map. cbn. now rewrite map_id.
      * constructor; [discriminate|]. apply Forall_forall. intros x Hx.
        apply in_map_iff in Hx as (a & <- & _). discriminate.
    + rewrite HL.
      destruct (parse_optional_no_options t) as [-> | ->]; eexists;
        (split; [reflexivity|]); (split; [cbn; now rewrite Hfst|]);
        constructor; cbn; try discriminate; exact Hall.
Qed.

Lemma consume_all_extras (L : list (string * pattern)) :
  Forall (fun x => forall ia o e, snd x <> PatO (Some ia) o e) L ->
  forall st,
    consume w L st
    = Parsed {| st_namespace := st_namespace st;
                st_seen := st_seen st;
                st_extras := (st_extras st ++ map fst L)%list |}.
Proof.
  induction 1 as [| [s pat] L Hx HL IH]; intros st.
  - cbn. rewrite app_nil_r. destruct st. reflexivity.
  - assert (E : consume w ((s, pat) :: L) st = consume w L (add_extra st s)).
    { destruct pat as [| | [ia|] o [e|]]; try reflexivity;
        exfalso; exact (Hx ia o _ eq_refl). }
    rewrite E, IH. cbn. now rewrite <- app_assoc.
Qed.

Lemma parse_without_options (argv : list string) :
  parse_args w [] argv = Parsed ([], argv).
Proof.
  unfold parse_args. destruct (classify_no_options argv) as (L & -> & Hfst & Hall).
  rewrite (consume_all_extras L Hall). cbn. now rewrite Hfst.
Qed.

Lemma parse_known_without_options (argv : list string) :
  parse_known w [] argv = Parsed ([], map VStr argv).
Proof.
  unfold parse_known. rewrite parse_without_options. reflexivity.
Qed.
End NoParameters.

(** After the tokens are parsed, [process_command] runs the executor of the
    type of command on the bindings, under its last handler. *)
Lemma process_command_executes (w : World) (self : Escripts) (type_command name : string)
    (section definition schema : list (pyval * pyval)) (p : parser) (argv : list string)
    (n : Namespace) (extras : list pyval) :
  dict_lookup section name = Some (VDict definition) ->
  py_get (VDict definition) "args" (VDict []) = Ok (VDict schema) ->
  ~ In "--help" argv ->
  declare_arguments w [] schema = Ok p ->
  parse_known w p argv = Parsed (n, extras) ->
  process_command w self type_command name (VDict section) argv
  = try_except (executor w self type_command (VDict definition) (vars n))
      (log_command_failure name).
Proof.
  intros Hdef Hargs Hhelp Hp Hparse. unfold process_command.
  rewrite (bind_lift_ok _ (VDict definition)) by (cbn; rewrite Hdef; reflexivity).
  rewrite (bind_lift_ok _ (VDict schema)) by exact Hargs.
  rewrite (not_help argv Hhelp).
  rewrite (bind_lift_ok _ schema) by reflexivity.
  rewrite (bind_lift_ok _ p) by exact Hp.
  unfold parse_known_args. rewrite Hparse.
  rewrite (bind_ok _ _ [] (Some n)) by reflexivity.
  cbv beta iota. cbn [app fst]. unfold executor, log_command_failure.
  destruct (try_except _ _) as [t r]. reflexivity.
Qed.

(** X6. A command declared without parameters accepts every list of tokens
    that has no [--help]: all of them go to the extras, nothing is bound, and
    the executor runs without arguments; what it performs and how it ends is
    what [process_command] does, except that an exception it raises is logged
    with the name of the command instead of being raised. *)
Theorem no_parameters_accepts_all (w : World) (self : Escripts) (type_command name : string)
    (section definition : list (pyval * pyval)) (argv : list string) :
  dict_lookup section name = Some (VDict definition) ->
  py_get (VDict definition) "args" (VDict []) = Ok (VDict []) ->
  ~ In "--help" argv ->
  parse_args w [] argv = Parsed ([], argv)
  /\ process_command w self type_command name (VDict section) argv
     = try_except (executor w self type_command (VDict definition) [])
         (log_command_failure name).
Proof.
  intros Hdef Hargs Hhelp. split; [apply parse_without_options|].
  exact (process_command_executes w self type_command name section definition [] []
           argv [] (map VStr argv) Hdef Hargs Hhelp eq_refl
           (parse_known_without_options w argv)).
Qed.

Lemma no_parameters_accepts_all_witness :
  let w := sample_world (YamlLoaded VNone) in
  let self := {| namespace := "/ws"; data := VNone |} in
  parse_args w [] ["--force"; "--"; "-x"; "now"] = Parsed ([], ["--force"; "--"; "-x"; "now"])
  /\ process_command w self "aliases" "hi"
       (VDict [(VStr "hi", VDict [(VStr "command", VStr "echo hi")])])
       ["--force"; "--"; "-x"; "now"]
     = try_except
         (executor w self "aliases" (VDict [(VStr "command", VStr "echo hi")]) [])
         (log_command_failure "hi").
Proof.
  intros w self.
  apply (no_parameters_accepts_all w self "aliases" "hi"
           [(VStr "hi", VDict [(VStr "command", VStr "echo hi")])]
           [(VStr "command", VStr "echo hi")] ["--force"; "--"; "-x"; "now"]);
    try reflexivity.
  cbn. intros [E | [E | [E | [E | []]]]]; discriminate E.
Defined.

(** X7. A definition whose [args] is null can show its help (the name and
    the description, without a list of arguments) but cannot be run: without
    [--help], [process_command] raises the [AttributeError] for [items] on
    [None] before it parses or starts anything, and does not log it. *)
Theorem null_args_help_only (w : World) (self : Escripts) (type_command name : string)
    (section definition : list (pyval * pyval)) (argv : list string) :
  dict_lookup section name = Some (VDict definition) ->
  dict_lookup definition "args" = Some VNone ->
  (In "--help" argv ->
   process_command w self type_command name (VDict section) argv
   = ([EPrint ("Команда: " ++ name);
       EPrint ("Описание: " ++ match dict_lookup definition "description" with
                                | Some d => py_str w d
                                | None => ""
                                end)],
      Ok tt))
  /\ (~ In "--help" argv ->
      process_command w self type_command name (VDict section) argv
      = raise (no_attribute VNone "items")).
Proof.
  intros Hdef Hargs. split; intros Hhelp; unfold process_command;
    rewrite (bind_lift_ok _ (VDict definition)) by (cbn; rewrite Hdef; reflexivity);
    rewrite (bind_lift_ok _ VNone) by (cbn; rewrite Hargs; reflexivity).
  - rewrite (existsb_help argv Hhelp). cbn.
    destruct (dict_lookup definition "description"); reflexivity.
  - rewrite (not_help argv Hhelp). reflexivity.
Qed.

Lemma null_args_help_only_witness :
  let w := sample_world (YamlLoaded VNone) in
  let self := {| namespace := "/ws"; data := VNone |} in
  let section := [(VStr "hi", VDict [(VStr "command", VStr "echo hi"); (VStr "args", VNone)])] in
  process_command w self "aliases" "hi" (VDict section) ["--help"]
  = ([EPrint "Команда: hi"; EPrint "Описание: "], Ok tt)
  /\ process_command w self "aliases" "hi" (VDict section) []
     = raise (AttributeError "'NoneType' object has no attribute 'items'").
Proof.
  intros w self section.
  destruct (null_args_help_only w self "aliases" "hi" section
              [(VStr "command", VStr "echo hi"); (VStr "args", VNone)] ["--help"]
              eq_refl eq_refl) as [H _].
  destruct (null_args_help_only w self "aliases" "hi" section
              [(VStr "command", VStr "echo hi"); (VStr "args", VNone)] []
              eq_refl eq_refl) as [_ H'].
  split; [apply H; cbn; tauto | apply H'; intros []].
Defined.

(* ================================================================= *)
(** ** Further properties: executors *)

Lemma script_path_checked (w : World) (self : Escripts) (definition : list (pyval * pyval))
    (args : list (string * pyval)) (rel : string) :
  dict_lookup definition "path" = Some (VStr rel) -> rel <> "" ->
  path_exists w (path_join w (namespace self) rel) = true ->
  path_is_file w (path_join w (namespace self) rel) = true ->
  run_script w self (VDict definition) args
  = try_except (subprocess_run_checked w (script_request w self rel args))
      (fun e => match e with
                | CalledProcessError _ _ =>
                    Some (bind (logging_error "Ошибка при выполнении скрипта: %s" [LExn e])
                            (fun _ => raise e))
                | _ => None
                end).
Proof.
  intros H Hrel He Hf. unfold run_script.
  rewrite (bind_lift_ok _ (VStr rel)) by (cbn; rewrite H; reflexivity).
  assert (T : py_truthy (VStr rel) = true).
  { cbn. destruct (String.eqb_spec rel ""); [contradiction | reflexivity]. }
  rewrite T. cbv beta iota delta [negb].
  rewrite (bind_ok _ _ [] (path_join w (namespace self) rel)) by reflexivity.
  cbv beta. rewrite He, Hf. cbv beta iota delta [negb]. cbn [app].
  unfold script_request. destruct (try_except _ _) as [t r]. reflexivity.
Qed.

(** X8. When the definition has a path to a regular file of the workspace,
    [run_script] starts exactly one child, with the request
    [script_request].  If the child exits with status 0 the executor returns
    and logs nothing; if it exits with another status, the failure is logged
    as "Ошибка при выполнении скрипта" and raised again as
    [CalledProcessError]; if the child cannot be started, the exception of
    [subprocess.run] is raised and nothing is logged by the executor. *)
Theorem run_script_outcomes (w : World) (self : Escripts)
    (definition : list (pyval * pyval)) (args : list (string * pyval)) (rel : string) :
  dict_lookup definition "path" = Some (VStr rel) -> rel <> "" ->
  path_exists w (path_join w (namespace self) rel) = true ->
  path_is_file w (path_join w (namespace self) rel) = true ->
  let request := script_request w self rel args in
  (subprocess_run w request = Exited 0 ->
   run_script w self (VDict definition) args = ([ESpawn request], Ok tt))
  /\ (forall code,
         subprocess_run w request = Exited code -> code <> 0%Z ->
         run_script w self (VDict definition) args
         = ([ESpawn request;
             ELogError "Ошибка при выполнении скрипта: %s"
               [LExn (CalledProcessError code request)]],
            Raise (CalledProcessError code request)))
  /\ (forall e,
         subprocess_run w request = NotStarted e ->
         (forall code cmd, e <> CalledProcessError code cmd) ->
         run_script w self (VDict definition) args = ([ESpawn request], Raise e)).
Proof.
  intros H Hrel He Hf request.
  rewrite (script_path_checked w self definition args rel H Hrel He Hf).
  fold request. unfold subprocess_run_checked. split; [|split].
  - intros ->. reflexivity.
  - intros code -> Hcode. destruct code; [contradiction | reflexivity | reflexivity].
  - intros e -> Hne. destruct e; try reflexivity. exfalso. exact (Hne _ _ eq_refl).
Qed.

Lemma run_script_outcomes_witness :
  let self := {| namespace := "/ws"; data := VNone |} in
  let definition := [(VStr "path", VStr "build.py")] in
  let request (w : World) := script_request w self "build.py" [("count", VInt 2)] in
  run_script (child_world [] 0) self (VDict definition) [("count", VInt 2)]
  = ([ESpawn (SpawnArgv ["/usr/bin/python3"; "/ws/build.py"; "--count"; "2"]
                [("PYTHONPATH", "/ws")])],
     Ok tt)
  /\ run_script (child_world [] 3) self (VDict definition) [("count", VInt 2)]
     = ([ESpawn (request (child_world [] 3));
         ELogError "Ошибка при выполнении скрипта: %s"
           [LExn (CalledProcessError 3 (request (child_world [] 3)))]],
        Raise (CalledProcessError 3 (request (child_world [] 3)))).
Proof.
  intros self definition request. split.
  - apply (run_script_outcomes (child_world [] 0) self definition [("count", VInt 2)]
             "build.py"); solve [reflexivity | discriminate].
  - apply (run_script_outcomes (child_world [] 3) self definition [("count", VInt 2)]
             "build.py"); solve [reflexivity | discriminate].
Defined.

Section Environment.
Lemma env_get_set_same (env : list (string * string)) (k v d : string) :
  env_get (env_set env k v) k d = v.
Proof.
  unfold env_get. induction env as [| [k' v'] env IH]; cbn.
  - now rewrite String.eqb_refl.
  - destruct (String.eqb_spec k' k) as [-> | Hne]; cbn.
    + now rewrite String.eqb_refl.
    + destruct (String.eqb_spec k' k); [contradiction | exact IH].
Qed.

Lemma env_get_set_other (env : list (string * string)) (k k0 v d : string) :
  k0 <> k -> env_get (env_set env k v) k0 d = env_get env k0 d.
Proof.
  intros Hne. unfold env_get. induction env as [| [k' v'] env IH]; cbn.
  - destruct (String.eqb_spec k k0); [congruence | reflexivity].
  - destruct (String.eqb_spec k' k) as [-> | Hk]; cbn.
    + destruct (String.eqb_spec k k0); [congruence | reflexivity].
    + destruct (String.eqb_spec k' k0); [reflexivity | exact IH].
Qed.

Lemma script_arguments_length (w : World) (args : list (string * pyval)) :
  length (flat_map (fun '(key, value) => ["--" ++ key; py_str w value]) args)
  = 2 * length args.
Proof.
  induction args as [| [key value] args IH]; [reflexivity|].
  cbn [flat_map app length]. rewrite IH. lia.
Qed.
End Environment.

Lemma script_path_rejected (w : World) (self : Escripts) (d : list (pyval * pyval))
    (args : list (string * pyval)) (rel : string) :
  dict_lookup d "path" = Some (VStr rel) ->
  path_exists w (path_join w (namespace self) rel) = false
  \/ path_is_file w (path_join w (namespace self) rel) = false ->
  trace (run_script w self (VDict d) args) = [].
Proof.
  intros G H. unfold run_script. cbn [py_get lift]. rewrite G.
  rewrite (bind_lift_ok _ (VStr rel)) by reflexivity.
  destruct (negb (py_truthy (VStr rel))); [reflexivity|].
  rewrite (bind_ok _ _ [] (path_join w (namespace self) rel)) by reflexivity.
  cbv beta. cbn [app].
  destruct (path_exists w (path_join w (namespace self) rel)); [|reflexivity].
  destruct H as [H | H]; [discriminate|]. rewrite H. reflexivity.
Qed.

(** Whatever [run_script] performs, it is at most the one request to
    [subprocess.run], which is [script_request], followed by at most one
    log record. *)
Lemma run_script_trace (w : World) (self : Escripts) (data : pyval)
    (args : list (string * pyval)) :
  trace (run_script w self data args) = []
  \/ exists rel fmt logged,
       data <> VNone
       /\ (trace (run_script w self data args) = [ESpawn (script_request w self rel args)]
           \/ trace (run_script w self data args)
              = [ESpawn (script_request w self rel args); ELogError fmt logged]).
Proof.
  destruct data as [| | | | | | d]; try (now left).
  destruct (dict_lookup d "path") as [path|] eqn:G;
    [|left; unfold run_script; cbn; rewrite G; reflexivity].
  assert (F : forall t, (py_truthy path = false \/ forall rel, path <> VStr rel) ->
                        t = trace (run_script w self (VDict d) args) -> t = []).
  { intros t Hp ->. unfold run_script. cbn [py_get lift]. rewrite G.
    rewrite (bind_lift_ok _ path) by reflexivity.
    destruct (py_truthy path) eqn:T; [|reflexivity].
    destruct Hp as [Hp | Hp]; [discriminate|].
    destruct path; try reflexivity. exfalso. exact (Hp _ eq_refl). }
  destruct path as [| | | | rel | |];
    try (left; apply (F _); [right; intros rel; discriminate | reflexivity]).
  destruct (String.eqb_spec rel "") as [-> | Hrel];
    [left; apply (F _); [now left | reflexivity]|].
  destruct (path_exists w (path_join w (namespace self) rel)) eqn:He.
  - destruct (path_is_file w (path_join w (namespace self) rel)) eqn:Hf.
    + right. exists rel.
      rewrite (script_path_checked w self d args rel G Hrel He Hf).
      unfold subprocess_run_checked.
      assert (D : VDict d <> VNone) by discriminate.
      destruct (subprocess_run w (script_request w self rel args)) as [[| c | c] | e].
      * exists "", []. split; [exact D|]. left. reflexivity.
      * eexists _, _. split; [exact D|]. right. reflexivity.
      * eexists _, _. split; [exact D|]. right. reflexivity.
      * destruct e; try (exists "", []; split; [exact D|]; left; reflexivity).
        eexists _, _. split; [exact D|]. right. reflexivity.
    + left. apply (script_path_rejected w self d args rel G). now right.
  - left. apply (script_path_rejected w self d args rel G). now left.
Qed.

(** X9. Whatever child [run_script] starts: its environment has
    [PYTHONPATH] set to the absolute path of the workspace and every other
    variable as in the environment of the process; its interpreter is the
    value of [ESCRIPTS_PYTHON] when that variable is set and the running
    interpreter otherwise; and its command line has, after the interpreter
    and the script, exactly two words per bound argument. *)
Theorem script_child_request (w : World) (self : Escripts) (data : pyval)
    (args : list (string * pyval)) (cmd : list string) (env : list (string * string)) :
  In (ESpawn (SpawnArgv cmd env)) (trace (run_script w self data args)) ->
  (forall d, env_get env "PYTHONPATH" d = path_absolute w (namespace self))
  /\ (forall k d, k <> "PYTHONPATH" -> env_get env k d = env_get (environ w) k d)
  /\ hd_error cmd = Some (env_get (environ w) "ESCRIPTS_PYTHON" (sys_executable w))
  /\ length cmd = 2 + 2 * length args.
Proof.
  intros Hin.
  assert (R : exists rel, SpawnArgv cmd env = script_request w self rel args).
  { destruct (run_script_trace w self data args) as [E | (rel & fmt & logged & _ & [E | E])];
      rewrite E in Hin.
    - contradiction.
    - destruct Hin as [Hin | []]. exists rel. congruence.
    - destruct Hin as [Hin | [Hin | []]]; [|discriminate]. exists rel. congruence. }
  destruct R as (rel & R). unfold script_request in R. injection R as -> ->.
  split; [intros d; apply env_get_set_same|].
  split; [intros k d Hk; now apply env_get_set_other|].
  split; [reflexivity|].
  cbn [length]. rewrite script_arguments_length. reflexivity.
Qed.

Lemma script_child_request_witness :
  let w := child_world [("HOME", "/home/u"); ("ESCRIPTS_PYTHON", "/opt/py/bin/python")] 0 in
  let self := {| namespace := "/ws"; data := VNone |} in
  let env := [("HOME", "/home/u"); ("ESCRIPTS_PYTHON", "/opt/py/bin/python");
              ("PYTHONPATH", "/ws")] in
  let cmd := ["/opt/py/bin/python"; "/ws/build.py"; "--count"; "2"] in
  (forall d, env_get env "PYTHONPATH" d = "/ws")
  /\ (forall k d, k <> "PYTHONPATH"
                  -> env_get env k d
                     = env_get [("HOME", "/home/u");
                                ("ESCRIPTS_PYTHON", "/opt/py/bin/python")] k d)
  /\ hd_error cmd = Some "/opt/py/bin/python"
  /\ length cmd = 4.
Proof.
  intros w self env cmd.
  apply (script_child_request w self (VDict [(VStr "path", VStr "build.py")])
           [("count", VInt 2)] cmd env).
  left. reflexivity.
Defined.

(** X10. For a definition with a non-empty [command]: when formatting the
    template fails with anything but a [KeyError] (a malformed template, a
    positional field, a [command] that is not a string), [run_alias] raises
    that exception and performs nothing; when it gives a command line, that
    line is run through the shell in the workspace, exactly once: status 0
    returns and logs nothing, another status is logged as "Ошибка при
    выполнении алиаса" and raised again as [CalledProcessError], and a shell
    that cannot be started raises the exception of [subprocess.run]. *)
Theorem run_alias_outcomes (w : World) (self : Escripts)
    (definition : list (pyval * pyval)) (template : pyval) (args : list (string * pyval)) :
  dict_lookup definition "command" = Some template ->
  py_truthy template = true ->
  (forall e,
      py_format w template args = Raise e -> (forall k, e <> KeyError k) ->
      run_alias w self (VDict definition) args = raise e)
  /\ (forall command,
         py_format w template args = Ok command ->
         let request := SpawnShell command (namespace self) in
         (subprocess_run w request = Exited 0 ->
          run_alias w self (VDict definition) args = ([ESpawn request], Ok tt))
         /\ (forall code,
                subprocess_run w request = Exited code -> code <> 0%Z ->
                run_alias w self (VDict definition) args
                = ([ESpawn request;
                    ELogError "Ошибка при выполнении алиаса: %s"
                      [LExn (CalledProcessError code request)]],
                   Raise (CalledProcessError code request)))
         /\ (forall e,
                subprocess_run w request = NotStarted e ->
                (forall code cmd, e <> CalledProcessError code cmd) ->
                run_alias w self (VDict definition) args = ([ESpawn request], Raise e))).
Proof.
  intros H T.
  assert (R : forall r, py_format w template args = r ->
                run_alias w self (VDict definition) args
                = bind (try_except (lift r)
                          (fun e => match e with
                                    | KeyError k =>
                                        Some (raise (ValueError
                                                       ("Отсутствует аргумент для формирования команды: "
                                                        ++ repr_of_str w k)))
                                    | _ => None
                                    end))
                    (fun command_to_run =>
                       try_except
                         (subprocess_run_checked w
                            (SpawnShell command_to_run (namespace self)))
                         (fun e => match e with
                                   | CalledProcessError _ _ =>
                                       Some (bind (logging_error
                                                     "Ошибка при выполнении алиаса: %s"
                                                     [LExn e])
                                               (fun _ => raise e))
                                   | _ => None
                                   end))).
  { intros r <-. unfold run_alias.
    rewrite (bind_lift_ok _ template) by (cbn; rewrite H; reflexivity).
    rewrite T. reflexivity. }
  split.
  - intros e F Hne. rewrite (R _ F).
    destruct e; try reflexivity. exfalso. exact (Hne _ eq_refl).
  - intros command F request. rewrite (R _ F).
    rewrite (bind_ok _ _ [] command) by reflexivity. cbv beta. cbn [app].
    fold request. unfold subprocess_run_checked. split; [|split].
    + intros ->. reflexivity.
    + intros code -> Hcode. destruct code; [contradiction | reflexivity | reflexivity].
    + intros e -> Hne. destruct e; try reflexivity. exfalso. exact (Hne _ _ eq_refl).
Qed.

Lemma run_alias_outcomes_witness :
  let self := {| namespace := "/ws"; data := VNone |} in
  run_alias (child_world [] 0) self (VDict [(VStr "command", VStr "echo {0}")]) []
  = raise (IndexError "Replacement index 0 out of range for positional args tuple")
  /\ run_alias (child_world [] 0) self (VDict [(VStr "command", VInt 5)]) []
     = raise (AttributeError "'int' object has no attribute 'format'")
  /\ run_alias (child_world [] 0) self (VDict [(VStr "command", VStr "echo {{hi}}")]) []
     = ([ESpawn (SpawnShell "echo {hi}" "/ws")], Ok tt)
  /\ run_alias (child_world [] 2) self (VDict [(VStr "command", VStr "false")]) []
     = ([ESpawn (SpawnShell "false" "/ws");
         ELogError "Ошибка при выполнении алиаса: %s"
           [LExn (CalledProcessError 2 (SpawnShell "false" "/ws"))]],
        Raise (CalledProcessError 2 (SpawnShell "false" "/ws"))).
Proof.
  intros self.
  split; [apply (run_alias_outcomes (child_world [] 0) self
                   [(VStr "command", VStr "echo {0}")] (VStr "echo {0}") []);
           solve [reflexivity | discriminate]|].
  split; [apply (run_alias_outcomes (child_world [] 0) self
                   [(VStr "command", VInt 5)] (VInt 5) []);
           solve [reflexivity | discriminate]|].
  split; [apply (run_alias_outcomes (child_world [] 0) self
                   [(VStr "command", VStr "echo {{hi}}")] (VStr "echo {{hi}}") []) with
              (command := "echo {hi}"); reflexivity|].
  apply (run_alias_outcomes (child_world [] 2) self
           [(VStr "command", VStr "false")] (VStr "false") []) with (command := "false");
    solve [reflexivity | discriminate].
Defined.

(** X11. Once the tokens are parsed, nothing the executor raises as an
    [Exception] leaves [process_command]: the events of the executor are
    followed by one log record "Ошибка при выполнении команды" with the name of
    the command, and the method returns normally.  When the executor
    returns, [process_command] adds nothing. *)
Theorem executor_failure_is_logged (w : World) (self : Escripts)
    (type_command name : string) (section definition schema : list (pyval * pyval))
    (p : parser) (argv : list string) (n : Namespace) (extras : list pyval) :
  dict_lookup section name = Some (VDict definition) ->
  py_get (VDict definition) "args" (VDict []) = Ok (VDict schema) ->
  ~ In "--help" argv ->
  declare_arguments w [] schema = Ok p ->
  parse_known w p argv = Parsed (n, extras) ->
  (forall t,
      executor w self type_command (VDict definition) (vars n) = (t, Ok tt) ->
      process_command w self type_command name (VDict section) argv = (t, Ok tt))
  /\ (forall t e,
         executor w self type_command (VDict definition) (vars n) = (t, Raise e) ->
         is_Exception e = true ->
         process_command w self type_command name (VDict section) argv
         = ((t ++ [ELogError "Ошибка при выполнении команды '%s': %s" [LStr name; LExn e]])%list,
            Ok tt)).
Proof.
  intros Hdef Hargs Hhelp Hp Hparse.
  rewrite (process_command_executes w self type_command name section definition schema p
             argv n extras Hdef Hargs Hhelp Hp Hparse).
  split.
  - intros t ->. reflexivity.
  - intros t e -> He. unfold try_except, log_command_failure. rewrite He. reflexivity.
Qed.

Lemma executor_failure_is_logged_witness :
  let w := sample_world (YamlLoaded VNone) in
  let self := {| namespace := "/ws"; data := VNone |} in
  let section := [(VStr "build", VDict [(VStr "path", VStr "missing.py")])] in
  process_command w self "scripts" "build" (VDict section) ["now"]
  = ([ELogError "Ошибка при выполнении команды '%s': %s"
        [LStr "build"; LExn (FileNotFoundError "Файл '/ws/missing.py' не существует")]],
     Ok tt)
  /\ process_command w self "plugins" "build" (VDict section) []
     = ([ELogError "Ошибка при выполнении команды '%s': %s"
           [LStr "build"; LExn (ValueError "Неизвестный тип команды: plugins")]],
        Ok tt).
Proof.
  intros w self section. split.
  - apply (proj2 (executor_failure_is_logged w self "scripts" "build" section
                    [(VStr "path", VStr "missing.py")] [] [] ["now"] [] [VStr "now"]
                    eq_refl eq_refl
                    (fun H => match H with
                              | or_introl E => ltac:(discriminate E)
                              | or_intror F => F
                              end)
                    eq_refl eq_refl) []); reflexivity.
  - apply (proj2 (executor_failure_is_logged w self "plugins" "build" section
                    [(VStr "path", VStr "missing.py")] [] [] [] [] []
                    eq_refl eq_refl (fun H => H) eq_refl eq_refl) []); reflexivity.
Defined.

Lemma main_runs (w : World) (config : pyval) (sys_argv : list string) (t : list event) :
  _load_config w (default_namespace w) = ret config ->
  run w {| namespace := default_namespace w; data := config |} sys_argv = (t, Ok tt) ->
  main w sys_argv = (t, Ok tt).
Proof.
  intros Hload Hrun. unfold main, __init__. rewrite Hload.
  rewrite (bind_ok _ _ [] {| namespace := default_namespace w; data := config |})
    by reflexivity.
  cbn [app]. rewrite Hrun. reflexivity.
Qed.

(** X12. When a script is resolved, its tokens are parsed and its file is
    there, but the child exits with a status other than 0, the run performs
    three events (the child, the log record of [run_script], the log record
    of [process_command]) and [main] returns normally: the exit status of
    the process is 0, not the status of the child. *)
Theorem failed_script_exits_0 (w : World) (prog command rel : string) (argv : list string)
    (config section definition schema : list (pyval * pyval)) (p : parser)
    (n : Namespace) (extras : list pyval) (code : Z) :
  _load_config w (default_namespace w) = ret (VDict config) ->
  command <> "--list" ->
  dict_lookup config "scripts" = Some (VDict section) ->
  dict_lookup section command = Some (VDict definition) ->
  py_get (VDict definition) "args" (VDict []) = Ok (VDict schema) ->
  ~ In "--help" argv ->
  declare_arguments w [] schema = Ok p ->
  parse_known w p argv = Parsed (n, extras) ->
  dict_lookup definition "path" = Some (VStr rel) -> rel <> "" ->
  path_exists w (path_join w (default_namespace w) rel) = true ->
  path_is_file w (path_join w (default_namespace w) rel) = true ->
  let self := {| namespace := default_namespace w; data := VDict config |} in
  let request := script_request w self rel (vars n) in
  subprocess_run w request = Exited code -> code <> 0%Z ->
  main w (prog :: command :: argv)
  = ([ESpawn request;
      ELogError "Ошибка при выполнении скрипта: %s" [LExn (CalledProcessError code request)];
      ELogError "Ошибка при выполнении команды '%s': %s"
        [LStr command; LExn (CalledProcessError code request)]],
     Ok tt)
  /\ exit_status (main w (prog :: command :: argv)) = 0%Z.
Proof.
  intros Hload Hlist Hs Hd Hargs Hhelp Hp Hparse Hpath Hrel He Hf self request Hrun Hcode.
  assert (E : main w (prog :: command :: argv)
              = ([ESpawn request;
                  ELogError "Ошибка при выполнении скрипта: %s"
                    [LExn (CalledProcessError code request)];
                  ELogError "Ошибка при выполнении команды '%s': %s"
                    [LStr command; LExn (CalledProcessError code request)]],
                 Ok tt)).
  { apply (main_runs w (VDict config) _ _ Hload). fold self.
    rewrite (run_script_section w self prog command argv config section (VDict definition)
               eq_refl Hlist Hs Hd).
    rewrite (process_command_executes w self "scripts" command section definition schema p
               argv n extras Hd Hargs Hhelp Hp Hparse).
    unfold executor. cbn [String.eqb Ascii.eqb Bool.eqb].
    rewrite (script_path_checked w self definition (vars n) rel Hpath Hrel He Hf).
    fold request. unfold subprocess_run_checked. rewrite Hrun.
    destruct code; [contradiction | reflexivity | reflexivity]. }
  split; [exact E | rewrite E; reflexivity].
Qed.

Lemma failed_script_exits_0_witness :
  let w := world_with ["/ws"] ["/ws/config.yml"; "/ws/build.py"]
             (YamlLoaded (VDict build_config)) in
  let w3 := {| default_namespace := default_namespace w;
               path_exists := path_exists w; path_is_dir := path_is_dir w;
               path_is_file := path_is_file w; path_absolute := path_absolute w;
               path_join := path_join w; yaml_safe_load := yaml_safe_load w;
               environ := environ w; sys_executable := sys_executable w;
               subprocess_run := fun _ => Exited 3;
               float_of_str := float_of_str w; int_of_str_other := int_of_str_other w;
               repr_of_str_other := repr_of_str_other w;
               negative_number_other := negative_number_other w;
               usage_wrap_fails := usage_wrap_fails w;
               same_str_object := same_str_object w;
               decimal_name_other := decimal_name_other w;
               format_positional_failure := format_positional_failure w;
               format_render_other := format_render_other w |} in
  exit_status (main w3 ["escripts"; "build"; "now"]) = 0%Z.
Proof.
  intros w w3.
  apply (failed_script_exits_0 w3 "escripts" "build" "build.py" ["now"] build_config
           [(VStr "build",
             VDict [(VStr "description", VStr "Builds"); (VStr "path", VStr "build.py")])]
           [(VStr "description", VStr "Builds"); (VStr "path", VStr "build.py")]
           [] [] [] [VStr "now"] 3);
    try solve [reflexivity | discriminate].
  intros [E | []]. discriminate E.
Defined.

(* ================================================================= *)
(** ** Further properties: the names of the bindings *)

Section BindingNames.
Variable w : World.

Lemma vars_keys (n : Namespace) : map fst (vars n) = map fst n.
Proof.
  unfold vars. rewrite map_map. apply map_ext. intros [k [v tag]]. reflexivity.
Qed.

Lemma ns_get_none (n : Namespace) (k : string) :
  ns_get n k = None <-> ~ In k (map fst n).
Proof.
  induction n as [| [k' y] n IH]; cbn; [tauto|].
  destruct (String.eqb_spec k' k) as [-> | Hne].
  - split; [discriminate | intros H; exfalso; apply H; now left].
  - rewrite IH. tauto.
Qed.

Lemma ns_set_keys_old (n : Namespace) (k : string) (x : pyval * option nat) :
  In k (map fst n) -> map fst (ns_set n k x) = map fst n.
Proof.
  induction n as [| [k' y] n IH]; cbn; [contradiction|].
  intros H. destruct (String.eqb_spec k' k) as [-> | Hne]; [reflexivity|].
  cbn. f_equal. apply IH. destruct H as [H | H]; [contradiction | exact H].
Qed.

Lemma ns_set_keys_new (n : Namespace) (k : string) (x : pyval * option nat) :
  ~ In k (map fst n) -> map fst (ns_set n k x) = (map fst n ++ [k])%list.
Proof.
  induction n as [| [k' y] n IH]; cbn; [reflexivity|].
  intros H. destruct (String.eqb_spec k' k) as [-> | Hne]; [exfalso; apply H; now left|].
  cbn. f_equal. apply IH. intros Hin. apply H. now right.
Qed.

(** Before parsing, the namespace has one attribute per destination, in the
    order of the declarations. *)
Lemma initial_namespace_keys (p : parser) :
  forall (k : nat) (n : Namespace),
    NoDup (map dest p) ->
    (forall d, In d (map dest p) -> reserved_attribute d = false) ->
    (forall d, In d (map dest p) -> ~ In d (map fst n)) ->
    map fst (initial_namespace p k n) = (map fst n ++ map dest p)%list.
Proof.
  induction p as [| a p IH]; intros k n Hnd Hfree Hfresh; cbn.
  - now rewrite app_nil_r.
  - cbn in Hnd. apply NoDup_cons_iff in Hnd as [Hnotin Hnd].
    assert (Ha : ~ In (dest a) (map fst n)) by (apply Hfresh; now left).
    rewrite (ns_hasattr_free n _ (Hfree _ (or_introl eq_refl))).
    destruct (ns_get n (dest a)) eqn:G; [apply ns_get_none in Ha; congruence|].
    rewrite IH; [| exact Hnd | intros d Hd; apply Hfree; now right |].
    + rewrite ns_set_keys_new by exact Ha. now rewrite <- app_assoc.
    + intros d Hd. rewrite ns_set_keys_new by exact Ha. intros Hin.
      apply in_app_or in Hin as [Hin | [<- | []]].
      * apply (Hfresh d); [now right | exact Hin].
      * contradiction.
Qed.

Lemma take_action_keys (st st' : parse_state) (j : nat) (b : action) (s : string) :
  In (dest b) (map fst (st_namespace st)) ->
  take_action w st (j, b) s = Parsed st' ->
  map fst (st_namespace st') = map fst (st_namespace st).
Proof.
  intros Hin H. apply take_action_inv in H as (v & _ & Hn & _).
  rewrite Hn. now apply ns_set_keys_old.
Qed.

(** Storing the values of the options adds no attribute and moves none. *)
Lemma consume_keys (keys : list string) (L : list (string * pattern)) :
  (forall s j b o e, In (s, PatO (Some (j, b)) o e) L -> In (dest b) keys) ->
  forall st st',
    map fst (st_namespace st) = keys ->
    consume w L st = Parsed st' ->
    map fst (st_namespace st') = keys.
Proof.
  induction L as [| x | x y L IH IHy] using list_ind2; intros HL st st' Hk H.
  - injection H as <-. exact Hk.
  - destruct x as [s [| | [[j b]|] o [e|]]]; cbn [consume] in H; try discriminate;
      try (injection H as <-; exact Hk).
    destruct (take_action w st (j, b) e) as [st1|] eqn:T; [|discriminate].
    injection H as <-. rewrite <- Hk. apply (take_action_keys st st1 j b e); [|exact T].
    rewrite Hk. apply (HL s j b o (Some e)). now left.
  - assert (HLy : forall s j b o e, In (s, PatO (Some (j, b)) o e) (y :: L) -> In (dest b) keys).
    { intros; eapply HL; right; eassumption. }
    assert (HLL : forall s j b o e, In (s, PatO (Some (j, b)) o e) L -> In (dest b) keys).
    { intros; eapply HLy; right; eassumption. }
    destruct x as [s [| | [[j b]|] o [e|]]].
    + apply (IHy HLy (add_extra st s) st' Hk H).
    + apply (IHy HLy (add_extra st s) st' Hk H).
    + cbn [consume] in H.
      destruct (take_action w st (j, b) e) as [st1|] eqn:T; [|discriminate].
      apply (IHy HLy st1 st'); [|exact H].
      rewrite <- Hk. apply (take_action_keys st st1 j b e); [|exact T].
      rewrite Hk. apply (HL s j b o (Some e)). now left.
    + cbn [consume] in H. destruct y as [v [| |]]; try discriminate.
      destruct (take_action w st (j, b) v) as [st1|] eqn:T; [|discriminate].
      apply (IH HLL st1 st'); [|exact H].
      rewrite <- Hk. apply (take_action_keys st st1 j b v); [|exact T].
      rewrite Hk. apply (HL s j b o None). now left.
    + apply (IHy HLy (add_extra st s) st' Hk H).
    + apply (IHy HLy (add_extra st s) st' Hk H).
Qed.

(** Converting the string defaults adds no attribute either. *)
Lemma finalize_keys (p : parser) :
  forall (i : nat) (seen : list nat) (n n' : Namespace) (missing missing' : list string),
    finalize w p i seen n missing = Parsed (n', missing') ->
    map fst n' = map fst n.
Proof.
  induction p as [| a p IH]; intros i seen n n' missing missing' H; cbn [finalize] in H.
  - now injection H as <- _.
  - destruct (existsb (Nat.eqb i) seen); [exact (IH _ _ _ _ _ _ H)|].
    destruct (required a); [exact (IH _ _ _ _ _ _ H)|].
    destruct (default a) as [| | | | s | |]; try exact (IH _ _ _ _ _ _ H).
    destruct (default_is_bound w n i a s) eqn:B; [|exact (IH _ _ _ _ _ _ H)].
    destruct (get_value w a s) as [v|]; [|discriminate].
    destruct (ns_setattr n (dest a) _) as [n1|] eqn:S; [|discriminate].
    apply ns_setattr_ok in S. subst n1.
    apply IH in H. rewrite H. apply ns_set_keys_old.
    unfold default_is_bound in B.
    destruct (in_dec string_dec (dest a) (map fst n)) as [Hin | Hout]; [exact Hin|].
    apply ns_get_none in Hout. rewrite Hout in B. discriminate B.
Qed.

Lemma parsed_names (p : parser) (argv : list string) (n : Namespace)
    (extras : list pyval) :
  NoDup (map dest p) ->
  (forall d, In d (map dest p) -> reserved_attribute d = false) ->
  parse_known w p argv = Parsed (n, extras) ->
  map fst (vars n) = map dest p.
Proof.
  intros Hnd Hfree H.
  apply parse_known_inv in H as (n0 & extras0 & H & _ & Hsame).
  apply parse_args_inv in H as (L & st & Hc & Hs & Hf & _).
  assert (K : map fst n0 = map dest p).
  { rewrite (finalize_keys _ _ _ _ _ _ _ Hf).
    apply (consume_keys (map dest p) L) with (st := initial_state p); [| |exact Hs].
    - intros s j b o e Hin.
      destruct (classify_In w p argv L s o (j, b) e Hc Hin) as [_ Hp].
      apply parse_optional_nth in Hp. apply in_map, (nth_error_In _ _ Hp).
    - unfold initial_state. cbn [st_namespace].
      rewrite initial_namespace_keys;
        [reflexivity | exact Hnd | exact Hfree | intros d _ []]. }
  assert (U : ns_get n0 "_unrecognized_args" = None).
  { apply ns_get_none. rewrite K. intros Hin. apply Hfree in Hin. discriminate Hin. }
  destruct (Hsame U) as [-> _]. now rewrite vars_keys.
Qed.

Lemma declare_argument_destination (p0 p1 : parser) (arg details : pyval) :
  declare_argument w p0 arg details = Ok p1 ->
  exists a, p1 = (p0 ++ [a])%list /\ dest a = destination w arg.
Proof.
  unfold declare_argument, destination. intros H.
  repeat match type of H with
         | context [rbind ?r _] =>
             let E := fresh "E" in
             destruct r eqn:E; cbn [rbind] in H; [|discriminate H]
         end.
  assert (A : forall d r,
             add_argument p0 ("--" ++ py_str w arg) a0 a1 d r = Ok p1 ->
             exists a3, p1 = (p0 ++ [a3])%list
                        /\ dest a3 = replace_char "-" "_"
                                       (lstrip_char "-" ("--" ++ py_str w arg))).
  { intros d r. unfold add_argument.
    destruct (String.eqb (lstrip_char "-" ("--" ++ py_str w arg)) ""); [discriminate|].
    destruct (has_option p0 ("--" ++ py_str w arg)); [discriminate|].
    intros G. injection G as <-. eexists. split; reflexivity. }
  destruct a2; [|exact (A _ _ H)].
  destruct (py_getitem details "default") as [d|]; [|discriminate].
  exact (A _ _ H).
Qed.

Lemma declare_arguments_destinations (schema : list (pyval * pyval)) :
  forall p0 p,
    declare_arguments w p0 schema = Ok p ->
    map dest p = (map dest p0 ++ map (fun kv => destination w (fst kv)) schema)%list.
Proof.
  induction schema as [| [arg details] schema IH]; intros p0 p H; cbn in H.
  - injection H as <-. now rewrite app_nil_r.
  - destruct (declare_argument w p0 arg details) as [p1|] eqn:D; [|discriminate].
    cbn [rbind] in H. apply declare_argument_destination in D as (a & -> & Ha).
    rewrite (IH _ _ H), map_app, <- app_assoc. cbn. now rewrite Ha.
Qed.

Lemma replace_absent (a b : ascii) (s : string) :
  has_char a s = false -> replace_char a b s = s.
Proof.
  induction s as [| c s IH]; cbn; [reflexivity|].
  intros H. apply orb_false_iff in H as [Hc Hs]. now rewrite Hc, IH.
Qed.

Lemma lstrip_absent (a : ascii) (s : string) :
  has_char a s = false -> lstrip_char a s = s.
Proof.
  destruct s as [| c s]; cbn; [reflexivity|].
  intros H. apply orb_false_iff in H as [Hc _]. now rewrite Hc.
Qed.
End BindingNames.

(** X13. When the tokens are parsed, the bindings handed to the executor
    have one entry per declared parameter, given or not, in the order of the
    schema, provided the destinations are distinct and none of them is
    reserved (an attribute the namespace of [argparse] has from its class,
    or [_unrecognized_args]).  An entry is named by the destination of its
    parameter: the schema key without leading dashes and with its other
    dashes turned into underscores, which is the key itself when it is a
    string without dashes. *)
Theorem bindings_follow_schema (w : World) (schema : list (pyval * pyval)) (p : parser)
    (argv : list string) (n : Namespace) (extras : list pyval) :
  declare_arguments w [] schema = Ok p ->
  NoDup (map (fun kv => destination w (fst kv)) schema) ->
  forallb (fun kv => negb (reserved_attribute (destination w (fst kv)))) schema = true ->
  parse_known w p argv = Parsed (n, extras) ->
  map fst (vars n) = map (fun kv => destination w (fst kv)) schema
  /\ (forall name, has_char "-" name = false -> destination w (VStr name) = name).
Proof.
  intros Hp Hnd Hfree Hparse.
  pose proof (declare_arguments_destinations w schema [] p Hp) as Hd. cbn [map app] in Hd.
  split.
  - rewrite <- Hd. apply (parsed_names w p argv n extras); [now rewrite Hd | | exact Hparse].
    intros d Hin. rewrite Hd in Hin. apply in_map_iff in Hin as (kv & <- & Hkv).
    rewrite forallb_forall in Hfree. apply negb_true_iff. exact (Hfree kv Hkv).
  - intros name H. unfold destination. cbn. rewrite (lstrip_absent _ _ H).
    apply replace_absent, H.
Qed.

Lemma bindings_follow_schema_witness :
  let w := sample_world (YamlLoaded sample_config) in
  let schema := [(VStr "dry-run", VDict [(VStr "default", VStr "no")]);
                 (VStr "count", VDict [(VStr "type", VStr "int")])] in
  let n := [("dry_run", (VStr "no", Some 0)); ("count", (VInt 5, None))] in
  map fst (vars n) = map (fun kv => destination w (fst kv)) schema.
Proof.
  intros w schema n.
  refine (proj1 (bindings_follow_schema w schema
                   [ {| option_string := "--dry-run"; dest := "dry_run"; type_ := TypeStr;
                        default := VStr "no"; required := false; help := VStr "" |};
                     {| option_string := "--count"; dest := "count"; type_ := TypeInt;
                        default := VNone; required := true; help := VStr "" |} ]
                   ["--count"; "5"; "x"] n [VStr "x"] eq_refl _ eq_refl eq_refl)).
  constructor; [intros [E | []]; discriminate E|].
  constructor; [intros [] | constructor].
Defined.

(* ================================================================= *)
(** ** Further properties: configurations of another shape *)

Lemma main_fails (w : World) (config : pyval) (sys_argv : list string) (t : list event)
    (e : exn) :
  _load_config w (default_namespace w) = ret config ->
  run w {| namespace := default_namespace w; data := config |} sys_argv = (t, Raise e) ->
  is_Exception e = true ->
  main w sys_argv = ((t ++ [ELogError "Ошибка: %s" [LExn e]])%list, Raise (SystemExit 1)).
Proof.
  intros Hload Hrun He. unfold main, __init__. rewrite Hload.
  rewrite (bind_ok _ _ [] {| namespace := default_namespace w; data := config |})
    by reflexivity.
  cbn [app]. rewrite Hrun. unfold try_except, trace, outcome, fst, snd.
  rewrite He. reflexivity.
Qed.

(** X14. A configuration that is loaded but is not a mapping (a list, a
    string, a number) is not rejected by the loader; every run with a first
    argument then fails on [self.data.get] and exits with status 1.  With
    [--list] the heading of the first section is printed before the
    failure. *)
Theorem non_mapping_config_exits_1 (w : World) (config : pyval) (prog command : string)
    (argv : list string) :
  _load_config w (default_namespace w) = ret config ->
  (forall d, config <> VDict d) ->
  (command <> "--list" ->
   main w (prog :: command :: argv)
   = ([ELogError "Ошибка: %s" [LExn (no_attribute config "get")]], Raise (SystemExit 1)))
  /\ main w (prog :: "--list" :: argv)
     = ([EPrint "Скрипты:"; ELogError "Ошибка: %s" [LExn (no_attribute config "get")]],
        Raise (SystemExit 1)).
Proof.
  intros Hload Hshape.
  assert (G : py_get config "scripts" (VDict []) = Raise (no_attribute config "get")).
  { destruct config; try reflexivity. exfalso. exact (Hshape _ eq_refl). }
  split.
  - intros Hlist.
    apply (main_fails w config _ [] _ Hload); [|reflexivity].
    unfold run. destruct (String.eqb_spec command "--list") as [E | _]; [contradiction|].
    cbn [data]. rewrite G. reflexivity.
  - apply (main_fails w config _ [EPrint "Скрипты:"] _ Hload); [|reflexivity].
    unfold run. cbn [String.eqb Ascii.eqb Bool.eqb]. unfold command_list.
    rewrite bind_print. cbn [data]. rewrite G. reflexivity.
Qed.

Lemma non_mapping_config_exits_1_witness :
  let w := sample_world (YamlLoaded (VList [VStr "build"])) in
  main w ["escripts"; "build"]
  = ([ELogError "Ошибка: %s" [LExn (AttributeError "'list' object has no attribute 'get'")]],
     Raise (SystemExit 1)).
Proof.
  intros w.
  apply (proj1 (non_mapping_config_exits_1 w (VList [VStr "build"]) "escripts" "build" []
                  eq_refl ltac:(discriminate))).
  discriminate.
Defined.

(** X15. A command whose definition is not a mapping (for instance a name
    followed by nothing in the YAML document, which loads as null) makes the
    run fail on [details.get] before the tokens are looked at: nothing is
    printed, not even with [--help], and the exit status is 1. *)
Theorem malformed_definition_exits_1 (w : World) (prog command : string)
    (argv : list string) (config section : list (pyval * pyval)) (details : pyval) :
  _load_config w (default_namespace w) = ret (VDict config) ->
  command <> "--list" ->
  dict_lookup config "scripts" = Some (VDict section) ->
  dict_lookup section command = Some details ->
  (forall d, details <> VDict d) ->
  main w (prog :: command :: argv)
  = ([ELogError "Ошибка: %s" [LExn (no_attribute details "get")]], Raise (SystemExit 1))
  /\ exit_status (main w (prog :: command :: argv)) = 1%Z.
Proof.
  intros Hload Hlist Hs Hd Hshape.
  assert (E : main w (prog :: command :: argv)
              = ([ELogError "Ошибка: %s" [LExn (no_attribute details "get")]],
                 Raise (SystemExit 1))).
  { apply (main_fails w (VDict config) _ [] _ Hload); [|reflexivity].
    rewrite (run_script_section w {| namespace := default_namespace w; data := VDict config |}
               prog command argv config section details
               eq_refl Hlist Hs Hd).
    unfold process_command.
    rewrite (bind_lift_ok _ details) by (cbn; rewrite Hd; reflexivity).
    destruct details; try reflexivity. exfalso. exact (Hshape _ eq_refl). }
  split; [exact E | rewrite E; reflexivity].
Qed.

Lemma malformed_definition_exits_1_witness :
  let w := sample_world (YamlLoaded (VDict [(VStr "scripts", VDict [(VStr "build", VNone)])])) in
  main w ["escripts"; "build"; "--help"]
  = ([ELogError "Ошибка: %s" [LExn (AttributeError "'NoneType' object has no attribute 'get'")]],
     Raise (SystemExit 1))
  /\ exit_status (main w ["escripts"; "build"; "--help"]) = 1%Z.
Proof.
  intros w.
  apply (malformed_definition_exits_1 w "escripts" "build" ["--help"]
           [(VStr "scripts", VDict [(VStr "build", VNone)])] [(VStr "build", VNone)] VNone);
    solve [reflexivity | discriminate].
Defined.

(** X16. A [scripts] section that is present but null (the key followed by
    nothing in the YAML document) is listed as empty by [--list], yet makes
    every command fail on the membership test, the aliases included: the
    exit status is 1 and nothing is executed. *)
Theorem null_scripts_section (w : World) (prog command : string) (argv : list string)
    (config : list (pyval * pyval)) :
  _load_config w (default_namespace w) = ret (VDict config) ->
  dict_lookup config "scripts" = Some VNone ->
  (command <> "--list" ->
   main w (prog :: command :: argv)
   = ([ELogError "Ошибка: %s" [LExn (TypeError "argument of type 'NoneType' is not iterable")]],
      Raise (SystemExit 1)))
  /\ exists rest,
       trace (main w (prog :: "--list" :: argv))
       = EPrint "Скрипты:" :: EPrint (tab ++ "Пусто") :: EPrint "Алиасы:" :: rest.
Proof.
  intros Hload Hs. split.
  - intros Hlist.
    apply (main_fails w (VDict config) _ [] _ Hload); [|reflexivity].
    unfold run. destruct (String.eqb_spec command "--list") as [E | _]; [contradiction|].
    cbn [data py_get]. rewrite Hs. reflexivity.
  - unfold main, __init__. rewrite Hload.
    rewrite (bind_ok _ _ [] {| namespace := default_namespace w; data := VDict config |})
      by reflexivity.
    cbn [app]. unfold run. cbn [String.eqb Ascii.eqb Bool.eqb]. unfold command_list.
    rewrite bind_print. cbn [data py_get]. rewrite Hs.
    rewrite (bind_lift_ok _ VNone) by reflexivity.
    unfold command_list_section. cbn [py_truthy].
    rewrite bind_print, bind_print.
    destruct (bind _ _) as [t r]. cbn [trace outcome fst snd].
    unfold try_except. destruct r as [u | e].
    + eexists. reflexivity.
    + destruct (is_Exception e); eexists; reflexivity.
Qed.

Lemma null_scripts_section_witness :
  let config := [(VStr "scripts", VNone);
                 (VStr "aliases", VDict [(VStr "hi", VDict [(VStr "command", VStr "echo hi")])])] in
  let w := sample_world (YamlLoaded (VDict config)) in
  main w ["escripts"; "hi"]
  = ([ELogError "Ошибка: %s" [LExn (TypeError "argument of type 'NoneType' is not iterable")]],
     Raise (SystemExit 1)).
Proof.
  intros config w.
  apply (proj1 (null_scripts_section w "escripts" "hi" [] config eq_refl eq_refl)).
  discriminate.
Defined.

(* ================================================================= *)
(** ** Further properties: what leaves the process *)

Section Raised.
Variable w : World.
Hypothesis Hw : raises_exceptions w.

Lemma raises_rbind {A B} (r : result A) (k : A -> result B) :
  raises_exception r -> (forall a, raises_exception (k a)) -> raises_exception (rbind r k).
Proof.
  destruct r as [a | e]; cbn; auto.
Qed.

Lemma py_get_raises (v : pyval) (k : string) (d : pyval) : raises_exception (py_get v k d).
Proof.
  destruct v; cbn; try reflexivity. destruct (dict_lookup _ _); exact I.
Qed.

Lemma py_in_raises (k : string) (v : pyval) : raises_exception (py_in k v).
Proof.
  destruct v; cbn; solve [reflexivity | exact I].
Qed.

Lemma py_items_raises (v : pyval) : raises_exception (py_items v).
Proof.
  destruct v; cbn; solve [reflexivity | exact I].
Qed.

Lemma py_getitem_raises (v : pyval) (k : string) : raises_exception (py_getitem v k).
Proof.
  destruct v; cbn; try reflexivity. destruct (dict_lookup _ _); [exact I | reflexivity].
Qed.

Lemma add_argument_raises (p : parser) (opt : string) (ty : arg_type) (h : pyval)
    (d : option pyval) (r : bool) :
  raises_exception (add_argument p opt ty h d r).
Proof.
  unfold add_argument. destruct (String.eqb _ ""); [reflexivity|].
  destruct (has_option p opt); [reflexivity | exact I].
Qed.

Lemma declare_argument_raises (p : parser) (arg details : pyval) :
  raises_exception (declare_argument w p arg details).
Proof.
  unfold declare_argument.
  apply raises_rbind; [apply py_in_raises | intros has_type].
  apply raises_rbind.
  { destruct has_type; [|exact I].
    apply raises_rbind; [apply py_getitem_raises | intros t; exact I]. }
  intros ty. apply raises_rbind; [apply py_get_raises | intros h].
  apply raises_rbind; [apply py_in_raises | intros has_default].
  destruct has_default; [|apply add_argument_raises].
  apply raises_rbind; [apply py_getitem_raises | intros d; apply add_argument_raises].
Qed.

Lemma declare_arguments_raises (items : list (pyval * pyval)) :
  forall p, raises_exception (declare_arguments w p items).
Proof.
  induction items as [| [arg details] items IH]; intros p; cbn; [exact I|].
  apply raises_rbind; [apply declare_argument_raises | exact IH].
Qed.

Lemma render_field_raises (kwargs : list (string * pyval)) (name : string)
    (conv : option string) (spec : string) :
  raises_exception (render_field w kwargs name conv spec).
Proof.
  destruct Hw as (_ & _ & Hpos & Hother).
  assert (O : forall obj rest, raises_exception (format_render_other w kwargs obj rest conv spec)).
  { intros obj rest. destruct (format_render_other _ _ _ _ _ _) as [s | e] eqn:E; [exact I|].
    exact (Hother _ _ _ _ _ _ E). }
  unfold render_field. destruct (field_first name) as [first rest].
  destruct (is_positional_field w first).
  - destruct (_ && _); [reflexivity | apply Hpos].
  - destruct (lookup_kwarg kwargs first) as [obj|]; [|reflexivity].
    destruct (_ && _); [|apply O].
    destruct conv as [c|]; [|exact I].
    destruct (String.eqb c "s"); [exact I|].
    destruct (String.eqb c "r"); [exact I | apply O].
Qed.

Lemma format_from_raises (kwargs : list (string * pyval)) (s : string) :
  forall st, raises_exception (format_from w kwargs st s).
Proof.
  induction s as [| c s IH]; intros st.
  - destruct st; cbn; solve [exact I | reflexivity].
  - assert (L : forall c0, raises_exception
                             (let? out := format_from w kwargs FLiteral s in Ok (String c0 out))).
    { intros c0. apply raises_rbind; [apply IH | intros; exact I]. }
    assert (F : forall name conv spec,
               raises_exception
                 (let? text := render_field w kwargs name conv spec in
                  let? out := format_from w kwargs FLiteral s in Ok (text ++ out))).
    { intros name conv spec. apply raises_rbind; [apply render_field_raises | intros text].
      apply raises_rbind; [apply IH | intros; exact I]. }
    destruct st as [| | | name [|] | name | name conv | name conv spec [| nested]];
      cbn [format_from];
      repeat match goal with
             | |- raises_exception (if ?b then _ else _) => destruct b
             end;
      solve [apply IH | apply L | apply F | reflexivity].
Qed.

Lemma py_format_raises (template : pyval) (kwargs : list (string * pyval)) :
  raises_exception (py_format w template kwargs).
Proof.
  destruct template; cbn; try reflexivity. apply format_from_raises.
Qed.

Lemma raised_bind {A B} (m : M A) (k : A -> M B) :
  raises_in exception_or_usage m ->
  (forall a, raises_in exception_or_usage (k a)) ->
  raises_in exception_or_usage (bind m k).
Proof.
  unfold raises_in, outcome. destruct m as [t [a | e]]; cbn; intros Hm Hk.
  - specialize (Hk a). destruct (k a) as [t' r]. exact Hk.
  - intros e' E. injection E as <-. exact (Hm e eq_refl).
Qed.

Lemma raised_lift {A} (r : result A) :
  raises_exception r -> raises_in exception_or_usage (lift r).
Proof.
  unfold raises_in, outcome, lift. destruct r as [a | e]; cbn; intros H e' E;
    [discriminate|].
  injection E as <-. now left.
Qed.

Lemma raised_raise {A} (e : exn) :
  is_Exception e = true -> raises_in exception_or_usage (@raise A e).
Proof.
  intros H e' E. injection E as <-. now left.
Qed.

Lemma raised_emit (ev : event) : raises_in exception_or_usage (emit ev).
Proof.
  intros e E. discriminate E.
Qed.

Lemma raised_ret {A} (a : A) : raises_in exception_or_usage (ret a).
Proof.
  intros e E. discriminate E.
Qed.

Lemma raised_iter {A} (f : A -> M unit) (l : list A) :
  (forall x, raises_in exception_or_usage (f x)) ->
  raises_in exception_or_usage (iter_M f l).
Proof.
  intros Hf. induction l as [| x l IH]; cbn; [apply raised_ret|].
  apply raised_bind; [apply Hf | intros _; exact IH].
Qed.

Lemma raised_try {A} (m : M A) (handler : exn -> option (M A)) :
  raises_in exception_or_usage m ->
  (forall e h, handler e = Some h -> raises_in exception_or_usage h) ->
  raises_in exception_or_usage (try_except m handler).
Proof.
  unfold raises_in, outcome, try_except. destruct m as [t [a | e]]; cbn; intros Hm Hh.
  - exact Hm.
  - destruct (handler e) as [[t' r]|] eqn:E; [|exact Hm].
    exact (Hh e (t', r) E).
Qed.

Lemma raised_subprocess (s : spawn) :
  raises_in exception_or_usage (subprocess_run_checked w s).
Proof.
  unfold subprocess_run_checked. apply raised_bind; [apply raised_emit | intros _].
  destruct (subprocess_run w s) as [[| c | c] | e] eqn:E;
    try (apply raised_ret); try (apply raised_raise; reflexivity).
  apply raised_raise. destruct Hw as (Hrun & _). exact (Hrun _ _ E).
Qed.

Lemma raised_load_config (ns : string) :
  raises_in exception_or_usage (_load_config w ns).
Proof.
  unfold _load_config.
  repeat match goal with
         | |- raises_in _ (if ?b then _ else _) => destruct b
         end;
    try (apply raised_raise; reflexivity).
  apply raised_bind.
  - destruct (yaml_safe_load w _) as [c | msg | e] eqn:E;
      [apply raised_ret | apply raised_raise; reflexivity | apply raised_raise].
    destruct Hw as (_ & Hyaml & _). exact (Hyaml _ _ E).
  - intros config. destruct config; solve [apply raised_ret | apply raised_raise; reflexivity].
Qed.

Lemma raised_print_help (name : string) (description args : pyval) :
  raises_in exception_or_usage (print_help w name description args).
Proof.
  unfold print_help. apply raised_bind; [apply raised_emit | intros _].
  apply raised_bind; [apply raised_emit | intros _].
  destruct (py_truthy args); [|apply raised_ret].
  apply raised_bind; [apply raised_emit | intros _].
  apply raised_bind; [apply raised_lift, py_items_raises | intros items].
  apply raised_iter. intros [arg details]. unfold print_help_argument.
  apply raised_bind; [apply raised_lift, py_get_raises | intros arg_desc].
  apply raised_bind; [apply raised_lift, py_get_raises | intros arg_default].
  destruct arg_default; apply raised_emit.
Qed.

Lemma raised_section (section : pyval) :
  raises_in exception_or_usage (command_list_section w section).
Proof.
  unfold command_list_section. destruct (py_truthy section); [|apply raised_emit].
  apply raised_bind; [apply raised_lift, py_items_raises | intros items].
  apply raised_iter. intros [name details].
  apply raised_bind; [apply raised_lift, py_get_raises | intros d; apply raised_emit].
Qed.

Lemma raised_command_list (self : Escripts) :
  raises_in exception_or_usage (command_list w self).
Proof.
  unfold command_list. apply raised_bind; [apply raised_emit | intros _].
  apply raised_bind; [apply raised_lift, py_get_raises | intros scripts].
  apply raised_bind; [apply raised_section | intros _].
  apply raised_bind; [apply raised_emit | intros _].
  apply raised_bind; [apply raised_lift, py_get_raises | intros aliases].
  apply raised_section.
Qed.

Lemma raised_run_script (self : Escripts) (data : pyval) (args : list (string * pyval)) :
  raises_in exception_or_usage (run_script w self data args).
Proof.
  unfold run_script.
  apply raised_bind; [apply raised_lift, py_get_raises | intros path].
  destruct (negb (py_truthy path)); [apply raised_raise; reflexivity|].
  apply raised_bind.
  { destruct path; solve [apply raised_ret | apply raised_raise; reflexivity]. }
  intros script_path.
  destruct (negb (path_exists w script_path)); [apply raised_raise; reflexivity|].
  destruct (negb (path_is_file w script_path)); [apply raised_raise; reflexivity|].
  apply raised_try; [apply raised_subprocess|].
  intros e h H. destruct e; try discriminate H. injection H as <-.
  intros e' E. injection E as <-. now left.
Qed.

Lemma raised_run_alias (self : Escripts) (data : pyval) (args : list (string * pyval)) :
  raises_in exception_or_usage (run_alias w self data args).
Proof.
  unfold run_alias.
  apply raised_bind; [apply raised_lift, py_get_raises | intros template].
  destruct (negb (py_truthy template)); [apply raised_raise; reflexivity|].
  apply raised_bind.
  { apply raised_try; [apply raised_lift, py_format_raises|].
    intros e h H. destruct e; try discriminate H. injection H as <-.
    intros e' E. injection E as <-. now left. }
  intros command. apply raised_try; [apply raised_subprocess|].
  intros e h H. destruct e; try discriminate H. injection H as <-.
  intros e' E. injection E as <-. now left.
Qed.

Lemma ns_setattr_raises (n : Namespace) (k : string) (x : pyval * option nat) :
  raises_exception (ns_setattr n k x).
Proof.
  unfold ns_setattr.
  destruct (String.eqb k "__class__"); [reflexivity|].
  destruct (String.eqb k "__dict__"); [reflexivity|].
  destruct (String.eqb k "__weakref__"); [reflexivity | exact I].
Qed.

Lemma get_value_uncaught (a : action) (s : string) (e : exn) :
  get_value w a s <> Failed (Uncaught e).
Proof.
  unfold get_value. destruct (type_ a); [discriminate | |].
  - destruct (int_of_str w s); discriminate.
  - destruct (float_of_str w s); discriminate.
Qed.

(** What leaves the parser unhandled is an exception of [setattr], which
    derives from [Exception]. *)
Lemma take_action_uncaught (st : parse_state) (ia : nat * action) (s : string) (e : exn) :
  take_action w st ia s = Failed (Uncaught e) -> is_Exception e = true.
Proof.
  unfold take_action. destruct ia as [i a]. unfold get_values.
  destruct (String.eqb s "--").
  - pose proof (ns_setattr_raises (st_namespace st) (dest a) (VList [], None)) as R.
    destruct (ns_setattr _ _ _) as [n | e']; [discriminate|].
    intros H. injection H as <-. exact R.
  - destruct (get_value w a s) as [v | why] eqn:G.
    + pose proof (ns_setattr_raises (st_namespace st) (dest a) (v, None)) as R.
      destruct (ns_setattr _ _ _) as [n | e']; [discriminate|].
      intros H. injection H as <-. exact R.
    + intros H. exfalso. injection H as ->. exact (get_value_uncaught a s e G).
Qed.

Lemma consume_uncaught (L : list (string * pattern)) :
  forall st e, consume w L st = Failed (Uncaught e) -> is_Exception e = true.
Proof.
  induction L as [| x | x y L IH IHy] using list_ind2; intros st e H.
  - discriminate H.
  - destruct x as [s [| | [ia|] o [v|]]]; cbn [consume] in H; try discriminate.
    destruct (take_action w st ia v) as [st1 | why] eqn:T; [discriminate|].
    injection H as ->. exact (take_action_uncaught _ _ _ _ T).
  - destruct x as [s [| | [ia|] o [v|]]].
    + exact (IHy (add_extra st s) e H).
    + exact (IHy (add_extra st s) e H).
    + cbn [consume] in H.
      destruct (take_action w st ia v) as [st1 | why] eqn:T; [exact (IHy _ _ H)|].
      injection H as ->. exact (take_action_uncaught _ _ _ _ T).
    + cbn [consume] in H. destruct y as [v [| |]]; try discriminate.
      destruct (take_action w st ia v) as [st1 | why] eqn:T; [exact (IH _ _ H)|].
      injection H as ->. exact (take_action_uncaught _ _ _ _ T).
    + exact (IHy (add_extra st s) e H).
    + exact (IHy (add_extra st s) e H).
Qed.

Lemma finalize_uncaught (p : parser) :
  forall i seen n miss e,
    finalize w p i seen n miss = Failed (Uncaught e) -> is_Exception e = true.
Proof.
  induction p as [| a p IH]; intros i seen n miss e H; cbn [finalize] in H;
    [discriminate|].
  destruct (existsb (Nat.eqb i) seen); [exact (IH _ _ _ _ _ H)|].
  destruct (required a); [exact (IH _ _ _ _ _ H)|].
  destruct (default a) as [| | | | s | |]; try exact (IH _ _ _ _ _ H).
  destruct (default_is_bound w n i a s); [|exact (IH _ _ _ _ _ H)].
  destruct (get_value w a s) as [v | why] eqn:G.
  - match type of H with
    | context [ns_setattr ?n0 ?k ?x] =>
        pose proof (ns_setattr_raises n0 k x) as R;
        destruct (ns_setattr n0 k x) as [n1 | e']
    end; [exact (IH _ _ _ _ _ H)|].
    injection H as <-. exact R.
  - exfalso. injection H as ->. exact (get_value_uncaught a s e G).
Qed.

Lemma classify_uncaught (p : parser) (argv : list string) (e : exn) :
  classify w p argv <> Failed (Uncaught e).
Proof.
  induction argv as [| t argv IH]; cbn [classify]; [discriminate|].
  destruct (String.eqb t "--"); [discriminate|].
  destruct (parse_optional w p t) as [c | why] eqn:P.
  - destruct (classify w p argv) as [l | why]; [discriminate|].
    intros H. injection H as ->. exact (IH eq_refl).
  - intros H. injection H as ->. revert P. unfold parse_optional.
    destruct t as [| c0 tail]; [discriminate|].
    destruct (negb (Ascii.eqb c0 "-")); [discriminate|].
    destruct (find_option p (String c0 tail) 0); [discriminate|].
    destruct (String.eqb tail ""); [discriminate|].
    destruct (match split_first "=" (String c0 tail) with
              | Some (o, e0) =>
                  match find_option p o 0 with
                  | Some ia => Some (Optional (Some ia) o (Some e0))
                  | None => None
                  end
              | None => None
              end); [discriminate|].
    destruct (get_option_tuples p (String c0 tail)) as [| t1 [| t2 l]]; try discriminate.
    destruct (negative_number_like w _); [discriminate|].
    destruct (has_char " " _); discriminate.
Qed.

Lemma parse_known_uncaught (p : parser) (argv : list string) (e : exn) :
  parse_known w p argv = Failed (Uncaught e) -> is_Exception e = true.
Proof.
  unfold parse_known, parse_args.
  destruct (classify w p argv) as [L | why] eqn:C.
  - destruct (consume w L _) as [st | why] eqn:S.
    + destruct (finalize w p 0 (st_seen st) (st_namespace st) [])
        as [[n [| m miss]] | why] eqn:F.
      * destruct (ns_get n "_unrecognized_args") as [[v origin]|]; [|discriminate].
        destruct v; cbn [py_iter]; try discriminate;
          intros H; injection H as <-; reflexivity.
      * discriminate.
      * intros H. injection H as ->. exact (finalize_uncaught _ _ _ _ _ _ F).
    + intros H. injection H as ->. exact (consume_uncaught _ _ _ S).
  - intros H. exfalso. injection H as ->. exact (classify_uncaught p argv e C).
Qed.

Lemma raised_parse (p : parser) (argv : list string) :
  raises_in exception_or_usage (parse_known_args w p argv).
Proof.
  unfold parse_known_args.
  assert (E : forall why, raises_in exception_or_usage
                            (@parser_error (Namespace * list pyval) w p why)).
  { intros why. unfold parser_error. destruct (usage_fails w p).
    - apply raised_raise. reflexivity.
    - intros e H. injection H as <-. now right. }
  destruct (parse_known w p argv) as [r | why] eqn:K; [apply raised_ret|].
  destruct why; try apply E.
  apply raised_raise. exact (parse_known_uncaught p argv e K).
Qed.

Lemma raised_process_command (self : Escripts) (type_command name : string) (data : pyval)
    (argv : list string) :
  raises_in exception_or_usage (process_command w self type_command name data argv).
Proof.
  unfold process_command.
  apply raised_bind; [apply raised_lift, py_get_raises | intros details].
  apply raised_bind; [apply raised_lift, py_get_raises | intros args_config].
  destruct (existsb _ argv).
  { apply raised_bind; [apply raised_lift, py_get_raises | intros d].
    apply raised_print_help. }
  apply raised_bind; [apply raised_lift, py_items_raises | intros items].
  apply raised_bind; [apply raised_lift, declare_arguments_raises | intros p].
  apply raised_bind.
  { apply raised_try.
    - apply raised_bind; [apply raised_parse | intros r; apply raised_ret].
    - intros e h H. destruct (is_Exception e); [|discriminate H]. injection H as <-.
      intros e' E. discriminate E. }
  intros [parsed_args|]; [|apply raised_ret].
  apply raised_try.
  - destruct (String.eqb type_command "scripts"); [apply raised_run_script|].
    destruct (String.eqb type_command "aliases"); [apply raised_run_alias|].
    apply raised_raise. reflexivity.
  - intros e h H. destruct (is_Exception e); [|discriminate H]. injection H as <-.
    intros e' E. discriminate E.
Qed.

Lemma raised_run (self : Escripts) (sys_argv : list string) :
  raises_in exception_or_usage (run w self sys_argv).
Proof.
  unfold run. destruct sys_argv as [| prog [| command argv]]; try apply raised_emit.
  destruct (String.eqb command "--list"); [apply raised_command_list|].
  apply raised_bind; [apply raised_lift, py_get_raises | intros scripts].
  apply raised_bind; [apply raised_lift, py_in_raises | intros [|]].
  { apply raised_bind; [apply raised_lift, py_get_raises | intros s].
    apply raised_process_command. }
  apply raised_bind; [apply raised_lift, py_get_raises | intros aliases].
  apply raised_bind; [apply raised_lift, py_in_raises | intros [|]]; [|apply raised_emit].
  apply raised_bind; [apply raised_lift, py_get_raises | intros s].
  apply raised_process_command.
Qed.
End Raised.

(** X17. If what the world raises on its own account derives from
    [Exception], the process that runs [main] ends with status 0, 1 or 2
    whatever the configuration and the arguments are: 2 is the usage error
    of [argparse], 1 the failure logged by [main].  In particular the exit
    status of a child is never the exit status of the process. *)
Theorem exit_status_0_1_2 (w : World) (sys_argv : list string) :
  raises_exceptions w ->
  exit_status (main w sys_argv) = 0%Z
  \/ exit_status (main w sys_argv) = 1%Z
  \/ exit_status (main w sys_argv) = 2%Z.
Proof.
  intros Hw.
  assert (R : raises_in exception_or_usage (es <- __init__ w None ;; run w es sys_argv)).
  { apply raised_bind; [|intros es; apply (raised_run w Hw)].
    unfold __init__. apply raised_bind; [apply (raised_load_config w Hw)|].
    intros config. apply raised_ret. }
  unfold main, exit_status, outcome, try_except. unfold raises_in, outcome in R.
  destruct (es <- __init__ w None;; run w es sys_argv) as [t [u | e]]; cbn [snd].
  - now left.
  - destruct (R e eq_refl) as [He | ->].
    + rewrite He. cbn. right. now left.
    + cbn. right. now right.
Qed.

Lemma exit_status_0_1_2_witness :
  let w := child_world [] 7 in
  exit_status (main w ["escripts"; "say"]) = 0%Z
  \/ exit_status (main w ["escripts"; "say"]) = 1%Z
  \/ exit_status (main w ["escripts"; "say"]) = 2%Z.
Proof.
  intros w. apply (exit_status_0_1_2 w ["escripts"; "say"]).
  unfold raises_exceptions. split; [|split; [|split]].
  - intros s e H. discriminate H.
  - intros path e H. discriminate H.
  - intros name. reflexivity.
  - intros kwargs v rest conv spec e H. injection H as <-. reflexivity.
Defined.

(** X18. For a command that [run] resolves, in either section, to a
    definition that is a mapping whose [args] is a mapping, and for tokens
    without [--help]: a schema the parser cannot be built from (an entry
    that is not a mapping, a parameter name made of dashes only) is a
    failure of the whole run, not of the command.  The parser is built
    outside the [try] blocks of [process_command], so the exception reaches
    [main], which logs it and exits with status 1.  Nothing is parsed and
    nothing is executed. *)
Theorem schema_failure_exits_1 (w : World) (config : pyval) (sys_argv argv : list string)
    (type_command name : string) (section definition schema : list (pyval * pyval))
    (e : exn) :
  _load_config w (default_namespace w) = ret config ->
  resolve {| namespace := default_namespace w; data := config |} sys_argv
  = Ok (Command type_command name (VDict section) argv) ->
  dict_lookup section name = Some (VDict definition) ->
  py_get (VDict definition) "args" (VDict []) = Ok (VDict schema) ->
  ~ In "--help" argv ->
  declare_arguments w [] schema = Raise e ->
  main w sys_argv = ([ELogError "Ошибка: %s" [LExn e]], Raise (SystemExit 1))
  /\ exit_status (main w sys_argv) = 1%Z.
Proof.
  intros Hload Hres Hd Hargs Hhelp Hp.
  assert (He : is_Exception e = true).
  { pose proof (declare_arguments_raises w schema []) as R. rewrite Hp in R. exact R. }
  assert (E : main w sys_argv = ([ELogError "Ошибка: %s" [LExn e]], Raise (SystemExit 1))).
  { apply (main_fails w config _ [] _ Hload); [|exact He].
    rewrite run_dispatches, Hres.
    rewrite (bind_lift_ok _ (Command type_command name (VDict section) argv)) by reflexivity.
    cbn [dispatch]. unfold process_command.
    rewrite (bind_lift_ok _ (VDict definition)) by (cbn; rewrite Hd; reflexivity).
    rewrite (bind_lift_ok _ (VDict schema)) by exact Hargs.
    rewrite (not_help argv Hhelp).
    rewrite (bind_lift_ok _ schema) by reflexivity.
    rewrite Hp. reflexivity. }
  split; [exact E | rewrite E; reflexivity].
Qed.

Lemma schema_failure_exits_1_witness :
  let script := [(VStr "path", VStr "build.py");
                 (VStr "args", VDict [(VStr "count", VInt 1)])] in
  let alias := [(VStr "command", VStr "echo hi");
                (VStr "args", VDict [(VStr "--", VDict [])])] in
  let config := VDict [(VStr "scripts", VDict [(VStr "build", VDict script)]);
                       (VStr "aliases", VDict [(VStr "hi", VDict alias)])] in
  let w := sample_world (YamlLoaded config) in
  main w ["escripts"; "build"; "--count"; "2"]
  = ([ELogError "Ошибка: %s" [LExn (TypeError "argument of type 'int' is not iterable")]],
     Raise (SystemExit 1))
  /\ main w ["escripts"; "hi"]
     = ([ELogError "Ошибка: %s"
           [LExn (ValueError "dest= is required for options like '----'")]],
        Raise (SystemExit 1)).
Proof.
  intros script alias config w. split.
  - apply (schema_failure_exits_1 w config ["escripts"; "build"; "--count"; "2"]
             ["--count"; "2"] "scripts" "build" [(VStr "build", VDict script)] script
             [(VStr "count", VInt 1)]);
      try solve [reflexivity | discriminate].
    intros [E | [E | []]]; discriminate E.
  - apply (schema_failure_exits_1 w config ["escripts"; "hi"] [] "aliases" "hi"
             [(VStr "hi", VDict alias)] alias [(VStr "--", VDict [])]);
      try solve [reflexivity | discriminate].
    intros [].
Defined.

(* ================================================================= *)
(** ** Further properties: one command per process *)

Section Children.
Variable w : World.

Lemma spawns_app (t t' : list event) : spawns (t ++ t') = spawns t + spawns t'.
Proof.
  unfold spawns. now rewrite filter_app, length_app.
Qed.

Lemma spawns_bind {A B} (m : M A) (k : A -> M B) (a b c : nat) :
  spawns (trace m) <= a -> (forall x, spawns (trace (k x)) <= b) -> a + b <= c ->
  spawns (trace (bind m k)) <= c.
Proof.
  unfold trace, bind. destruct m as [t [x | e]]; cbn [fst]; intros Hm Hk Hc.
  - specialize (Hk x). destruct (k x) as [t' r]. cbn [fst] in *. rewrite spawns_app. lia.
  - lia.
Qed.

Lemma spawns_try {A} (m : M A) (handler : exn -> option (M A)) (a b c : nat) :
  spawns (trace m) <= a ->
  (forall e h, handler e = Some h -> spawns (trace h) <= b) -> a + b <= c ->
  spawns (trace (try_except m handler)) <= c.
Proof.
  unfold trace, try_except. destruct m as [t [x | e]]; cbn [fst]; intros Hm Hh Hc; [lia|].
  destruct (handler e) as [[t' r]|] eqn:E; cbn [fst]; [|lia].
  specialize (Hh e (t', r) E). cbn [fst] in Hh. rewrite spawns_app. lia.
Qed.

Lemma spawns_lift {A} (r : result A) : spawns (trace (lift r)) <= 0.
Proof.
  reflexivity.
Qed.

Lemma spawns_prints_only {A} (m : M A) : prints_only m -> spawns (trace m) <= 0.
Proof.
  unfold prints_only, spawns. induction (trace m) as [| ev t IH]; cbn; [lia|].
  intros H. apply andb_prop in H as [Hev Ht]. destruct ev; try discriminate Hev.
  cbn. exact (IH Ht).
Qed.

Lemma spawns_subprocess (s : spawn) : spawns (trace (subprocess_run_checked w s)) <= 1.
Proof.
  unfold subprocess_run_checked.
  destruct (subprocess_run w s) as [[| c | c] | e]; cbn; lia.
Qed.

Lemma spawns_load_config (ns : string) : spawns (trace (_load_config w ns)) <= 0.
Proof.
  unfold _load_config.
  repeat match goal with
         | |- spawns (trace (if ?b then _ else _)) <= 0 => destruct b
         end;
    try reflexivity.
  destruct (yaml_safe_load w _) as [[] | msg | e]; reflexivity.
Qed.

Lemma spawns_run_script (self : Escripts) (data : pyval) (args : list (string * pyval)) :
  spawns (trace (run_script w self data args)) <= 1.
Proof.
  destruct (run_script_trace w self data args) as [-> | (rel & fmt & logged & _ & [-> | ->])];
    cbn; lia.
Qed.

Lemma spawns_run_alias (self : Escripts) (data : pyval) (args : list (string * pyval)) :
  spawns (trace (run_alias w self data args)) <= 1.
Proof.
  unfold run_alias.
  apply (spawns_bind _ _ 0 1); [apply spawns_lift | intros template | lia].
  destruct (negb (py_truthy template)); [cbn; lia|].
  apply (spawns_bind _ _ 0 1); [| intros command | lia].
  { apply (spawns_try _ _ 0 0); [apply spawns_lift | | lia].
    intros e h H. destruct e; try discriminate H. injection H as <-. reflexivity. }
  apply (spawns_try _ _ 1 0); [apply spawns_subprocess | | lia].
  intros e h H. destruct e; try discriminate H. injection H as <-. reflexivity.
Qed.

Lemma spawns_process_command (self : Escripts) (type_command name : string) (data : pyval)
    (argv : list string) :
  spawns (trace (process_command w self type_command name data argv)) <= 1.
Proof.
  unfold process_command.
  apply (spawns_bind _ _ 0 1); [apply spawns_lift | intros details | lia].
  apply (spawns_bind _ _ 0 1); [apply spawns_lift | intros args_config | lia].
  destruct (existsb _ argv).
  { apply (spawns_bind _ _ 0 1); [apply spawns_lift | intros d | lia].
    apply Nat.le_trans with 0; [|lia].
    apply spawns_prints_only, prints_only_print_help. }
  apply (spawns_bind _ _ 0 1); [apply spawns_lift | intros items | lia].
  apply (spawns_bind _ _ 0 1); [apply spawns_lift | intros p | lia].
  apply (spawns_bind _ _ 0 1); [| intros [parsed_args|] | lia].
  - apply (spawns_try _ _ 0 0); [| | lia].
    + unfold parse_known_args, parser_error.
      destruct (parse_known w p argv) as [r | []]; try reflexivity;
        destruct (usage_fails w p); reflexivity.
    + intros e h H. destruct (is_Exception e); [|discriminate H]. injection H as <-.
      reflexivity.
  - apply (spawns_try _ _ 1 0); [| | lia].
    + destruct (String.eqb type_command "scripts"); [apply spawns_run_script|].
      destruct (String.eqb type_command "aliases"); [apply spawns_run_alias|].
      cbn; lia.
    + intros e h H. destruct (is_Exception e); [|discriminate H]. injection H as <-.
      reflexivity.
  - cbn; lia.
Qed.

Lemma spawns_run (self : Escripts) (sys_argv : list string) :
  spawns (trace (run w self sys_argv)) <= 1.
Proof.
  unfold run. destruct sys_argv as [| prog [| command argv]]; try (cbn; lia).
  destruct (String.eqb command "--list").
  { apply Nat.le_trans with 0; [|lia].
    apply spawns_prints_only. unfold command_list.
    apply prints_only_bind; [apply prints_only_print|]. intros _.
    apply prints_only_bind; [apply prints_only_lift|]. intros scripts.
    apply prints_only_bind; [apply prints_only_section|]. intros _.
    apply prints_only_bind; [apply prints_only_print|]. intros _.
    apply prints_only_bind; [apply prints_only_lift|]. intros aliases.
    apply prints_only_section. }
  apply (spawns_bind _ _ 0 1); [apply spawns_lift | intros scripts | lia].
  apply (spawns_bind _ _ 0 1); [apply spawns_lift | intros [|] | lia].
  { apply (spawns_bind _ _ 0 1); [apply spawns_lift | intros s | lia].
    apply spawns_process_command. }
  apply (spawns_bind _ _ 0 1); [apply spawns_lift | intros aliases | lia].
  apply (spawns_bind _ _ 0 1); [apply spawns_lift | intros [|] | lia]; [|cbn; lia].
  apply (spawns_bind _ _ 0 1); [apply spawns_lift | intros s | lia].
  apply spawns_process_command.
Qed.
End Children.

(** X19. A run of [main] starts at most one child process, whatever the
    world, the configuration and the arguments are: one command is handled
    per process, and no failure is retried. *)
Theorem main_starts_at_most_one_child (w : World) (sys_argv : list string) :
  spawns (trace (main w sys_argv)) <= 1.
Proof.
  unfold main. apply (spawns_try _ _ 1 0); [| | lia].
  - apply (spawns_bind _ _ 0 1); [| intros es; apply spawns_run | lia].
    unfold __init__.
    apply (spawns_bind _ _ 0 0); [apply spawns_load_config | intros c; reflexivity | lia].
  - intros e h H. destruct (is_Exception e); [|discriminate H]. injection H as <-.
    reflexivity.
Qed.
